(** * Candle aggregation and strategy levels of [app.py]

    A shallow embedding of the computational core of the market-data
    backend: [aggregate_candles], the data part of
    [get_previous_day_high_low] (trading-day grouping, previous-day
    selection, the PL3 levels), [calculate_m75_conditions] and the
    arithmetic of [calculate_box_strategy_values].

    Conventions of the embedding.
    - A JSON value met in a candle is [VNone], a number or a string.
      Numbers are exact rationals ([Q]): Python floats are idealised, so
      a comparison such as [distance <= 0.005] is the comparison of the
      exact quotients.
    - A Python exception is a value of [exn]; code that may raise lives
      in the error monad [res].
    - Network calls and the wall clock are inputs of the embedded
      functions: the candle list of the HTTP response, and [today]. *)

From Stdlib Require Import QArith Qabs Qround Ascii Lqa.
From stdpp Require Import gmap strings list fin_maps sorting.
From Equations Require Import Equations.

Local Open Scope Z_scope.

(** ** Python values and exceptions *)

Module Py.

Inductive value : Type :=
| VNone
| VNum (q : Q)
| VStr (s : string).

Inductive exn : Type :=
| TypeError
| IndexError
| ValueError
| OverflowError.

Inductive res (A : Type) : Type :=
| Ok (a : A)
| Raise (e : exn).
Arguments Ok {A} a.
Arguments Raise {A} e.

Definition bind {A B} (m : res A) (k : A -> res B) : res B :=
  match m with
  | Ok a => k a
  | Raise e => Raise e
  end.

Definition is_none (v : value) : bool :=
  match v with VNone => true | _ => false end.

(** [x < y] on two rationals, as a boolean. *)
Definition Qlt_b (x y : Q) : bool := negb (Qle_bool y x).

(** [a < b]: defined between two numbers and between two strings, a
    [TypeError] otherwise ([None] is ordered with nothing). *)
Definition py_lt (a b : value) : res bool :=
  match a, b with
  | VNum x, VNum y => Ok (Qlt_b x y)
  | VStr s, VStr t => Ok (String.ltb s t)
  | _, _ => Raise TypeError
  end.

Definition py_gt (a b : value) : res bool := py_lt b a.

(** The loop of the builtin [max] over a non-empty sequence: keep the
    running maximum, replace it when [item > maxitem]. *)
Fixpoint max_from (best : value) (items : list value) : res value :=
  match items with
  | [] => Ok best
  | item :: rest =>
      bind (py_gt item best) (fun b =>
      max_from (if b then item else best) rest)
  end.

Fixpoint min_from (best : value) (items : list value) : res value :=
  match items with
  | [] => Ok best
  | item :: rest =>
      bind (py_lt item best) (fun b =>
      min_from (if b then item else best) rest)
  end.

(** [max(items)]: a [ValueError] on the empty sequence. *)
Definition py_max (items : list value) : res value :=
  match items with
  | [] => Raise ValueError
  | x :: rest => max_from x rest
  end.

Definition py_min (items : list value) : res value :=
  match items with
  | [] => Raise ValueError
  | x :: rest => min_from x rest
  end.

(** [max(items, default=None)]. *)
Definition py_max_default (items : list value) : res value :=
  match items with
  | [] => Ok VNone
  | x :: rest => max_from x rest
  end.

Definition py_min_default (items : list value) : res value :=
  match items with
  | [] => Ok VNone
  | x :: rest => min_from x rest
  end.

(** [a + b] where the left operand is already a number (the running
    total of [sum], which starts from [0]). *)
Definition num_add (acc : Q) (b : value) : res Q :=
  match b with
  | VNum y => Ok (acc + y)%Q
  | _ => Raise TypeError
  end.

Fixpoint sum_from (acc : Q) (items : list value) : res Q :=
  match items with
  | [] => Ok acc
  | item :: rest => bind (num_add acc item) (fun acc' => sum_from acc' rest)
  end.

(** [sum(items)]. *)
Definition py_sum (items : list value) : res Q := sum_from 0%Q items.

(** [(a + b) / 2] as written for [pl3m]: two strings concatenate and
    then fail on the division, every other non-numeric pair fails on
    the addition; either way a [TypeError]. *)
Definition py_mid (a b : value) : res Q :=
  match a, b with
  | VNum x, VNum y => Ok ((x + y) / 2)%Q
  | _, _ => Raise TypeError
  end.

(** Rounding to the nearest integer, ties to the even neighbour. *)
Definition round_half_even (q : Q) : Z :=
  let f := Qfloor q in
  let r := (q - inject_Z f)%Q in
  match (r ?= 1 # 2)%Q with
  | Lt => f
  | Gt => f + 1
  | Eq => if Z.even f then f else f + 1
  end.

(** [round(q, 2)]. *)
Definition round2 (q : Q) : Q :=
  Qmake (round_half_even (q * 100)%Q) 100.

(** [round(v, 2)] on a value. *)
Definition py_round2 (v : value) : res Q :=
  match v with
  | VNum q => Ok (round2 q)
  | _ => Raise TypeError
  end.

(** Truthiness of a nullable number: [None] and zero are false. *)
Definition truthy (v : option Q) : bool :=
  match v with
  | Some q => negb (Qeq_bool q 0)
  | None => false
  end.

(** [float(v)] of a nullable number.  Every call site is guarded by the
    truthiness test of its argument, so the [None] case (a [TypeError] in
    Python) is never reached. *)
Definition float_of (v : option Q) : Q :=
  match v with
  | Some q => q
  | None => 0%Q
  end.

End Py.

Import Py.

Notation "'let!' x ':=' m 'in' k" := (Py.bind m (fun x => k))
  (at level 10, x name, m at level 100, k at level 200).

(** ** Strings *)

Module Str.

(** [sub in s]. *)
Fixpoint contains (sub s : string) : bool :=
  String.prefix sub s
  || match s with
     | EmptyString => false
     | String _ rest => contains sub rest
     end.

(** [s.replace(old, new)] for a non-empty [old]: every occurrence, left
    to right, without overlap.  [skip] counts the characters of a matched
    occurrence that are still to be dropped. *)
Fixpoint replace_from (old new s : string) (skip : nat) : string :=
  match s with
  | EmptyString => EmptyString
  | String c rest =>
      match skip with
      | S k => replace_from old new rest k
      | O =>
          if String.prefix old s
          then new +:+ replace_from old new rest (String.length old - 1)
          else String c (replace_from old new rest 0)
      end
  end.

Definition replace (old new s : string) : string := replace_from old new s 0.

(** [str(v)] of a value that is not a number. *)
Definition str_of (v : value) : string :=
  match v with
  | VStr s => s
  | _ => "None"
  end.

End Str.

(** ** Dates and datetimes *)

Module Datetime.

(** A [datetime]: the wall-clock reading in microseconds counted from
    1970-01-01T00:00:00, and the UTC offset (in seconds) when the value
    is timezone-aware.  A [date] is a day number counted from
    1970-01-01. *)
Record datetime : Type := {
  wall_us : Z;
  tzinfo : option Z
}.

Definition us_per_day : Z := 86400 * 1000000.

(** [datetime.min] and [datetime.max] as wall-clock readings. *)
Definition min_us : Z := -62135596800 * 1000000.
Definition max_us : Z := 253402300800 * 1000000 - 1.

Definition in_range (us : Z) : bool := (min_us <=? us) && (us <=? max_us).

(** [timedelta(hours=5, minutes=30)]. *)
Definition ist_offset : Z := (5 * 3600 + 30 * 60) * 1000000.

(** [datetime.fromtimestamp(seconds, tz=timezone.utc)]: the instant
    rounded to the microsecond; out of the supported years it raises. *)
Definition fromtimestamp_utc (seconds : Q) : res datetime :=
  let us := round_half_even (seconds * 1000000)%Q in
  if in_range us then Ok {| wall_us := us; tzinfo := Some 0 |}
  else Raise ValueError.

(** [dt.replace(tzinfo=None) + delta]. *)
Definition naive_plus (dt : datetime) (delta : Z) : res datetime :=
  let us := wall_us dt + delta in
  if in_range us then Ok {| wall_us := us; tzinfo := None |}
  else Raise OverflowError.

(** [dt.date()]. *)
Definition date (dt : datetime) : Z := wall_us dt / us_per_day.

(** Day number of a civil date of the proleptic Gregorian calendar. *)
Definition days_from_civil (y m d : Z) : Z :=
  let y' := if m <=? 2 then y - 1 else y in
  let era := y' / 400 in
  let yoe := y' - era * 400 in
  let doy := (153 * (if 2 <? m then m - 3 else m + 9) + 2) / 5 + d - 1 in
  let doe := yoe * 365 + yoe / 4 - yoe / 100 + doy in
  era * 146097 + doe - 719468.

Definition is_leap (y : Z) : bool :=
  ((y mod 4 =? 0) && negb (y mod 100 =? 0)) || (y mod 400 =? 0).

Definition days_in_month (y m : Z) : Z :=
  if m =? 2 then (if is_leap y then 29 else 28)
  else if (m =? 4) || (m =? 6) || (m =? 9) || (m =? 11) then 30
  else 31.

Definition digit (c : ascii) : option Z :=
  let n := Z.of_nat (nat_of_ascii c) in
  if (48 <=? n) && (n <=? 57) then Some (n - 48) else None.

Definition two_digits (a b : ascii) : option Z :=
  x ← digit a; y ← digit b; Some (10 * x + y).

Definition is_char (c : ascii) (s : string) : bool :=
  String.eqb (String c EmptyString) s.

(** The UTC offset suffix: nothing, or a sign and [HH:MM]. *)
Definition parse_offset (cs : list ascii) : option (option Z) :=
  match cs with
  | [] => Some None
  | [sg; h1; h2; c; m1; m2] =>
      if is_char c ":" && (is_char sg "+" || is_char sg "-") then
        h ← two_digits h1 h2;
        m ← two_digits m1 m2;
        if (h <? 24) && (m <? 60) then
          Some (Some ((if is_char sg "-" then -1 else 1) * (h * 3600 + m * 60)))
        else None
      else None
  | _ => None
  end.

(** [datetime.fromisoformat] on the layout the source comment names,
    [YYYY-MM-DDTHH:MM:SS] with an optional [+HH:MM] or [-HH:MM] suffix;
    [None] stands for the [ValueError] of a string that does not parse.
    Other layouts accepted by the library function are outside this
    instance. *)
Definition fromisoformat (s : string) : option datetime :=
  match String.list_ascii_of_string s with
  | y1 :: y2 :: y3 :: y4 :: c1 :: m1 :: m2 :: c2 :: d1 :: d2 :: sep
      :: h1 :: h2 :: c3 :: n1 :: n2 :: c4 :: s1 :: s2 :: rest =>
      if is_char c1 "-" && is_char c2 "-" && is_char c3 ":" && is_char c4 ":"
         && (is_char sep "T" || is_char sep " ")
      then
        yh ← two_digits y1 y2;
        yl ← two_digits y3 y4;
        mo ← two_digits m1 m2;
        d ← two_digits d1 d2;
        h ← two_digits h1 h2;
        mi ← two_digits n1 n2;
        sec ← two_digits s1 s2;
        tz ← parse_offset rest;
        let y := 100 * yh + yl in
        if (1 <=? y) && (1 <=? mo) && (mo <=? 12)
           && (1 <=? d) && (d <=? days_in_month y mo)
           && (h <? 24) && (mi <? 60) && (sec <? 60)
        then
          Some {| wall_us :=
                    (days_from_civil y mo d * 86400 + h * 3600 + mi * 60 + sec)
                    * 1000000;
                  tzinfo := tz |}
        else None
      else None
  | _ => None
  end.

End Datetime.

(** ** Candles: sorting and [aggregate_candles] *)

(** A candle is the JSON array
    [[timestamp, open, high, low, close, volume, oi]], possibly shorter. *)
Abbreviation candle := (list value).

Module Candles.

(** [c[i] if len(c) > i else None]. *)
Definition field_or_none (c : candle) (i : nat) : value :=
  default VNone (c !! i).

(** [[c[i] for c in group if len(c) > i and c[i] is not None]]. *)
Definition present (i : nat) (group : list candle) : list value :=
  omap (fun c : candle =>
          match c !! i with
          | Some v => if is_none v then None else Some v
          | None => None
          end) group.

(** [[c[i] for c in group if len(c) > i]], as the two [append] loops of
    the PL3 computation build [highs] and [lows]. *)
Definition column (i : nat) (group : list candle) : list value :=
  omap (fun c : candle => c !! i) group.

(** The sort key [lambda x: x[0] if len(x) > 0 else 0]. *)
Definition sort_key (x : candle) : value :=
  match x with
  | [] => VNum 0
  | timestamp :: _ => timestamp
  end.

(** Stable insertion of [x] behind every element that is not greater. *)
Fixpoint insert_by_key (x : candle) (sorted : list candle) : res (list candle) :=
  match sorted with
  | [] => Ok [x]
  | y :: rest =>
      let! lt := py_lt (sort_key x) (sort_key y) in
      if lt then Ok (x :: y :: rest)
      else let! rest' := insert_by_key x rest in Ok (y :: rest')
  end.

Fixpoint sort_into (acc pending : list candle) : res (list candle) :=
  match pending with
  | [] => Ok acc
  | x :: rest => let! acc' := insert_by_key x acc in sort_into acc' rest
  end.

(** [sorted(candles, key=lambda x: x[0] if len(x) > 0 else 0)]: stable,
    and a [TypeError] as soon as two keys that have no order meet. *)
Definition sorted_by_timestamp (candles : list candle) : res (list candle) :=
  sort_into [] candles.

Definition factor_of (target_interval : string) : option positive :=
  if String.eqb target_interval "5minute" then Some 5%positive
  else if String.eqb target_interval "15minute" then Some 15%positive
  else if String.eqb target_interval "30minute" then Some 30%positive
  else if String.eqb target_interval "60minute" then Some 60%positive
  else if String.eqb target_interval "75minute" then Some 75%positive
  else None.

(** The body of the [while] loop for one non-empty [group]. *)
Definition merge_group (group : list candle) : res candle :=
  match head group, last group with
  | Some first_candle, Some last_candle =>
      let! timestamp :=
        match first_candle !! 0%nat with
        | Some t => Ok t
        | None => Raise IndexError
        end in
      let open_price := field_or_none first_candle 1 in
      let close_price := field_or_none last_candle 4 in
      let! high_price := py_max_default (present 2 group) in
      let! low_price := py_min_default (present 3 group) in
      let! volume := py_sum (present 5 group) in
      let oi := field_or_none last_candle 6 in
      Ok [timestamp; open_price; high_price; low_price; close_price;
          VNum volume; oi]
  | _, _ => Raise IndexError
  end.

(** The [while i < len(candles)] loop, with its two variables [i] and
    [aggregated]. *)
Equations? aggregate_loop (candles : list candle) (factor : positive)
    (i : nat) (aggregated : list candle) : res (list candle)
    by wf (length candles - i)%nat lt :=
  aggregate_loop candles factor i aggregated
    with decide (i < length candles)%nat := {
    | right _ => Ok aggregated
    | left _ with take (Pos.to_nat factor) (drop i candles) := {
        | [] => Ok aggregated
        | group with merge_group group := {
            | Raise e => Raise e
            | Ok merged =>
                aggregate_loop candles factor (i + Pos.to_nat factor)
                               (aggregated ++ [merged]) } } }.
Proof. lia. Qed.

Definition aggregate_candles (candles : list candle) (target_interval : string)
  : res (list candle) :=
  match candles with
  | [] => Ok []
  | _ :: _ =>
      match factor_of target_interval with
      | Some factor => aggregate_loop candles factor 0 []
      | None => Ok candles
      end
  end.

End Candles.

(** ** [calculate_m75_conditions] *)

Module M75.

Record conditions : Type := {
  pl3h_condition : option string;
  pl3m_condition : option string;
  pl3l_condition : option string;
  pl3h_signal : option string;
  pl3m_signal : option string;
  pl3l_signal : option string;
  pl3h_alert : bool;
  pl3m_alert : bool;
  pl3l_alert : bool
}.

(** The dictionary returned when an input fails the availability test. *)
Definition no_conditions : conditions := {|
  pl3h_condition := None; pl3m_condition := None; pl3l_condition := None;
  pl3h_signal := None; pl3m_signal := None; pl3l_signal := None;
  pl3h_alert := false; pl3m_alert := false; pl3l_alert := false
|}.

Definition near_threshold : Q := 0.005%Q.

(** Relative distance of the price to a level. *)
Definition distance_to (ltp_float level_float : Q) : Q :=
  (Qabs (ltp_float - level_float) / level_float)%Q.

Definition pl3h_part (ltp_float pl3h_float : Q)
  : option string * option string * bool :=
  if Qlt_b pl3h_float ltp_float then (Some "bullish", Some "B", false)
  else (None, None, Qle_bool (distance_to ltp_float pl3h_float) near_threshold).

Definition pl3l_part (ltp_float pl3l_float : Q)
  : option string * option string * bool :=
  if Qlt_b ltp_float pl3l_float then (Some "bearish", Some "BO-S", false)
  else (None, None, Qle_bool (distance_to ltp_float pl3l_float) near_threshold).

Definition pl3m_part (ltp_float pl3m_float : Q) (previous_ltp : option Q)
  : option string * option string :=
  if truthy previous_ltp then
    let prev_ltp_float := float_of previous_ltp in
    if Qlt_b pl3m_float prev_ltp_float && Qle_bool ltp_float pl3m_float
    then (Some "bearish_break", Some "W")
    else if Qlt_b prev_ltp_float pl3m_float && Qle_bool pl3m_float ltp_float
    then (Some "bullish_break", Some "W")
    else if Qlt_b ltp_float pl3m_float && Qlt_b prev_ltp_float pl3m_float
    then (Some "below", Some "W")
    else if Qlt_b pl3m_float ltp_float && Qlt_b pl3m_float prev_ltp_float
    then (Some "above", Some "W")
    else (None, None)
  else
    (if Qlt_b ltp_float pl3m_float then Some "below"
     else if Qlt_b pl3m_float ltp_float then Some "above"
     else None,
     Some "W").

Definition calculate_m75_conditions
    (ltp pl3h pl3m pl3l previous_ltp : option Q) : conditions :=
  if negb (truthy ltp) || negb (truthy pl3h)
     || negb (truthy pl3m) || negb (truthy pl3l)
  then no_conditions
  else
    let ltp_float := float_of ltp in
    let pl3h_float := float_of pl3h in
    let pl3m_float := float_of pl3m in
    let pl3l_float := float_of pl3l in
    let '(h_condition, h_signal, h_alert) := pl3h_part ltp_float pl3h_float in
    let '(l_condition, l_signal, l_alert) := pl3l_part ltp_float pl3l_float in
    let '(m_condition, m_signal) := pl3m_part ltp_float pl3m_float previous_ltp in
    let m_alert := Qle_bool (distance_to ltp_float pl3m_float) near_threshold in
    {| pl3h_condition := h_condition;
       pl3m_condition := m_condition;
       pl3l_condition := l_condition;
       pl3h_signal := h_signal;
       pl3m_signal := m_signal;
       pl3l_signal := l_signal;
       pl3h_alert := h_alert;
       pl3m_alert := m_alert;
       pl3l_alert := l_alert |}.

End M75.

(** ** The data part of [get_previous_day_high_low] *)

Module PL3.

Import Candles Str Datetime.

Record levels : Type := {
  pl3h : option Q;
  pl3l : option Q;
  pl3m : option Q
}.

(** [{"pl3h": None, "pl3l": None, "pl3m": None}]. *)
Definition no_levels : levels :=
  {| pl3h := None; pl3l := None; pl3m := None |}.

(** The grouping dictionary [candles_by_date] together with the
    timestamps reported by the warning of the [except] branch. *)
Record grouping : Type := {
  candles_by_date : gmap Z (list candle);
  warnings : list value
}.

Section WithParser.

(** [datetime.fromisoformat]; [None] is its [ValueError]. *)
Variable parse : string -> option datetime.

Definition iso (s : string) : res datetime :=
  match parse s with
  | Some dt => Ok dt
  | None => Raise ValueError
  end.

(** The [try] block that turns a timestamp into [dt]. *)
Definition parse_timestamp (timestamp : value) : res datetime :=
  match timestamp with
  | VNum ts =>
      let! dt_utc := fromtimestamp_utc (ts / 1000)%Q in
      naive_plus dt_utc ist_offset
  | _ =>
      let ts_str := str_of timestamp in
      if contains "+" ts_str && contains "05:30" ts_str then
        iso (replace "+05:30" "" ts_str)
      else if contains "Z" ts_str || contains "+00:00" ts_str then
        let! dt_utc := iso (replace "Z" "+00:00" ts_str) in
        naive_plus dt_utc ist_offset
      else
        iso ts_str
  end.

(** One iteration of [for candle in candles_sorted]. *)
Definition group_step (g : grouping) (c : candle) : grouping :=
  match c with
  | [] => g
  | timestamp :: _ =>
      match parse_timestamp timestamp with
      | Ok dt =>
          let date_key := date dt in
          {| candles_by_date :=
               <[date_key := default [] (candles_by_date g !! date_key) ++ [c]]>
                 (candles_by_date g);
             warnings := warnings g |}
      | Raise _ =>
          {| candles_by_date := candles_by_date g;
             warnings := warnings g ++ [timestamp] |}
      end
  end.

Definition group_by_date (candles_sorted : list candle) : grouping :=
  foldl group_step {| candles_by_date := ∅; warnings := [] |} candles_sorted.

End WithParser.

(** [sorted(candles_by_date.keys(), reverse=True)]. *)
Definition sorted_dates (by_date : gmap Z (list candle)) : list Z :=
  merge_sort Z.ge (elements (dom by_date)).

(** [candles_by_date[d]] for a key [d] taken from the dictionary. *)
Definition candles_of (by_date : gmap Z (list candle)) (d : Z) : list candle :=
  default [] (by_date !! d).

(** The [for date_key in sorted_dates] loop with its [break]. *)
Fixpoint first_before (today : Z) (dates : list Z) : option Z :=
  match dates with
  | [] => None
  | date_key :: rest =>
      if date_key <? today then Some date_key else first_before today rest
  end.

(** The pair [(previous_day_date, previous_day_candles)] after the
    selection; [None] when both variables are still [None]. *)
Definition select_previous_day (by_date : gmap Z (list candle)) (today : Z)
  : option (Z * list candle) :=
  let dates := sorted_dates by_date in
  let found :=
    match first_before today dates with
    | Some d => Some (d, candles_of by_date d)
    | None => None
    end in
  match found with
  | Some (_, _ :: _) => found
  | _ =>
      match dates with
      | d0 :: rest =>
          if d0 <? today then Some (d0, candles_of by_date d0)
          else match rest with
               | d1 :: _ => Some (d1, candles_of by_date d1)
               | [] => found
               end
      | [] => found
      end
  end.

(** [l[-3:] if len(l) >= 3 else l]. *)
Definition last_three (l : list candle) : list candle :=
  if (3 <=? length l)%nat then drop (length l - 3) l else l.

(** The levels of the selected day. *)
Definition levels_of_day (previous_day_candles : list candle) : res levels :=
  let! sorted_day_candles := sorted_by_timestamp previous_day_candles in
  let last_3_candles := last_three sorted_day_candles in
  let highs := column 2 last_3_candles in
  let lows := column 3 last_3_candles in
  match highs, lows with
  | _ :: _, _ :: _ =>
      let! h := py_max highs in
      let! l := py_min lows in
      let! m := py_mid h l in
      let! h2 := py_round2 h in
      let! l2 := py_round2 l in
      Ok {| pl3h := Some h2; pl3l := Some l2; pl3m := Some (round2 m) |}
  | _, _ => Ok no_levels
  end.

(** The candles that enter the grouping loop: the response sorted by
    timestamp and, for the 75-minute interval, aggregated. *)
Definition prepare (candles : list candle) (interval : string)
  : res (list candle) :=
  let! candles_sorted := sorted_by_timestamp candles in
  if String.eqb interval "75minute"
  then aggregate_candles candles_sorted interval
  else Ok candles_sorted.

(** The [if previous_day_candles:] block and the final [return]. *)
Definition levels_of_selection (selected : option (Z * list candle))
  : res levels :=
  match selected with
  | Some (_, (_ :: _) as previous_day_candles) =>
      levels_of_day previous_day_candles
  | _ => Ok no_levels
  end.

(** From the candles of a successful response to the returned
    dictionary, before the outer [except]. *)
Definition levels_of_response (parse : string -> option datetime)
    (candles : list candle) (interval : string) (today : Z) : res levels :=
  match candles with
  | [] => Ok no_levels
  | _ :: _ =>
      let! candles_sorted := prepare candles interval in
      let g := group_by_date parse candles_sorted in
      levels_of_selection (select_previous_day (candles_by_date g) today)
  end.

(** [get_previous_day_high_low] on the candles of the response: every
    exception ends in the all-null dictionary. *)
Definition get_previous_day_high_low (parse : string -> option datetime)
    (candles : list candle) (interval : string) (today : Z) : levels :=
  match levels_of_response parse candles interval today with
  | Ok r => r
  | Raise _ => no_levels
  end.

End PL3.

(** ** The arithmetic of [calculate_box_strategy_values] *)

Module Box.

(** The dictionary [{"o": .., "h": .., "l": .., "c": ..}] returned by the
    two candle fetchers. *)
Record ohlc : Type := {
  o : option Q;
  h : option Q;
  l : option Q;
  c : option Q
}.

Record box_values : Type := {
  fch : option Q;
  fcl : option Q;
  fcm : option Q;
  br_t : option Q;
  br_r : option Q;
  be_t : option Q;
  be_r : option Q;
  pl3h : option Q;
  pl3l : option Q;
  pl3m : option Q;
  pdh : option Q;
  pdl : option Q;
  pdo : option Q;
  pdc : option Q;
  bias : string
}.

(** [d.get(key)] on an optional dictionary that was tested for truth. *)
Definition get (d : option ohlc) (key : ohlc -> option Q) : option Q :=
  match d with
  | Some x => key x
  | None => None
  end.

(** The five values derived from the first candle, before rounding:
    [(fcm, br_t, br_r, be_t, be_r)]. *)
Definition first_candle_targets (fch fcl : option Q)
  : option Q * option Q * option Q * option Q * option Q :=
  if truthy fch && truthy fcl then
    let fch_float := float_of fch in
    let fcl_float := float_of fcl in
    let fcm := ((fch_float + fcl_float) / 2)%Q in
    let dist_a := (fch_float - fcl_float)%Q in
    let br_t := (fch_float + dist_a * 2)%Q in
    let fib_range_bull := (br_t - fcl_float)%Q in
    let br_r := (fcl_float + fib_range_bull * 0.75)%Q in
    let be_t := (fcl_float - dist_a * 2)%Q in
    let fib_range_bear := (fch_float - be_t)%Q in
    let be_r := (fch_float - fib_range_bear * 0.75)%Q in
    (Some fcm, Some br_t, Some br_r, Some be_t, Some be_r)
  else (None, None, None, None, None).

(** [round(float(x), 2)] when [x is not None]. *)
Definition rounded (x : option Q) : option Q := round2 <$> x.

(** [calculate_box_strategy_values] on the results of its three
    fetches: [first_candle] from [get_underlying_ohlc_from_candles],
    [pl3_data] from [get_previous_day_high_low], and [fetched_day_ohlc]
    from [get_previous_trading_day_ohlc], which is consulted only when
    the argument [previous_day_ohlc] is empty. *)
Definition calculate_box_strategy_values
    (first_candle : option ohlc) (pl3_data : PL3.levels)
    (fetched_day_ohlc : option ohlc)
    (current_ltp : option Q) (previous_day_ohlc : option ohlc) : box_values :=
  let fch0 := get first_candle h in
  let fcl0 := get first_candle l in
  let day :=
    match previous_day_ohlc with
    | Some _ => previous_day_ohlc
    | None => fetched_day_ohlc
    end in
  let '(fcm0, br_t0, br_r0, be_t0, be_r0) := first_candle_targets fch0 fcl0 in
  {| fch := rounded fch0;
     fcl := rounded fcl0;
     fcm := rounded fcm0;
     br_t := rounded br_t0;
     br_r := rounded br_r0;
     be_t := rounded be_t0;
     be_r := rounded be_r0;
     pl3h := rounded (PL3.pl3h pl3_data);
     pl3l := rounded (PL3.pl3l pl3_data);
     pl3m := rounded (PL3.pl3m pl3_data);
     pdh := rounded (get day h);
     pdl := rounded (get day l);
     pdo := rounded (get day o);
     pdc := rounded (get day c);
     bias := "Neutral" |}.

End Box.

(** * Vocabulary of the statements *)

(** A nullable number that is present and equal to zero. *)
Definition is_zero (v : option Q) : Prop :=
  exists q, v = Some q /\ (q == 0)%Q.


(** * Statements about the condition evaluator *)

Module M75Rules.

Import M75.
Local Open Scope Q_scope.

(** The rule of the PL3H and PL3L levels, for non-null inputs. *)
Definition pl3h_pl3l_rule (ltp pl3h pl3m pl3l : Q) (previous_ltp : option Q)
  : Prop :=
  let r := calculate_m75_conditions (Some ltp) (Some pl3h) (Some pl3m)
                                    (Some pl3l) previous_ltp in
  ((pl3h_condition r = Some "bullish" /\ pl3h_signal r = Some "B")
   <-> pl3h < ltp)
  /\ (~ pl3h < ltp ->
      pl3h_condition r = None /\ pl3h_signal r = None
      /\ (pl3h_alert r = true <-> Qabs (ltp - pl3h) / pl3h <= 0.005))
  /\ ((pl3l_condition r = Some "bearish" /\ pl3l_signal r = Some "BO-S")
      <-> ltp < pl3l)
  /\ (~ ltp < pl3l ->
      pl3l_condition r = None /\ pl3l_signal r = None
      /\ (pl3l_alert r = true <-> Qabs (ltp - pl3l) / pl3l <= 0.005)).

(** The rule of the PL3M level when a previous price [p] is passed. *)
Definition pl3m_rule_given (ltp pl3h pl3m pl3l p : Q) : Prop :=
  let r := calculate_m75_conditions (Some ltp) (Some pl3h) (Some pl3m)
                                    (Some pl3l) (Some p) in
  (pl3m < p /\ ltp <= pl3m ->
   pl3m_condition r = Some "bearish_break" /\ pl3m_signal r = Some "W")
  /\ (p < pl3m /\ pl3m <= ltp ->
      pl3m_condition r = Some "bullish_break" /\ pl3m_signal r = Some "W")
  /\ (p < pl3m /\ ltp < pl3m ->
      pl3m_condition r = Some "below" /\ pl3m_signal r = Some "W")
  /\ (pl3m < p /\ pl3m < ltp ->
      pl3m_condition r = Some "above" /\ pl3m_signal r = Some "W")
  /\ (pl3m_alert r = true <-> Qabs (ltp - pl3m) / pl3m <= 0.005).

(** The rule of the PL3M level from the current position alone. *)
Definition pl3m_rule_absent (ltp pl3h pl3m pl3l : Q) (previous_ltp : option Q)
  : Prop :=
  let r := calculate_m75_conditions (Some ltp) (Some pl3h) (Some pl3m)
                                    (Some pl3l) previous_ltp in
  (ltp < pl3m -> pl3m_condition r = Some "below")
  /\ (pl3m < ltp -> pl3m_condition r = Some "above")
  /\ (ltp == pl3m -> pl3m_condition r = None)
  /\ (pl3m_condition r <> None -> pl3m_signal r = Some "W")
  /\ (pl3m_alert r = true <-> Qabs (ltp - pl3m) / pl3m <= 0.005).

End M75Rules.

(** * Statements about the aggregation *)

Module Windows.

Import Candles.
Local Open Scope nat_scope.

(** The smallest number of windows of size [f] that cover [n] items. *)
Definition ceil_div (n f : nat) : nat := (n + f - 1) / f.

(** Following the spec: the input cut into consecutive positional
    windows of [f] items, the final window possibly shorter. *)
Definition windows {A} (f : nat) (l : list A) : list (list A) :=
  map (fun k => take f (drop (k * f) l)) (seq 0 (ceil_div (length l) f)).

(** The non-missing numbers found at index [i] of the candles. *)
Definition numbers (i : nat) (group : list candle) : list Q :=
  omap (fun c : candle =>
          match c !! i with
          | Some (VNum q) => Some q
          | _ => None
          end) group.

(** The largest number of a list, the first one among equals. *)
Definition highest (qs : list Q) : option Q :=
  match qs with
  | [] => None
  | q :: rest =>
      Some (fold_left (fun best x => if Qlt_b best x then x else best) rest q)
  end.

(** The smallest number of a list, the first one among equals. *)
Definition lowest (qs : list Q) : option Q :=
  match qs with
  | [] => None
  | q :: rest =>
      Some (fold_left (fun best x => if Qlt_b x best then x else best) rest q)
  end.

Definition total (qs : list Q) : Q := fold_left Qplus qs 0%Q.

Definition num_or_none (x : option Q) : value :=
  match x with
  | Some q => VNum q
  | None => VNone
  end.

(** Following the spec: the record emitted for one window.  Timestamp
    and open of the first candle, close and open interest of the last,
    the maximum of the non-missing highs, the minimum of the non-missing
    lows (missing if there is none), the sum of the non-missing
    volumes. *)
Definition window_record (w : list candle) : candle :=
  match head w, last w with
  | Some first_candle, Some last_candle =>
      [field_or_none first_candle 0;
       field_or_none first_candle 1;
       num_or_none (highest (numbers 2 w));
       num_or_none (lowest (numbers 3 w));
       field_or_none last_candle 4;
       VNum (total (numbers 5 w));
       field_or_none last_candle 6]
  | _, _ => []
  end.

Definition number_or_none (v : value) : bool :=
  match v with
  | VStr _ => false
  | _ => true
  end.

(** A candle of the data model: it has a timestamp, and its high, low
    and volume, when present, are numbers or null. *)
Definition well_formed (c : candle) : bool :=
  match c with
  | [] => false
  | _ :: _ =>
      forallb (fun i => match c !! i with
                        | Some v => number_or_none v
                        | None => true
                        end) [2; 3; 5]
  end.

(** The size the spec gives to the window of rank [k] among [count]:
    [f], except for the last one when [f] does not divide [n]. *)
Definition window_size (n f count k : nat) : nat :=
  if decide (S k = count) then (if n mod f =? 0 then f else n mod f) else f.




(** Seven one-minute candles; the third has no volume and the fifth is
    cut short after its low. *)
Definition sample_minutes : list candle :=
  [[VStr "2024-01-09T09:15:00+05:30"; VNum 100; VNum 102; VNum 99; VNum 101; VNum 10; VNum 0];
   [VStr "2024-01-09T09:16:00+05:30"; VNum 101; VNum 105; VNum 100; VNum 104; VNum 20; VNum 0];
   [VStr "2024-01-09T09:17:00+05:30"; VNum 104; VNum 104; VNum 98; VNum 99; VNone; VNum 0];
   [VStr "2024-01-09T09:18:00+05:30"; VNum 99; VNone; VNone; VNum 100; VNum 5; VNum 0];
   [VStr "2024-01-09T09:19:00+05:30"; VNum 100; VNum 103; VNum 100];
   [VStr "2024-01-09T09:20:00+05:30"; VNum 103; VNum 106; VNum 102; VNum 105; VNum 7; VNum 1];
   [VStr "2024-01-09T09:21:00+05:30"; VNum 105; VNum 105; VNum 101; VNum 102; VNum 8; VNum 2]].

End Windows.

(** * Statements about the PL3 levels *)

Module PL3Rules.

Import Candles Datetime PL3.


(** [s.endswith(c)] for a single character. *)
Fixpoint ends_with_char (c : ascii) (s : string) : bool :=
  match s with
  | EmptyString => false
  | String a EmptyString => Ascii.eqb a c
  | String _ rest => ends_with_char c rest
  end.

(** Following the spec: the timestamp precedence (a) to (d), where (b)
    asks for the offset [+05:30] itself and (c) for a final [Z]. *)
Definition parse_timestamp_by_spec (parse : string -> option datetime)
    (timestamp : value) : res datetime :=
  match timestamp with
  | VNum ts =>
      let! dt_utc := fromtimestamp_utc (ts / 1000)%Q in
      naive_plus dt_utc ist_offset
  | _ =>
      let ts_str := Str.str_of timestamp in
      if Str.contains "+05:30" ts_str then
        iso parse (Str.replace "+05:30" "" ts_str)
      else if ends_with_char "Z" ts_str || Str.contains "+00:00" ts_str then
        let! dt_utc := iso parse (Str.replace "Z" "+00:00" ts_str) in
        naive_plus dt_utc ist_offset
      else
        iso parse ts_str
  end.

(** Following the spec: the PL3 levels when the one-minute candles are
    grouped by trading day first and only the selected day is
    aggregated. *)
Definition levels_day_by_day (parse : string -> option datetime)
    (candles : list candle) (interval : string) (today : Z) : res levels :=
  let! candles_sorted := sorted_by_timestamp candles in
  let g := group_by_date parse candles_sorted in
  match select_previous_day (candles_by_date g) today with
  | Some (_, (_ :: _) as day_candles) =>
      let! aggregated := aggregate_candles day_candles interval in
      levels_of_day aggregated
  | _ => Ok no_levels
  end.

(** Candles that exercise each branch of the timestamp parsing: a UTC
    string, a string that does not parse, an epoch in milliseconds, a
    naive string, a null timestamp, an empty candle and an IST string. *)
Definition mixed_timestamps : list candle :=
  [[VStr "2024-01-08T20:00:00Z"];
   [VStr "garbage"];
   [VNum 1704771900000];
   [VStr "2024-01-08T23:00:00"];
   [VNone];
   [];
   [VStr "2024-01-09T09:15:00+05:30"]].

(** The last minute of 8 January 2024 and the first of 9 January. *)
Definition two_day_batch : list candle :=
  [[VStr "2024-01-08T15:29:00+05:30"; VNum 100; VNum 101; VNum 99; VNum 100; VNum 10; VNum 0];
   [VStr "2024-01-09T09:15:00+05:30"; VNum 500; VNum 999; VNum 1; VNum 500; VNum 10; VNum 0]].

(** One candle on each of 8, 9 and 10 January 2024. *)
Definition three_day_batch : list candle :=
  [[VStr "2024-01-08T09:15:00+05:30"; VNum 100; VNum 101; VNum 99; VNum 100; VNum 10; VNum 0];
   [VStr "2024-01-09T09:15:00+05:30"; VNum 200; VNum 202; VNum 198; VNum 200; VNum 10; VNum 0];
   [VStr "2024-01-10T09:15:00+05:30"; VNum 300; VNum 303; VNum 297; VNum 300; VNum 10; VNum 0]].

(** A single candle quoted with three decimals. *)
Definition three_decimal_batch : list candle :=
  [[VStr "2024-01-08T15:29:00+05:30"; VNum 100.3; VNum 100.5; VNum 100.248; VNum 100.4; VNum 10; VNum 0]].

End PL3Rules.

(** * Vocabulary of the further properties *)

Module SortKinds.

Import Candles.

(** The two families of sort keys that Python can order: numbers
    ([true]) and strings ([false]); a null key has no order at all. *)
Definition key_kind (v : value) : option bool :=
  match v with
  | VNum _ => Some true
  | VStr _ => Some false
  | VNone => None
  end.

(** The candle's sort key belongs to the family [k]. *)
Definition of_kind (k : bool) (c : candle) : Prop :=
  key_kind (sort_key c) = Some k.

#[global] Instance of_kind_dec (k : bool) (c : candle) : Decision (of_kind k c).
Proof. unfold of_kind. apply _. Defined.

End SortKinds.

Module GroupingRules.

Import Candles Datetime PL3.

(** The trading day the grouping loop files a candle under; [None] for
    an empty candle and for a timestamp that does not parse. *)
Definition date_of_candle (parse : string -> option datetime) (c : candle)
  : option Z :=
  match c with
  | [] => None
  | timestamp :: _ =>
      match parse_timestamp parse timestamp with
      | Ok dt => Some (date dt)
      | Raise _ => None
      end
  end.

(** The timestamp the [except] branch reports for a candle, if any. *)
Definition reported (parse : string -> option datetime) (c : candle)
  : option value :=
  match c with
  | [] => None
  | timestamp :: _ =>
      match parse_timestamp parse timestamp with
      | Ok _ => None
      | Raise _ => Some timestamp
      end
  end.

(** An empty candle next to a candle stamped with a string. *)
Definition batch_with_empty_candle : list candle :=
  [[];
   [VStr "2024-01-08T15:29:00+05:30"; VNum 100; VNum 101; VNum 99; VNum 100; VNum 10; VNum 0]].

End GroupingRules.

Module M75More.

(** A nullable price in another unit: every present value times [k]. *)
Definition scaled (k : Q) (v : option Q) : option Q := Qmult k <$> v.

End M75More.

Module CandleRules.

Import Candles.

(** A complete candle whose prices are numbers with
    low <= open <= high and low <= close <= high. *)
Definition consistent (c : candle) : Prop :=
  exists o h l cl,
    c !! 1%nat = Some (VNum o) /\ c !! 2%nat = Some (VNum h)
    /\ c !! 3%nat = Some (VNum l) /\ c !! 4%nat = Some (VNum cl)
    /\ (l <= o)%Q /\ (o <= h)%Q /\ (l <= cl)%Q /\ (cl <= h)%Q.

(** The timestamp of a candle, when it has one. *)
Definition timestamp_of (c : candle) : option value := c !! 0%nat.

End CandleRules.

(** * More of [app.py] *)

(** ** Strikes and proximity flags of [api_option_chain] *)

Module OptionChain.

Import Str.

(** [strike_interval] and [index_code], decided from
    [friendly.upper()], which is the argument. *)
Definition strike_settings (upper_name : string) : Z * string :=
  if contains "NIFTY" upper_name && negb (contains "BANK" upper_name)
  then (50, "NIFTY")
  else if contains "BANK" upper_name then (100, "BANKNIFTY")
  else if contains "FIN" upper_name then (50, "FINNIFTY")
  else (50, upper_name).

(** [x // s] on a float and an integer step, as an integer. *)
Definition floor_div (x : Q) (s : Z) : Z := Qfloor (x / inject_Z s).

(** [x % s]. *)
Definition remainder_of (x : Q) (s : Z) : Q :=
  (x - inject_Z (floor_div x s * s))%Q.

(** The ATM strike: the nearest multiple of [strike_interval], a
    remainder of at least half the interval rounding up. *)
Definition atm_strike (ltp : Q) (strike_interval : Z) : Z :=
  let remainder := remainder_of ltp strike_interval in
  if Qle_bool (inject_Z strike_interval / 2) remainder
  then (floor_div ltp strike_interval + 1) * strike_interval
  else floor_div ltp strike_interval * strike_interval.

(** [for i in range(-3, 4): strikes.append(atm_strike + i * strike_interval)]. *)
Definition strikes_around (atm strike_interval : Z) : list Z :=
  (fun i => atm + i * strike_interval) <$> [-3; -2; -1; 0; 1; 2; 3].

(** The strikes of the chain for a price and an upper-cased name. *)
Definition chain_strikes (ltp : Q) (upper_name : string) : list Z :=
  let strike_interval := fst (strike_settings upper_name) in
  strikes_around (atm_strike ltp strike_interval) strike_interval.

Definition proximity_pct : Q := 0.002%Q.

(** One proximity flag: [False] unless the price and the level pass
    the truth test, and then
    [abs((ltp - level) / level) * 100 < proximity_pct * 100]. *)
Definition is_near (ltp : Q) (level : option Q) : bool :=
  if truthy (Some ltp) && truthy level then
    let level_float := float_of level in
    Qlt_b (Qabs ((ltp - level_float) / level_float) * 100)
          (proximity_pct * 100)
  else false.

Record proximity : Type := {
  is_near_bull_zone : bool;
  is_near_bear_zone : bool;
  is_near_bull_target : bool;
  is_near_bear_target : bool
}.

(** [proximity_data] for the box values of the underlying. *)
Definition box_proximity (ltp : Q) (box_values : Box.box_values) : proximity :=
  {| is_near_bull_zone := is_near ltp (Box.br_r box_values);
     is_near_bear_zone := is_near ltp (Box.be_r box_values);
     is_near_bull_target := is_near ltp (Box.br_t box_values);
     is_near_bear_target := is_near ltp (Box.be_t box_values) |}.

End OptionChain.

(** ** First candle of the day and previous-day OHLC *)

Module DayCandles.

Import Candles Str Datetime.

(** The dictionary [{"o": .., "h": .., "l": .., "c": ..}] built from a
    candle; the empty dictionary is [None] in the results below. *)
Record day_ohlc : Type := {
  o : value;
  h : value;
  l : value;
  c : value
}.

(** [candle[i] if len(candle) > i else None] for i = 1, 2, 3, 4. *)
Definition ohlc_of (row : candle) : day_ohlc :=
  {| o := field_or_none row 1;
     h := field_or_none row 2;
     l := field_or_none row 3;
     c := field_or_none row 4 |}.

Section WithClock.

(** [datetime.fromisoformat]; [None] is its [ValueError]. *)
Variable parse : string -> option datetime.

(** [datetime.fromtimestamp(seconds)]: the wall time of the server's own
    time zone, or an exception out of range. *)
Variable fromtimestamp : Q -> res datetime.

(** The [try] block of the three first-candle and daily functions: the
    numeric branch reads the epoch in local time. *)
Definition parse_timestamp (timestamp : value) : res datetime :=
  match timestamp with
  | VNum ts => fromtimestamp (ts / 1000)%Q
  | _ =>
      let ts_str := str_of timestamp in
      if contains "+" ts_str && contains "05:30" ts_str then
        PL3.iso parse (replace "+05:30" "" ts_str)
      else if contains "Z" ts_str || contains "+00:00" ts_str then
        let! dt_utc := PL3.iso parse (replace "Z" "+00:00" ts_str) in
        naive_plus dt_utc ist_offset
      else
        PL3.iso parse ts_str
  end.

(** One iteration of the grouping loop; a candle that raises is
    skipped silently. *)
Definition group_step (by_date : gmap Z (list candle)) (row : candle)
  : gmap Z (list candle) :=
  match row with
  | [] => by_date
  | timestamp :: _ =>
      match parse_timestamp timestamp with
      | Ok dt =>
          let date_key := date dt in
          <[date_key := default [] (by_date !! date_key) ++ [row]]> by_date
      | Raise _ => by_date
      end
  end.

Definition group_by_date (candles_sorted : list candle)
  : gmap Z (list candle) :=
  foldl group_step ∅ candles_sorted.

(** The [for date_key in sorted_dates] loop of
    [get_previous_trading_day_ohlc]: the first candle of the first date
    before today whose list is not empty. *)
Fixpoint previous_day_candle (by_date : gmap Z (list candle)) (today : Z)
    (dates : list Z) : option candle :=
  match dates with
  | [] => None
  | date_key :: rest =>
      if date_key <? today then
        match PL3.candles_of by_date date_key with
        | first :: _ => Some first
        | [] => previous_day_candle by_date today rest
        end
      else previous_day_candle by_date today rest
  end.

(** The data part of [get_previous_trading_day_ohlc], before the outer
    [except]. *)
Definition previous_day_ohlc_of_response (candles : list candle) (today : Z)
  : res (option day_ohlc) :=
  match candles with
  | [] => Ok None
  | _ :: _ =>
      let! candles_sorted := sorted_by_timestamp candles in
      let by_date := group_by_date candles_sorted in
      match previous_day_candle by_date today (PL3.sorted_dates by_date) with
      | Some ((_ :: _) as row) =>
          if (5 <=? length row)%nat then Ok (Some (ohlc_of row))
          else Ok None
      | _ => Ok None
      end
  end.

(** [get_previous_trading_day_ohlc] on the candles of the response. *)
Definition get_previous_trading_day_ohlc (candles : list candle) (today : Z)
  : option day_ohlc :=
  match previous_day_ohlc_of_response candles today with
  | Ok r => r
  | Raise _ => None
  end.

(** [interval in ["5minute", "15minute", "30minute", "60minute"]]. *)
Definition needs_aggregation (interval : string) : bool :=
  String.eqb interval "5minute" || String.eqb interval "15minute"
  || String.eqb interval "30minute" || String.eqb interval "60minute".

(** The candles of the most recent date, sorted; the whole sorted batch
    when no timestamp could be grouped. *)
Definition day_candles_of (candles_sorted : list candle)
  : res (list candle) :=
  let by_date := group_by_date candles_sorted in
  match elements (dom by_date) with
  | [] => Ok candles_sorted
  | k :: ks =>
      let most_recent_date := foldl Z.max k ks in
      sorted_by_timestamp (PL3.candles_of by_date most_recent_date)
  end.

(** The data part shared by [get_underlying_ohlc_from_candles] and
    [get_option_ohlc_from_candles], before the outer [except]. *)
Definition first_candle_of_response (candles : list candle)
    (interval : string) : res (option day_ohlc) :=
  match candles with
  | [] => Ok None
  | _ :: _ =>
      let! candles_sorted := sorted_by_timestamp candles in
      let! day_candles := day_candles_of candles_sorted in
      if needs_aggregation interval then
        let! aggregated := aggregate_candles day_candles interval in
        match aggregated with
        | first_candle :: _ => Ok (Some (ohlc_of first_candle))
        | [] => Ok None
        end
      else
        match day_candles with
        | first_candle :: _ => Ok (Some (ohlc_of first_candle))
        | [] => Raise IndexError
        end
  end.

(** [get_underlying_ohlc_from_candles] and
    [get_option_ohlc_from_candles] on the candles of the response. *)
Definition get_ohlc_from_candles (candles : list candle) (interval : string)
  : option day_ohlc :=
  match first_candle_of_response candles interval with
  | Ok r => r
  | Raise _ => None
  end.

(** The trading day the loop files a candle under. *)
Definition date_of_candle (row : candle) : option Z :=
  match row with
  | [] => None
  | timestamp :: _ =>
      match parse_timestamp timestamp with
      | Ok dt => Some (date dt)
      | Raise _ => None
      end
  end.

End WithClock.

(** [datetime.fromtimestamp] of a server whose clock is on IST. *)
Definition fromtimestamp_ist (seconds : Q) : res datetime :=
  let! dt_utc := fromtimestamp_utc seconds in
  naive_plus dt_utc ist_offset.

End DayCandles.

(** ** Token handling *)

Module Token.

(** Truthiness of a JSON scalar: [None], zero and the empty string are
    false. *)
Definition is_truthy (v : value) : bool :=
  match v with
  | VNone => false
  | VNum q => negb (Qeq_bool q 0)
  | VStr s => negb (String.eqb s "")
  end.

(** [a or b]. *)
Definition py_or (a b : value) : value := if is_truthy a then a else b.

(** [d.get(k, fallback)]. *)
Definition get_or (d : gmap string value) (k : string) (fallback : value)
  : value :=
  default fallback (d !! k).

(** The file [access_token.json] ([None] when it does not exist) and the
    global variable [access_token]. *)
Record state : Type := {
  token_file : option (gmap string value);
  access_token : value
}.

(** [expires_in = d.get("expires_in", 86400)] and
    [d["expires_at"] = time.time() + expires_in - 60], as written in both
    [callback] and [get_valid_token]. *)
Definition with_expiry (new_data : gmap string value) (now : Q)
  : res (gmap string value) :=
  let expires_in := get_or new_data "expires_in" (VNum 86400) in
  let! later := num_add now expires_in in
  Ok (<["expires_at" := VNum (later - 60)]> new_data).

Section WithServer.

(** [requests.post(TOKEN_URL, data=payload)] for the refresh grant, by
    the refresh token sent: the JSON object of a response with status
    200, [None] for any other status or an exception. *)
Variable post_refresh : value -> option (gmap string value).

(** The [try] block of [get_valid_token]: the dictionary saved and the
    new token, [None] when the block ends without returning. *)
Definition refresh (data : gmap string value) (now : Q)
  : option (gmap string value * value) :=
  let refresh_token := get_or data "refresh_token" VNone in
  if is_truthy refresh_token then
    match post_refresh refresh_token with
    | Some new_data =>
        match new_data !! "access_token" with
        | Some token =>
            match with_expiry new_data now with
            | Ok stamped =>
                let to_save :=
                  if bool_decide (stamped !! "refresh_token" = None)
                     && is_truthy (get_or data "refresh_token" VNone)
                  then <["refresh_token" := refresh_token]> stamped
                  else stamped in
                Some (to_save, token)
            | Raise _ => None
            end
        | None => None
        end
    | None => None
    end
  else None.

(** [get_valid_token]: [current_time] and [refresh_time] are the two
    readings of [time.time()]. *)
Definition get_valid_token (s : state) (current_time refresh_time : Q)
  : res (state * value) :=
  match token_file s with
  | Some data =>
      match data !! "access_token" with
      | Some token =>
          let expires_at := get_or data "expires_at" (VNum 0) in
          let! valid :=
            if is_truthy expires_at
            then py_lt (VNum current_time) expires_at
            else Ok false in
          if valid then
            Ok ({| token_file := token_file s; access_token := token |},
                token)
          else
            match refresh data refresh_time with
            | Some (to_save, new_token) =>
                Ok ({| token_file := Some to_save;
                       access_token := new_token |}, new_token)
            | None =>
                Ok ({| token_file := token_file s; access_token := VNone |},
                    VNone)
            end
      | None => Ok (s, VNone)
      end
  | None => Ok (s, VNone)
  end.

End WithServer.

End Token.

(** ** The authorization callback *)

Module Callback.

Import Token.

(** [url.split('?')[0]]. *)
Fixpoint before_query (url : string) : string :=
  match url with
  | EmptyString => EmptyString
  | String ch rest =>
      if Ascii.eqb ch "?" then EmptyString else String ch (before_query rest)
  end.

(** [s.rstrip('/')]. *)
Fixpoint rstrip_slash (s : string) : string :=
  match s with
  | EmptyString => EmptyString
  | String ch rest =>
      match rstrip_slash rest with
      | EmptyString => if Ascii.eqb ch "/" then EmptyString else String ch EmptyString
      | stripped => String ch stripped
      end
  end.

(** [s.endswith('/')]. *)
Fixpoint ends_with_slash (s : string) : bool :=
  match s with
  | EmptyString => false
  | String ch EmptyString => Ascii.eqb ch "/"
  | String _ rest => ends_with_slash rest
  end.

(** [s[:-1]]. *)
Fixpoint without_last (s : string) : string :=
  match s with
  | EmptyString => EmptyString
  | String _ EmptyString => EmptyString
  | String ch rest => String ch (without_last rest)
  end.

Definition actual_redirect_uri (url : string) : string :=
  let actual := before_query url in
  if ends_with_slash actual then without_last actual else actual.

(** [[x for x in l if not (x in seen or seen.add(x))]]. *)
Fixpoint unseen (seen : gset string) (l : list string) : list string :=
  match l with
  | [] => []
  | x :: rest =>
      if decide (x ∈ seen) then unseen seen rest
      else x :: unseen ({[x]} ∪ seen) rest
  end.

Definition candidates (url REDIRECT_URI : string) : list string :=
  let actual := actual_redirect_uri url in
  [actual;
   rstrip_slash REDIRECT_URI;
   REDIRECT_URI;
   actual +:+ "/";
   rstrip_slash REDIRECT_URI +:+ "/"].

Definition redirect_uris_to_try (url REDIRECT_URI : string) : list string :=
  unseen ∅ (candidates url REDIRECT_URI).

Section WithServer.

(** [requests.post(TOKEN_URL, data=payload)] for the authorization
    code, by the redirect URI sent: the JSON object of a response with
    status 200, [None] for any other status. *)
Variable post_code : string -> option (gmap string value).

(** The [for redirect_uri_attempt in redirect_uris_to_try] loop: the
    dictionary saved and the token of the first response that carries
    one. *)
Fixpoint exchange (attempts : list string) (now : Q)
  : res (option (gmap string value * value)) :=
  match attempts with
  | [] => Ok None
  | redirect_uri_attempt :: rest =>
      match post_code redirect_uri_attempt with
      | Some data =>
          match data !! "access_token" with
          | Some token =>
              let! stamped := with_expiry data now in
              Ok (Some (stamped, token))
          | None => exchange rest now
          end
      | None => exchange rest now
      end
  end.

(** [callback]: the state afterwards and the HTTP status returned. *)
Definition callback (code : option string) (url REDIRECT_URI : string)
    (s : state) (now : Q) : res (state * Z) :=
  match code with
  | None | Some EmptyString => Ok (s, 400)
  | Some _ =>
      let! found := exchange (redirect_uris_to_try url REDIRECT_URI) now in
      match found with
      | Some (stamped, token) =>
          Ok ({| token_file := Some stamped; access_token := token |}, 200)
      | None => Ok (s, 400)
      end
  end.

End WithServer.

End Callback.

(** ** OHLC of a batch of options *)

Module OptionOhlc.

Import Token DayCandles Str.

(** One entry of the market-quote response, with the keys that are
    read; [ohlc] is empty when the key is absent or null. *)
Record quote : Type := {
  last_price : value;
  ltp : value;
  ohlc : gmap string value
}.

(** [q.get("last_price") or q.get("ltp")]. *)
Definition quote_price (q : quote) : value := py_or (last_price q) (ltp q).

(** The dictionaries [results] and [quotes_data]. *)
Record tables : Type := {
  results : gmap string (gmap string value);
  quotes_data : gmap string quote
}.

(** [any(ohlc_data.values())]. *)
Definition any_value (r : day_ohlc) : bool :=
  is_truthy (o r) || is_truthy (h r) || is_truthy (l r) || is_truthy (c r).

Definition ohlc_entries (r : day_ohlc) : gmap string value :=
  {[ "o" := o r; "h" := h r; "l" := l r; "c" := c r ]}.

(** The daily OHLC of a quote, the close falling back on the price
    already stored. *)
Definition quote_entries (q : quote) (entry : gmap string value)
  : gmap string value :=
  {[ "o" := get_or (ohlc q) "open" VNone;
     "h" := get_or (ohlc q) "high" VNone;
     "l" := get_or (ohlc q) "low" VNone;
     "c" := py_or (get_or (ohlc q) "close" VNone) (get_or entry "ltp" VNone) ]}.

Section WithResponses.

(** [response_data.get("data", {})] of the quotes request, empty when
    the status is not 200. *)
Variable data : gmap string quote.

(** [key_to_tradingsymbol], empty when it is [None]. *)
Variable key_to_tradingsymbol : gmap string string.

(** [get_option_ohlc_from_candles(key, interval, ...)] for each key,
    [None] for the empty dictionary. *)
Variable candles_ohlc : string -> option day_ohlc.

(** [if test_key in data] with the body that stores the price. *)
Definition take_quote (t : tables) (key test_key : string) : option tables :=
  match data !! test_key with
  | Some q =>
      let last_price := quote_price q in
      if is_truthy last_price then
        Some {| results := <[key := {[ "ltp" := last_price ]}]> (results t);
                quotes_data := <[key := q]> (quotes_data t) |}
      else None
  | None => None
  end.

(** One iteration of the first loop. *)
Definition quotes_step (t : tables) (key : string) : tables :=
  let by_symbol :=
    match key_to_tradingsymbol !! key with
    | Some tradingsymbol => take_quote t key ("NSE_FO:" +:+ tradingsymbol)
    | None => None
    end in
  match by_symbol with
  | Some t' => t'
  | None =>
      match take_quote t key key with
      | Some t' => t'
      | None =>
          match take_quote t key (replace "|" ":" key) with
          | Some t' => t'
          | None => t
          end
      end
  end.

(** One iteration of the second loop; [new ∪ entry] is
    [entry.update(new)]. *)
Definition candles_step (quotes : gmap string quote)
    (results : gmap string (gmap string value)) (key : string)
  : gmap string (gmap string value) :=
  let entry := default ∅ (results !! key) in
  let from_candles :=
    match candles_ohlc key with
    | Some r => if any_value r then Some (ohlc_entries r) else None
    | None => None
    end in
  match from_candles with
  | Some new => <[key := new ∪ entry]> results
  | None =>
      match quotes !! key with
      | Some q =>
          if decide (ohlc q = ∅) then <[key := entry]> results
          else <[key := quote_entries q entry ∪ entry]> results
      | None => <[key := entry]> results
      end
  end.

Definition get_option_ohlc_batch (instrument_keys : list string)
  : gmap string (gmap string value) :=
  match instrument_keys with
  | [] => ∅
  | _ :: _ =>
      let t := foldl quotes_step {| results := ∅; quotes_data := ∅ |}
                 instrument_keys in
      foldl (candles_step (quotes_data t)) (results t) instrument_keys
  end.

End WithResponses.

(** [get_option_ohlc]: the batch of one key, without symbol mapping. *)
Definition get_option_ohlc (data : gmap string quote)
    (candles_ohlc : string -> option day_ohlc) (instrument_key : string)
  : gmap string value :=
  default ∅ (get_option_ohlc_batch data ∅ candles_ohlc [instrument_key]
             !! instrument_key).

End OptionOhlc.

(** * Properties *)

(** ** Rationals *)

Lemma Qlt_b_true (x y : Q) : Qlt_b x y = true <-> (x < y)%Q.
Proof.
  unfold Qlt_b. rewrite negb_true_iff. split.
  - intros H. apply Qnot_le_lt. intros Hle.
    apply Qle_bool_iff in Hle. congruence.
  - intros H. destruct (Qle_bool y x) eqn:E; [|reflexivity].
    apply Qle_bool_iff in E. exfalso. exact (Qlt_not_le _ _ H E).
Qed.

Lemma Qlt_b_false (x y : Q) : Qlt_b x y = false <-> (y <= x)%Q.
Proof.
  unfold Qlt_b. rewrite negb_false_iff. apply Qle_bool_iff.
Qed.

Lemma truthy_Some (q : Q) : truthy (Some q) = true <-> ~ (q == 0)%Q.
Proof.
  simpl. rewrite negb_true_iff. split.
  - intros H E. apply Qeq_bool_iff in E. congruence.
  - intros H. destruct (Qeq_bool q 0) eqn:E; [|reflexivity].
    apply Qeq_bool_iff in E. contradiction.
Qed.

Lemma truthy_zero (q : Q) : (q == 0)%Q -> truthy (Some q) = false.
Proof.
  intros H. simpl. apply negb_false_iff. by apply Qeq_bool_iff.
Qed.

Lemma Qle_bool_false (x y : Q) : Qle_bool x y = false <-> (y < x)%Q.
Proof.
  split.
  - intros H. apply Qnot_le_lt. intros Hle.
    apply Qle_bool_iff in Hle. congruence.
  - intros H. destruct (Qle_bool x y) eqn:E; [|reflexivity].
    apply Qle_bool_iff in E. exfalso. exact (Qlt_not_le _ _ H E).
Qed.

(** Case analysis on every order test of the goal. *)
Ltac order_cases :=
  repeat match goal with
  | |- context [Qlt_b ?a ?b] =>
      let E := fresh "E" in
      destruct (Qlt_b a b) eqn:E;
      [apply Qlt_b_true in E | apply Qlt_b_false in E]
  | |- context [Qle_bool ?a ?b] =>
      let E := fresh "E" in
      destruct (Qle_bool a b) eqn:E;
      [apply Qle_bool_iff in E | apply Qle_bool_false in E]
  end.

Ltac by_order :=
  intros;
  repeat match goal with H : _ /\ _ |- _ => destruct H end;
  order_cases; cbn in *; first [done | exfalso; lra].

(** Closes a goal [~ q == 0] on a numeral. *)
Ltac nonzero := let H := fresh in intros H; vm_compute in H; discriminate H.

(** ** The condition evaluator *)

Section M75Facts.

Import M75 M75Rules.
Local Open Scope Q_scope.

Lemma m75_available (ltp pl3h pl3m pl3l : Q) (previous_ltp : option Q) :
  ~ ltp == 0 -> ~ pl3h == 0 -> ~ pl3m == 0 -> ~ pl3l == 0 ->
  calculate_m75_conditions (Some ltp) (Some pl3h) (Some pl3m) (Some pl3l)
                           previous_ltp
  = {| pl3h_condition := (pl3h_part ltp pl3h).1.1;
       pl3m_condition := (pl3m_part ltp pl3m previous_ltp).1;
       pl3l_condition := (pl3l_part ltp pl3l).1.1;
       pl3h_signal := (pl3h_part ltp pl3h).1.2;
       pl3m_signal := (pl3m_part ltp pl3m previous_ltp).2;
       pl3l_signal := (pl3l_part ltp pl3l).1.2;
       pl3h_alert := (pl3h_part ltp pl3h).2;
       pl3m_alert := Qle_bool (distance_to ltp pl3m) near_threshold;
       pl3l_alert := (pl3l_part ltp pl3l).2 |}.
Proof.
  intros H1 H2 H3 H4. unfold calculate_m75_conditions.
  rewrite (proj2 (truthy_Some ltp) H1), (proj2 (truthy_Some pl3h) H2),
    (proj2 (truthy_Some pl3m) H3), (proj2 (truthy_Some pl3l) H4).
  cbn [negb orb float_of].
  destruct (pl3h_part ltp pl3h) as [[? ?] ?].
  destruct (pl3l_part ltp pl3l) as [[? ?] ?].
  destruct (pl3m_part ltp pl3m previous_ltp) as [? ?].
  reflexivity.
Qed.

Lemma m75_unavailable (ltp pl3h pl3m pl3l previous_ltp : option Q) :
  truthy ltp = false \/ truthy pl3h = false
  \/ truthy pl3m = false \/ truthy pl3l = false ->
  calculate_m75_conditions ltp pl3h pl3m pl3l previous_ltp = no_conditions.
Proof.
  intros H. unfold calculate_m75_conditions.
  destruct H as [-> | [-> | [-> | ->]]]; cbn [negb orb];
    rewrite ?orb_true_r; reflexivity.
Qed.

Lemma near_iff (ltp level : Q) :
  Qle_bool (distance_to ltp level) near_threshold = true
  <-> Qabs (ltp - level) / level <= 0.005.
Proof. apply Qle_bool_iff. Qed.

Lemma pl3h_part_above (ltp pl3h : Q) :
  pl3h < ltp -> pl3h_part ltp pl3h = (Some "bullish", Some "B", false).
Proof.
  intros H. unfold pl3h_part. by rewrite (proj2 (Qlt_b_true _ _) H).
Qed.

Lemma pl3h_part_not_above (ltp pl3h : Q) :
  ~ pl3h < ltp ->
  pl3h_part ltp pl3h
  = (None, None, Qle_bool (distance_to ltp pl3h) near_threshold).
Proof.
  intros H. unfold pl3h_part.
  destruct (Qlt_b pl3h ltp) eqn:E; [|reflexivity].
  apply Qlt_b_true in E. contradiction.
Qed.

Lemma pl3l_part_below (ltp pl3l : Q) :
  ltp < pl3l -> pl3l_part ltp pl3l = (Some "bearish", Some "BO-S", false).
Proof.
  intros H. unfold pl3l_part. by rewrite (proj2 (Qlt_b_true _ _) H).
Qed.

Lemma pl3l_part_not_below (ltp pl3l : Q) :
  ~ ltp < pl3l ->
  pl3l_part ltp pl3l
  = (None, None, Qle_bool (distance_to ltp pl3l) near_threshold).
Proof.
  intros H. unfold pl3l_part.
  destruct (Qlt_b ltp pl3l) eqn:E; [|reflexivity].
  apply Qlt_b_true in E. contradiction.
Qed.

Lemma pl3h_pl3l_rule_holds (ltp pl3h pl3m pl3l : Q) (previous_ltp : option Q) :
  ~ ltp == 0 -> ~ pl3h == 0 -> ~ pl3m == 0 -> ~ pl3l == 0 ->
  pl3h_pl3l_rule ltp pl3h pl3m pl3l previous_ltp.
Proof.
  intros H1 H2 H3 H4. unfold pl3h_pl3l_rule.
  rewrite (m75_available _ _ _ _ _ H1 H2 H3 H4). cbn [pl3h_condition
    pl3h_signal pl3h_alert pl3l_condition pl3l_signal pl3l_alert].
  repeat split.
  - intros [Hc _]. destruct (Qlt_le_dec pl3h ltp) as [|Hle]; [assumption|].
    rewrite pl3h_part_not_above in Hc by (by apply Qle_not_lt). discriminate.
  - by rewrite pl3h_part_above.
  - by rewrite pl3h_part_above.
  - by rewrite pl3h_part_not_above.
  - by rewrite pl3h_part_not_above.
  - rewrite pl3h_part_not_above by assumption. apply near_iff.
  - rewrite pl3h_part_not_above by assumption. apply near_iff.
  - intros [Hc _]. destruct (Qlt_le_dec ltp pl3l) as [|Hle]; [assumption|].
    rewrite pl3l_part_not_below in Hc by (by apply Qle_not_lt). discriminate.
  - by rewrite pl3l_part_below.
  - by rewrite pl3l_part_below.
  - by rewrite pl3l_part_not_below.
  - by rewrite pl3l_part_not_below.
  - rewrite pl3l_part_not_below by assumption. apply near_iff.
  - rewrite pl3l_part_not_below by assumption. apply near_iff.
Qed.


Lemma pl3m_rule_given_holds (ltp pl3h pl3m pl3l p : Q) :
  ~ ltp == 0 -> ~ pl3h == 0 -> ~ pl3m == 0 -> ~ pl3l == 0 -> ~ p == 0 ->
  pl3m_rule_given ltp pl3h pl3m pl3l p.
Proof.
  intros H1 H2 H3 H4 Hp. unfold pl3m_rule_given.
  rewrite (m75_available _ _ _ _ _ H1 H2 H3 H4).
  cbn [pl3m_condition pl3m_signal pl3m_alert].
  unfold pl3m_part. rewrite (proj2 (truthy_Some p) Hp). cbn [float_of].
  repeat split; try (by apply near_iff); by_order.
Qed.

Lemma pl3m_rule_absent_holds (ltp pl3h pl3m pl3l : Q) (previous_ltp : option Q) :
  ~ ltp == 0 -> ~ pl3h == 0 -> ~ pl3m == 0 -> ~ pl3l == 0 ->
  truthy previous_ltp = false ->
  pl3m_rule_absent ltp pl3h pl3m pl3l previous_ltp.
Proof.
  intros H1 H2 H3 H4 Hp. unfold pl3m_rule_absent.
  rewrite (m75_available _ _ _ _ _ H1 H2 H3 H4).
  cbn [pl3m_condition pl3m_signal pl3m_alert].
  unfold pl3m_part. rewrite Hp.
  repeat split; try (by apply near_iff); by_order.
Qed.


(** C5 (amended).  For non-null and non-zero [ltp], [pl3h], [pl3m],
    [pl3l]: with a non-zero previous price the PL3M condition is
    [bearish_break] on a downward crossing, [bullish_break] on an upward
    crossing, [below] or [above] when both prices stay on one side, with
    signal [W] in the four cases; with no previous price, or a previous
    price equal to zero, the condition is [below] or [above] from the
    current position alone, null on equality, and the signal is [W]
    whenever a condition is computed; the alert is true exactly when
    |ltp - pl3m| / pl3m <= 0.005. *)
Theorem pl3m_conditions (ltp pl3h pl3m pl3l : Q) :
  ~ ltp == 0 -> ~ pl3h == 0 -> ~ pl3m == 0 -> ~ pl3l == 0 ->
  (forall p, ~ p == 0 -> pl3m_rule_given ltp pl3h pl3m pl3l p)
  /\ pl3m_rule_absent ltp pl3h pl3m pl3l None
  /\ (forall p, p == 0 -> pl3m_rule_absent ltp pl3h pl3m pl3l (Some p)).
Proof.
  intros H1 H2 H3 H4. split; [|split].
  - intros p Hp. by apply pl3m_rule_given_holds.
  - by apply pl3m_rule_absent_holds.
  - intros p Hp. apply pl3m_rule_absent_holds; try assumption.
    by apply truthy_zero.
Qed.

Lemma pl3m_conditions_witness :
  (~ 96 == 0 /\ ~ 100 == 0 /\ ~ 95 == 0 /\ ~ 90 == 0)
  /\ pl3m_rule_given 96 100 95 90 94
  /\ pl3m_rule_absent 96 100 95 90 None.
Proof.
  split; [repeat split; nonzero|].
  destruct (pl3m_conditions 96 100 95 90) as (Hg & Ha & _); try nonzero.
  split; [apply Hg; nonzero | exact Ha].
Defined.

(** C5 as stated fails at a price of zero, which is non-null: the
    evaluator answers as for a missing input; and a previous price of
    zero is not used as a previous price. *)
Lemma pl3m_conditions_fail_at_zero :
  ~ pl3m_rule_absent 0 100 95 90 None
  /\ ~ pl3m_rule_given 15 20 10 5 0.
Proof.
  split.
  - intros (Hb & _). discriminate Hb. reflexivity.
  - intros (_ & Hb & _). assert (H : 0 < 10 /\ 10 <= 15) by (split; lra).
    apply Hb in H. destruct H as [H _]. vm_compute in H. discriminate H.
Qed.

(** C6 (amended).  For non-null and non-zero [ltp], [pl3h], [pl3m],
    [pl3l]: the PL3H condition is [bullish] with signal [B] exactly when
    ltp > pl3h, and otherwise both stay null and the alert is true
    exactly when |ltp - pl3h| / pl3h <= 0.005; symmetrically [bearish]
    with [BO-S] exactly when ltp < pl3l, and otherwise the alert exactly
    when |ltp - pl3l| / pl3l <= 0.005.  In particular ltp = 100.4 with
    pl3h = 100 is above the level and gives [bullish], [B] and no alert;
    ltp = 99.6 gives the alert with a null condition; ltp = 101 gives
    [bullish] and [B]. *)
Theorem pl3h_pl3l_conditions (ltp pl3h pl3m pl3l : Q) (previous_ltp : option Q) :
  ~ ltp == 0 -> ~ pl3h == 0 -> ~ pl3m == 0 -> ~ pl3l == 0 ->
  pl3h_pl3l_rule ltp pl3h pl3m pl3l previous_ltp
  /\ let r := calculate_m75_conditions (Some ltp) (Some pl3h) (Some pl3m)
                                       (Some pl3l) previous_ltp in
     (ltp == 100.4 -> pl3h == 100 ->
      pl3h_condition r = Some "bullish" /\ pl3h_signal r = Some "B"
      /\ pl3h_alert r = false)
     /\ (ltp == 99.6 -> pl3h == 100 ->
         pl3h_condition r = None /\ pl3h_signal r = None
         /\ pl3h_alert r = true)
     /\ (ltp == 101 -> pl3h == 100 ->
         pl3h_condition r = Some "bullish" /\ pl3h_signal r = Some "B").
Proof.
  intros H1 H2 H3 H4. split; [by apply pl3h_pl3l_rule_holds|].
  rewrite (m75_available _ _ _ _ _ H1 H2 H3 H4).
  cbn [pl3h_condition pl3h_signal pl3h_alert].
  split; [|split]; intros Hl Hh.
  - rewrite pl3h_part_above; [done | lra].
  - rewrite pl3h_part_not_above by lra. cbn [fst snd].
    repeat split. apply near_iff. rewrite Hl, Hh. by vm_compute.
  - rewrite pl3h_part_above; [done | lra].
Qed.

Lemma pl3h_pl3l_conditions_witness :
  (~ 101 == 0 /\ ~ 100 == 0 /\ ~ 95 == 0 /\ ~ 90 == 0)
  /\ pl3h_pl3l_rule 101 100 95 90 None.
Proof.
  split; [repeat split; nonzero|].
  apply (pl3h_pl3l_conditions 101 100 95 90 None); nonzero.
Defined.

(** C6 as stated fails on its own boundary example: ltp = 100.4 is
    above pl3h = 100, so the condition is [bullish] and no alert is
    raised.  It also fails at a price of zero, which is non-null. *)
Lemma pl3h_boundary_example_fails :
  (let r := calculate_m75_conditions (Some 100.4) (Some 100) (Some 95)
                                     (Some 90) None in
   ~ (pl3h_alert r = true /\ pl3h_condition r = None))
  /\ ~ pl3h_pl3l_rule 0 100 95 90 None.
Proof.
  split.
  - cbv zeta. intros [H _]. vm_compute in H. discriminate H.
  - intros (_ & _ & [_ Hb] & _).
    assert (H : 0 < 90) by lra. apply Hb in H. destruct H as [H _].
    vm_compute in H. discriminate H.
Qed.

(** C9.  When any of [ltp], [pl3h], [pl3m], [pl3l] is null, the six
    condition and signal fields are null and the three alerts are false;
    the evaluator is a total function, so nothing is raised. *)
Theorem m75_null_input (ltp pl3h pl3m pl3l previous_ltp : option Q) :
  ltp = None \/ pl3h = None \/ pl3m = None \/ pl3l = None ->
  calculate_m75_conditions ltp pl3h pl3m pl3l previous_ltp
  = {| pl3h_condition := None; pl3m_condition := None; pl3l_condition := None;
       pl3h_signal := None; pl3m_signal := None; pl3l_signal := None;
       pl3h_alert := false; pl3m_alert := false; pl3l_alert := false |}.
Proof.
  intros H. apply m75_unavailable.
  destruct H as [-> | [-> | [-> | ->]]]; auto.
Qed.

Lemma m75_null_input_witness :
  calculate_m75_conditions (Some 101) (Some 100) None (Some 90) (Some 99)
  = {| pl3h_condition := None; pl3m_condition := None; pl3l_condition := None;
       pl3h_signal := None; pl3m_signal := None; pl3l_signal := None;
       pl3h_alert := false; pl3m_alert := false; pl3l_alert := false |}.
Proof.
  apply (m75_null_input (Some 101) (Some 100) None (Some 90) (Some 99)).
  right; right; left; reflexivity.
Defined.

End M75Facts.

(** ** Rounding *)

Lemma round_half_even_comp (x y : Q) :
  (x == y)%Q -> round_half_even x = round_half_even y.
Proof.
  intros H. unfold round_half_even.
  rewrite (Qfloor_comp _ _ H).
  assert (E : (x - inject_Z (Qfloor y) == y - inject_Z (Qfloor y))%Q)
    by (by rewrite H).
  by rewrite (Qcompare_comp _ _ E _ _ (Qeq_refl (1 # 2))).
Qed.


(** ** The box strategy *)

Section BoxFacts.

Import Box.
Local Open Scope Q_scope.


Lemma targets_unavailable (fch fcl : option Q) :
  truthy fch = false \/ truthy fcl = false ->
  first_candle_targets fch fcl = (None, None, None, None, None).
Proof.
  intros H. unfold first_candle_targets.
  destruct H as [-> | ->]; rewrite ?andb_false_r; reflexivity.
Qed.

Lemma box_unavailable (first_candle : option ohlc) (pl3_data : PL3.levels)
    (fetched_day_ohlc : option ohlc) (current_ltp : option Q)
    (previous_day_ohlc : option ohlc) :
  truthy (get first_candle h) = false \/ truthy (get first_candle l) = false ->
  let r := calculate_box_strategy_values first_candle pl3_data
             fetched_day_ohlc current_ltp previous_day_ohlc in
  fcm r = None /\ br_t r = None /\ br_r r = None
  /\ be_t r = None /\ be_r r = None.
Proof.
  intros H. cbv zeta. unfold calculate_box_strategy_values.
  by rewrite (targets_unavailable _ _ H).
Qed.



(** C10.  A level or a price that is present and equal to zero fails the
    availability test like a null one: the evaluator returns the
    all-null, all-false result it returns for null input, and the box
    calculator leaves fcm, br_t, br_r, be_t and be_r null when the first
    candle's high or low is zero. *)
Theorem zero_is_unavailable
    (ltp pl3h pl3m pl3l previous_ltp : option Q)
    (first_candle : option ohlc) (pl3_data : PL3.levels)
    (fetched_day_ohlc : option ohlc) (current_ltp : option Q)
    (previous_day_ohlc : option ohlc) :
  (is_zero ltp \/ is_zero pl3h \/ is_zero pl3m \/ is_zero pl3l ->
   M75.calculate_m75_conditions ltp pl3h pl3m pl3l previous_ltp
   = M75.calculate_m75_conditions None None None None previous_ltp
   /\ M75.calculate_m75_conditions ltp pl3h pl3m pl3l previous_ltp
      = {| M75.pl3h_condition := None; M75.pl3m_condition := None;
           M75.pl3l_condition := None; M75.pl3h_signal := None;
           M75.pl3m_signal := None; M75.pl3l_signal := None;
           M75.pl3h_alert := false; M75.pl3m_alert := false;
           M75.pl3l_alert := false |})
  /\ (is_zero (get first_candle h) \/ is_zero (get first_candle l) ->
      let r := calculate_box_strategy_values first_candle pl3_data
                 fetched_day_ohlc current_ltp previous_day_ohlc in
      fcm r = None /\ br_t r = None /\ br_r r = None
      /\ be_t r = None /\ be_r r = None).
Proof.
  assert (Hz : forall v, is_zero v -> truthy v = false).
  { intros v (q & -> & Hq). by apply truthy_zero. }
  split.
  - intros H.
    assert (E : M75.calculate_m75_conditions ltp pl3h pl3m pl3l previous_ltp
                = M75.no_conditions).
    { apply m75_unavailable.
      destruct H as [H | [H | [H | H]]]; apply Hz in H; auto. }
    by rewrite E.
  - intros H. apply box_unavailable.
    destruct H as [H | H]; apply Hz in H; auto.
Qed.

Lemma zero_is_unavailable_witness :
  M75.calculate_m75_conditions (Some 101) (Some 0) (Some 95) (Some 90) None
  = M75.no_conditions
  /\ fcm (calculate_box_strategy_values
            (Some {| o := None; h := Some 110; l := Some 0; c := None |})
            PL3.no_levels None None None) = None.
Proof.
  destruct (zero_is_unavailable (Some 101) (Some 0) (Some 95) (Some 90) None
              (Some {| o := None; h := Some 110; l := Some 0; c := None |})
              PL3.no_levels None None None) as [Hm Hb].
  split.
  - apply Hm. right; left. exists 0. split; reflexivity.
  - apply Hb. right. exists 0. split; reflexivity.
Defined.

End BoxFacts.

(** ** Windows of a list *)

Section WindowFacts.

Import Windows.
Local Open Scope nat_scope.

Context {A : Type}.
Implicit Types l : list A.

Lemma ceil_div_0 f : 0 < f -> ceil_div 0 f = 0.
Proof. intros Hf. unfold ceil_div. apply Nat.div_small. lia. Qed.

Lemma ceil_div_step n f :
  0 < f -> 0 < n -> ceil_div n f = S (ceil_div (n - f) f).
Proof.
  intros Hf Hn. unfold ceil_div.
  destruct (le_lt_dec f n) as [Hle | Hlt].
  - replace (n + f - 1) with ((n - f + f - 1) + 1 * f) by lia.
    rewrite Nat.div_add by lia. lia.
  - replace (n - f) with 0 by lia.
    rewrite (Nat.div_small (0 + f - 1)) by lia.
    replace (n + f - 1) with ((n - 1) + 1 * f) by lia.
    rewrite Nat.div_add by lia. rewrite Nat.div_small by lia. lia.
Qed.

Lemma windows_nil f : 0 < f -> windows f (@nil A) = [].
Proof. intros Hf. unfold windows. simpl. by rewrite ceil_div_0. Qed.

Lemma windows_cons f l :
  0 < f -> l <> [] -> windows f l = take f l :: windows f (drop f l).
Proof.
  intros Hf Hl. unfold windows.
  assert (Hn : 0 < length l) by (destruct l; [done | simpl; lia]).
  rewrite (ceil_div_step _ _ Hf Hn). rewrite length_drop.
  cbn [seq map]. rewrite Nat.mul_0_l, drop_0. f_equal.
  rewrite <- seq_shift, map_map. apply map_ext. intros k.
  rewrite drop_drop. reflexivity.
Qed.


Lemma windows_length f l : length (windows f l) = ceil_div (length l) f.
Proof. unfold windows. by rewrite length_map, length_seq. Qed.

Lemma ceil_div_bounds n f :
  0 < f -> 0 < n -> (ceil_div n f - 1) * f < n <= ceil_div n f * f.
Proof.
  intros Hf Hn. unfold ceil_div.
  pose proof (Nat.div_mod_eq (n + f - 1) f) as E.
  pose proof (Nat.mod_upper_bound (n + f - 1) f ltac:(lia)) as Hm.
  nia.
Qed.

Lemma windows_sizes f l k w :
  0 < f -> windows f l !! k = Some w ->
  length w = window_size (length l) f (length (windows f l)) k.
Proof.
  intros Hf Hk. rewrite windows_length. unfold windows in Hk.
  rewrite list_lookup_fmap in Hk.
  destruct (seq 0 (ceil_div (length l) f) !! k) as [j|] eqn:Ej; [|done].
  apply lookup_seq in Ej as [-> Hlt]. simpl in Hk. injection Hk as <-.
  rewrite length_take, length_drop. unfold window_size.
  assert (Hn : 0 < length l).
  { destruct (length l); [rewrite ceil_div_0 in Hlt; lia | lia]. }
  pose proof (ceil_div_bounds _ _ Hf Hn) as [Hlo Hhi].
  pose proof (Nat.div_mod_eq (length l) f) as E.
  pose proof (Nat.mod_upper_bound (length l) f ltac:(lia)) as Hm.
  set (n := length l) in *. set (c := ceil_div n f) in *.
  set (q := n / f) in *. set (r := n mod f) in *.
  assert (Hq1 : q <= c) by nia.
  assert (Hq2 : c - 1 <= q) by nia.
  case_decide as Hlast.
  - simpl. replace k with (c - 1) by lia.
    destruct (r =? 0) eqn:Ez.
    + apply Nat.eqb_eq in Ez.
      assert (q = c) by nia. subst q. nia.
    + apply Nat.eqb_neq in Ez.
      assert (q = c - 1) by nia. nia.
  - simpl in *.
    assert (S k * f <= (c - 1) * f) by (apply Nat.mul_le_mono_r; lia).
    nia.
Qed.

End WindowFacts.

(** ** [aggregate_candles] *)

Section AggregateFacts.

Import Candles Windows.

Lemma max_from_numbers (best : Q) (qs : list Q) :
  max_from (VNum best) (VNum <$> qs)
  = Ok (VNum (fold_left (fun b x => if Qlt_b b x then x else b) qs best)).
Proof.
  revert best. induction qs as [|q qs IH]; intros best; [reflexivity|].
  cbn [fmap list_fmap max_from py_gt py_lt bind fold_left].
  destruct (Qlt_b best q); apply IH.
Qed.

Lemma min_from_numbers (best : Q) (qs : list Q) :
  min_from (VNum best) (VNum <$> qs)
  = Ok (VNum (fold_left (fun b x => if Qlt_b x b then x else b) qs best)).
Proof.
  revert best. induction qs as [|q qs IH]; intros best; [reflexivity|].
  cbn [fmap list_fmap min_from py_lt bind fold_left].
  destruct (Qlt_b q best); apply IH.
Qed.

Lemma sum_from_numbers (acc : Q) (qs : list Q) :
  sum_from acc (VNum <$> qs) = Ok (fold_left Qplus qs acc).
Proof.
  revert acc. induction qs as [|q qs IH]; intros acc; [reflexivity|].
  cbn [fmap list_fmap sum_from num_add bind fold_left]. apply IH.
Qed.

Lemma py_max_default_numbers (qs : list Q) :
  py_max_default (VNum <$> qs) = Ok (num_or_none (highest qs)).
Proof. destruct qs as [|q qs]; [reflexivity|]. apply max_from_numbers. Qed.

Lemma py_min_default_numbers (qs : list Q) :
  py_min_default (VNum <$> qs) = Ok (num_or_none (lowest qs)).
Proof. destruct qs as [|q qs]; [reflexivity|]. apply min_from_numbers. Qed.

Lemma well_formed_field (c : candle) (i : nat) (v : value) :
  well_formed c = true -> i ∈ [2; 3; 5]%nat -> c !! i = Some v ->
  number_or_none v = true.
Proof.
  intros Hc Hi Hv. destruct c as [|t c']; [discriminate|].
  unfold well_formed in Hc. rewrite forallb_forall in Hc.
  specialize (Hc i). rewrite Hv in Hc. apply Hc.
  by apply list_elem_of_In.
Qed.

Lemma present_numbers (i : nat) (group : list candle) :
  Forall (fun c => well_formed c = true) group -> i ∈ [2; 3; 5]%nat ->
  present i group = VNum <$> numbers i group.
Proof.
  intros Hg Hi. induction Hg as [|c group Hc _ IH]; [reflexivity|].
  unfold present, numbers in *. cbn [omap list_omap].
  destruct (c !! i) as [v|] eqn:Ev; [|exact IH].
  pose proof (well_formed_field _ _ _ Hc Hi Ev) as Hv.
  destruct v; [exact IH | | discriminate].
  cbn [is_none fmap list_fmap]. by rewrite IH.
Qed.

Lemma merge_group_window (group : list candle) :
  group <> [] -> Forall (fun c => well_formed c = true) group ->
  merge_group group = Ok (window_record group).
Proof.
  intros Hne Hg. unfold merge_group, window_record.
  destruct (head group) as [first_candle|] eqn:Eh;
    [|by destruct group].
  destruct (last group) as [last_candle|] eqn:El;
    [|by apply last_None in El].
  assert (Hf : well_formed first_candle = true).
  { destruct group; [done|]. injection Eh as <-. by inversion Hg. }
  destruct first_candle as [|t rest]; [discriminate|].
  cbn [lookup list_lookup bind].
  rewrite !present_numbers by (done || set_solver).
  rewrite py_max_default_numbers, py_min_default_numbers.
  cbn [bind]. unfold py_sum. rewrite sum_from_numbers. reflexivity.
Qed.

Lemma aggregate_loop_windows (candles : list candle) (factor : positive)
    (i : nat) (aggregated : list candle) :
  Forall (fun c => well_formed c = true) candles ->
  aggregate_loop candles factor i aggregated
  = Ok (aggregated
        ++ (window_record <$> windows (Pos.to_nat factor) (drop i candles))).
Proof.
  intros Hwf. funelim (aggregate_loop candles factor i aggregated);
    pose proof (Pos2Nat.is_pos factor) as Hf.
  - rewrite drop_ge by lia. rewrite windows_nil by lia.
    by rewrite app_nil_r.
  - match goal with E : take _ _ = [] |- _ =>
      apply (f_equal length) in E;
      rewrite length_take, length_drop in E; simpl in E; lia
    end.
  - lazymatch goal with
    | E : take _ _ = ?g, M : merge_group ?g = Ok _, IH : _ -> _ = _ |- _ =>
        rewrite (IH Hwf); rewrite (windows_cons _ (drop i candles)) by
          (try lia; intros D; rewrite D, take_nil in E; discriminate E);
        rewrite E, drop_drop; rewrite merge_group_window in M by
          (try done; rewrite <- E; by apply Forall_take, Forall_drop);
        injection M as <-
    end.
    rewrite fmap_cons. by rewrite <- app_assoc.
  - lazymatch goal with
    | E : take _ _ = ?g, M : merge_group ?g = Raise _ |- _ =>
        rewrite merge_group_window in M by
          (try done; rewrite <- E; by apply Forall_take, Forall_drop);
        discriminate M
    end.
Qed.



Lemma highest_spec (qs : list Q) (m : Q) :
  highest qs = Some m -> In m qs /\ Forall (fun x => (x <= m)%Q) qs.
Proof.
  destruct qs as [|q qs]; [discriminate|]. cbn [highest]. intros [= <-].
  assert (G : forall l b,
             let r := fold_left (fun b x => if Qlt_b b x then x else b) l b in
             (r = b \/ In r l) /\ (b <= r)%Q /\ Forall (fun x => (x <= r)%Q) l).
  { induction l as [|x l IH]; intros b; cbn [fold_left].
    - split; [by left|]. split; [apply Qle_refl | constructor].
    - destruct (IH (if Qlt_b b x then x else b)) as (Hin & Hle & Hall).
      destruct (Qlt_b b x) eqn:E.
      + apply Qlt_b_true in E. split; [|split].
        * right. destruct Hin as [-> | Hin]; [by left | by right].
        * eapply Qle_trans; [apply Qlt_le_weak, E | exact Hle].
        * by constructor.
      + apply Qlt_b_false in E. split; [|split].
        * destruct Hin as [-> | Hin]; [by left | right; by right].
        * exact Hle.
        * constructor; [eapply Qle_trans; eassumption | exact Hall]. }
  destruct (G qs q) as (Hin & Hle & Hall). split.
  - destruct Hin as [-> | Hin]; [by left | by right].
  - by constructor.
Qed.

Lemma lowest_spec (qs : list Q) (m : Q) :
  lowest qs = Some m -> In m qs /\ Forall (fun x => (m <= x)%Q) qs.
Proof.
  destruct qs as [|q qs]; [discriminate|]. cbn [lowest]. intros [= <-].
  assert (G : forall l b,
             let r := fold_left (fun b x => if Qlt_b x b then x else b) l b in
             (r = b \/ In r l) /\ (r <= b)%Q /\ Forall (fun x => (r <= x)%Q) l).
  { induction l as [|x l IH]; intros b; cbn [fold_left].
    - split; [by left|]. split; [apply Qle_refl | constructor].
    - destruct (IH (if Qlt_b x b then x else b)) as (Hin & Hle & Hall).
      destruct (Qlt_b x b) eqn:E.
      + apply Qlt_b_true in E. split; [|split].
        * right. destruct Hin as [-> | Hin]; [by left | by right].
        * eapply Qle_trans; [exact Hle | apply Qlt_le_weak, E].
        * by constructor.
      + apply Qlt_b_false in E. split; [|split].
        * destruct Hin as [-> | Hin]; [by left | right; by right].
        * exact Hle.
        * constructor; [eapply Qle_trans; eassumption | exact Hall]. }
  destruct (G qs q) as (Hin & Hle & Hall). split.
  - destruct Hin as [-> | Hin]; [by left | by right].
  - by constructor.
Qed.


Lemma windows_nonempty {A} (f : nat) (l : list A) (w : list A) :
  (0 < f)%nat -> w ∈ windows f l -> w <> [].
Proof.
  intros Hf Hw. apply list_elem_of_lookup in Hw as [k Hk].
  pose proof (windows_sizes f l k w Hf Hk) as Hs.
  pose proof (lookup_lt_Some _ _ _ Hk) as Hlt.
  rewrite windows_length in Hs, Hlt.
  intros ->. simpl in Hs. unfold window_size in Hs.
  pose proof (Nat.mod_upper_bound (length l) f ltac:(lia)).
  case_decide; [|lia].
  destruct (length l mod f =? 0)%nat eqn:Ez; [lia|].
  apply Nat.eqb_neq in Ez. lia.
Qed.



(** The no-op granularity: [aggregate_candles candles "1minute"] is
    [candles], whatever the candles are. *)
Lemma aggregate_one_minute (candles : list candle) :
  aggregate_candles candles "1minute" = Ok candles.
Proof. by destruct candles. Qed.

End AggregateFacts.

(** ** Previous-day selection *)

Section SelectionFacts.

Import Candles Datetime PL3 PL3Rules.

Implicit Types by_date : gmap Z (list candle).

Lemma sorted_dates_elem by_date (d : Z) :
  d ∈ sorted_dates by_date <-> is_Some (by_date !! d).
Proof.
  unfold sorted_dates. rewrite merge_sort_Permutation.
  rewrite elem_of_elements. apply elem_of_dom.
Qed.

Lemma sorted_dates_NoDup by_date : NoDup (sorted_dates by_date).
Proof.
  unfold sorted_dates. rewrite merge_sort_Permutation. apply NoDup_elements.
Qed.

Lemma sorted_dates_descending by_date :
  StronglySorted Z.ge (sorted_dates by_date).
Proof.
  apply StronglySorted_merge_sort.
  - intros x y z. lia.
  - intros x y. lia.
Qed.

Lemma first_before_Some (today : Z) (dates : list Z) (p : Z) :
  StronglySorted Z.ge dates -> first_before today dates = Some p ->
  p ∈ dates /\ p < today /\ forall d, d ∈ dates -> d < today -> d <= p.
Proof.
  intros Hs. induction Hs as [|x dates Hs IH Hx]; [discriminate|].
  cbn [first_before]. destruct (x <? today) eqn:E.
  - intros [= <-]. apply Z.ltb_lt in E. split; [left|]. split; [exact E|].
    intros d Hd _. apply elem_of_cons in Hd as [-> | Hd]; [lia|].
    rewrite Forall_forall in Hx. specialize (Hx d Hd). lia.
  - intros H. apply Z.ltb_ge in E. destruct (IH H) as (Hin & Hlt & Hmax).
    split; [by right|]. split; [exact Hlt|].
    intros d Hd Hdt. apply elem_of_cons in Hd as [-> | Hd]; [lia|].
    by apply Hmax.
Qed.

Lemma first_before_None (today : Z) (dates : list Z) :
  first_before today dates = None <-> forall d, d ∈ dates -> today <= d.
Proof.
  induction dates as [|x dates IH]; cbn [first_before].
  - split; [|done]. intros _ d Hd. by apply elem_of_nil in Hd.
  - destruct (x <? today) eqn:E.
    + apply Z.ltb_lt in E. split; [discriminate|].
      intros H. specialize (H x (list_elem_of_here _ _)). lia.
    + apply Z.ltb_ge in E. rewrite IH. split.
      * intros H d Hd. apply elem_of_cons in Hd as [-> | Hd]; [lia | by apply H].
      * intros H d Hd. apply H. by right.
Qed.

Lemma first_before_is_Some (today : Z) (dates : list Z) (d : Z) :
  d ∈ dates -> d < today -> is_Some (first_before today dates).
Proof.
  intros Hd Hlt. destruct (first_before today dates) eqn:E; [by eexists|].
  rewrite first_before_None in E. specialize (E d Hd). lia.
Qed.

(** When the scan finds a date, its group is not empty and the
    selection stops there. *)
Lemma select_found by_date (today p : Z) :
  map_Forall (fun _ cs => (0 < length cs)%nat) by_date ->
  first_before today (sorted_dates by_date) = Some p ->
  exists cs, by_date !! p = Some cs
             /\ select_previous_day by_date today = Some (p, cs).
Proof.
  intros Hne Hp. unfold select_previous_day. rewrite Hp.
  pose proof (sorted_dates_descending by_date) as Hs.
  destruct (first_before_Some _ _ _ Hs Hp) as (Hin & _ & _).
  apply sorted_dates_elem in Hin as [cs Hcs]. exists cs. split; [exact Hcs|].
  unfold candles_of. rewrite Hcs. cbn [default].
  specialize (Hne p cs Hcs). by destruct cs; [simpl in Hne; lia|].
Qed.

(** When the scan finds nothing, the fallback chain decides. *)
Lemma select_fallback by_date (today : Z) :
  first_before today (sorted_dates by_date) = None ->
  select_previous_day by_date today
  = match sorted_dates by_date with
    | d0 :: rest =>
        if d0 <? today then Some (d0, candles_of by_date d0)
        else match rest with
             | d1 :: _ => Some (d1, candles_of by_date d1)
             | [] => None
             end
    | [] => None
    end.
Proof. intros Hp. unfold select_previous_day. by rewrite Hp. Qed.

(** The all-null dictionary is returned when nothing is selected. *)
Lemma no_selection_no_levels (parse : string -> option datetime)
    (candles prepared : list candle) (interval : string) (today : Z) :
  prepare candles interval = Ok prepared ->
  select_previous_day (candles_by_date (group_by_date parse prepared)) today
  = None ->
  get_previous_day_high_low parse candles interval today = no_levels.
Proof.
  intros Hp Hsel. unfold get_previous_day_high_low, levels_of_response.
  destruct candles as [|c0 rest]; [reflexivity|].
  rewrite Hp. cbn [bind]. by rewrite Hsel.
Qed.

Lemma descending_distinct (dates : list Z) :
  StronglySorted Z.ge dates -> NoDup dates -> StronglySorted Z.gt dates.
Proof.
  intros Hs. induction Hs as [|x dates Hs IH Hx]; intros Hnd.
  - constructor.
  - apply NoDup_cons in Hnd as [Hx' Hnd]. constructor; [by apply IH|].
    rewrite Forall_forall in Hx |- *. intros d Hd.
    specialize (Hx d Hd). assert (d <> x) by (by intros ->). lia.
Qed.

(** C4.  For a non-empty grouping (every date holds at least one
    candle) and any [today]: the dates are examined most recent first;
    when some date is strictly before today, the selection is the
    greatest such date, with its candles; otherwise the most recent date
    is used if it is before today, otherwise the second most recent date
    when two dates exist, otherwise nothing is selected; and when
    nothing is selected the returned levels are all null, no exception
    leaving the function.  With the dates 2024-01-08, 2024-01-09,
    2024-01-10 and today = 2024-01-10 the selection is 2024-01-09. *)
Theorem previous_day_selection by_date (today : Z) :
  map_Forall (fun _ cs => (0 < length cs)%nat) by_date ->
  by_date <> ∅ ->
  let dates := sorted_dates by_date in
  let selected := select_previous_day by_date today in
  ((forall d, d ∈ dates <-> is_Some (by_date !! d))
   /\ StronglySorted Z.gt dates)
  /\ (forall d, is_Some (by_date !! d) -> d < today ->
      exists p cs, selected = Some (p, cs) /\ by_date !! p = Some cs
                   /\ p < today
                   /\ forall d', is_Some (by_date !! d') -> d' < today ->
                                 d' <= p)
  /\ ((forall d, is_Some (by_date !! d) -> today <= d) ->
      match dates with
      | d0 :: rest =>
          if d0 <? today then selected = Some (d0, candles_of by_date d0)
          else match rest with
               | d1 :: _ => selected = Some (d1, candles_of by_date d1)
               | [] => selected = None
               end
      | [] => selected = None
      end)
  /\ (selected = None ->
      forall parse candles prepared interval,
        prepare candles interval = Ok prepared ->
        candles_by_date (group_by_date parse prepared) = by_date ->
        get_previous_day_high_low parse candles interval today = no_levels)
  /\ (dom by_date = {[ days_from_civil 2024 1 8; days_from_civil 2024 1 9;
                       days_from_civil 2024 1 10 ]} ->
      today = days_from_civil 2024 1 10 ->
      exists cs, selected = Some (days_from_civil 2024 1 9, cs)).
Proof.
  intros Hne Hdom. cbv zeta.
  pose proof (sorted_dates_descending by_date) as Hs.
  assert (Hpref : forall d, is_Some (by_date !! d) -> d < today ->
            exists p cs, select_previous_day by_date today = Some (p, cs)
                         /\ by_date !! p = Some cs /\ p < today
                         /\ forall d', is_Some (by_date !! d') -> d' < today ->
                                       d' <= p).
  { intros d Hd Hlt. apply sorted_dates_elem in Hd.
    destruct (first_before_is_Some _ _ _ Hd Hlt) as [p Hp].
    destruct (select_found _ _ _ Hne Hp) as (cs & Hcs & Hsel).
    destruct (first_before_Some _ _ _ Hs Hp) as (_ & Hpt & Hmax).
    exists p, cs. repeat split; try done.
    intros d' Hd' Hlt'. apply Hmax; [by apply sorted_dates_elem | done]. }
  split; [|split; [|split; [|split]]].
  - split; [apply sorted_dates_elem|].
    apply descending_distinct; [done | apply sorted_dates_NoDup].
  - exact Hpref.
  - intros Hall.
    assert (Hnone : first_before today (sorted_dates by_date) = None).
    { apply first_before_None. intros d Hd. by apply Hall, sorted_dates_elem. }
    rewrite (select_fallback _ _ Hnone).
    destruct (sorted_dates by_date) as [|d0 rest]; [reflexivity|].
    destruct (d0 <? today); [reflexivity|]. by destruct rest.
  - intros Hsel parse candles prepared interval Hp <-.
    by eapply no_selection_no_levels.
  - intros Hd ->.
    assert (H9 : is_Some (by_date !! days_from_civil 2024 1 9)).
    { apply elem_of_dom. rewrite Hd. set_solver. }
    destruct (Hpref _ H9 ltac:(by vm_compute)) as (p & cs & Hsel & Hcs & Hlt & Hmax).
    exists cs. rewrite Hsel. do 2 f_equal.
    assert (Hp : p ∈ dom by_date) by (apply elem_of_dom; by eexists).
    specialize (Hmax _ H9 ltac:(by vm_compute)).
    rewrite Hd, !elem_of_union, !elem_of_singleton in Hp.
    vm_compute days_from_civil in *. lia.
Qed.

Lemma previous_day_selection_witness :
  let by_date := candles_by_date (group_by_date fromisoformat three_day_batch) in
  let today := days_from_civil 2024 1 10 in
  (map_Forall (fun _ cs => (0 < length cs)%nat) by_date /\ by_date <> ∅)
  /\ exists cs, select_previous_day by_date today
                = Some (days_from_civil 2024 1 9, cs).
Proof.
  cbv zeta.
  set (by_date := candles_by_date (group_by_date fromisoformat three_day_batch)).
  assert (H1 : map_Forall (fun _ cs => (0 < length cs)%nat) by_date).
  { apply (bool_decide_unpack _). by vm_compute. }
  assert (H2 : by_date <> ∅).
  { intros E. apply (f_equal (fun m => m !! 19731)) in E.
    vm_compute in E. discriminate E. }
  split; [by split|].
  destruct (previous_day_selection by_date (days_from_civil 2024 1 10) H1 H2)
    as (_ & _ & _ & _ & Hex).
  apply Hex; [|reflexivity]. by vm_compute.
Defined.

End SelectionFacts.

(** ** Trading-day grouping and the PL3 levels *)

Section LevelFacts.

Import Candles Datetime PL3 PL3Rules.

Variable parse : string -> option datetime.

Lemma group_step_nonempty (g : grouping) (c : candle) :
  map_Forall (fun _ cs => (0 < length cs)%nat) (candles_by_date g) ->
  map_Forall (fun _ cs => (0 < length cs)%nat)
             (candles_by_date (group_step parse g c)).
Proof.
  intros Hg. unfold group_step. destruct c as [|timestamp rest]; [done|].
  destruct (parse_timestamp parse timestamp) as [dt|e]; [|done].
  cbn [candles_by_date]. apply map_Forall_insert_2; [|done].
  rewrite length_app. simpl. lia.
Qed.

(** Every date of a grouping holds at least one candle. *)
Lemma group_by_date_nonempty (candles : list candle) :
  map_Forall (fun _ cs => (0 < length cs)%nat)
             (candles_by_date (group_by_date parse candles)).
Proof.
  unfold group_by_date.
  assert (G : forall g,
             map_Forall (fun _ cs => (0 < length cs)%nat) (candles_by_date g) ->
             map_Forall (fun _ cs => (0 < length cs)%nat)
                        (candles_by_date (foldl (group_step parse) g candles))).
  { induction candles as [|c candles IH]; intros g Hg; [done|].
    cbn [foldl]. by apply IH, group_step_nonempty. }
  apply G. cbn. apply map_Forall_empty.
Qed.

(** A candle whose timestamp does not parse leaves the dictionary as it
    is, adds one warning, and the loop goes on with the next candle. *)
Lemma group_step_skips (g : grouping) (timestamp : value) (rest : candle)
    (e : exn) :
  parse_timestamp parse timestamp = Raise e ->
  group_step parse g (timestamp :: rest)
  = {| candles_by_date := candles_by_date g;
       warnings := warnings g ++ [timestamp] |}.
Proof. intros H. unfold group_step. by rewrite H. Qed.

Lemma group_by_date_app (before after : list candle) :
  group_by_date parse (before ++ after)
  = foldl (group_step parse) (group_by_date parse before) after.
Proof. unfold group_by_date. apply foldl_app. Qed.

(** Where the two substring tests of the code coincide with the tests
    the spec words, the code follows the spec's precedence. *)
Lemma parse_timestamp_agrees (timestamp : value) :
  (let s := Str.str_of timestamp in
   Str.contains "+" s && Str.contains "05:30" s = Str.contains "+05:30" s
   /\ Str.contains "Z" s = ends_with_char "Z" s) ->
  parse_timestamp parse timestamp = parse_timestamp_by_spec parse timestamp.
Proof.
  cbv zeta. intros [H1 H2].
  unfold parse_timestamp, parse_timestamp_by_spec.
  destruct timestamp; try reflexivity; by rewrite H1, H2.
Qed.

Lemma levels_of_day_inv (day_candles : list candle) (r : levels) :
  levels_of_day day_candles = Ok r ->
  r = no_levels
  \/ exists sorted_day_candles raw_h raw_l,
       sorted_by_timestamp day_candles = Ok sorted_day_candles
       /\ py_max (column 2 (last_three sorted_day_candles)) = Ok (VNum raw_h)
       /\ py_min (column 3 (last_three sorted_day_candles)) = Ok (VNum raw_l)
       /\ r = {| pl3h := Some (round2 raw_h);
                 pl3l := Some (round2 raw_l);
                 pl3m := Some (round2 ((raw_h + raw_l) / 2)) |}.
Proof.
  unfold levels_of_day.
  destruct (sorted_by_timestamp day_candles) as [sorted|e]; [|discriminate].
  cbn [bind].
  destruct (column 2 (last_three sorted)) as [|h0 hs] eqn:Eh;
    [intros [= <-]; by left|].
  destruct (column 3 (last_three sorted)) as [|l0 ls] eqn:El;
    [intros [= <-]; by left|].
  destruct (py_max (h0 :: hs)) as [hv|e] eqn:Emax; [|discriminate].
  destruct (py_min (l0 :: ls)) as [lv|e] eqn:Emin; [|discriminate].
  cbn [bind].
  destruct hv as [|x|?]; try discriminate.
  destruct lv as [|y|?]; try discriminate.
  cbn [py_mid py_round2 bind]. intros [= <-]. right.
  exists sorted, x, y. by rewrite Eh, El.
Qed.

Lemma response_inv (candles : list candle) (interval : string) (today : Z)
    (r : levels) :
  get_previous_day_high_low parse candles interval today = r ->
  r = no_levels
  \/ exists prepared d day_candles,
       prepare candles interval = Ok prepared
       /\ select_previous_day
            (candles_by_date (group_by_date parse prepared)) today
          = Some (d, day_candles)
       /\ levels_of_day day_candles = Ok r.
Proof.
  unfold get_previous_day_high_low, levels_of_response.
  destruct candles as [|c0 rest]; [intros <-; by left|].
  destruct (prepare (c0 :: rest) interval) as [prepared|e];
    [|intros <-; by left].
  cbn [bind].
  destruct (select_previous_day _ today) as [[d day]|] eqn:Es;
    [|intros <-; by left].
  destruct day as [|c day]; [intros <-; by left|].
  cbn [levels_of_selection].
  destruct (levels_of_day (c :: day)) as [r'|e] eqn:El; [|intros <-; by left].
  intros <-. right. by exists prepared, d, (c :: day).
Qed.

End LevelFacts.

Section LevelTheorems.

Import Candles Datetime PL3 PL3Rules.
Local Open Scope Q_scope.




(** C1 at a batch that holds the last minute of 8 January and the first
    minute of 9 January: the two candles belong to different trading
    days, yet the whole sorted batch is aggregated before the grouping,
    so one 75-minute record carries the high and the low of 9 January
    under the timestamp of 8 January, and with today = 9 January the
    returned levels are those of today's candle.  Grouping first gives
    the levels of 8 January. *)
Theorem aggregation_spans_two_days :
  let today := days_from_civil 2024 1 9 in
  (exists first second dt1 dt2,
      two_day_batch = [first; second]
      /\ parse_timestamp fromisoformat (sort_key first) = Ok dt1
      /\ parse_timestamp fromisoformat (sort_key second) = Ok dt2
      /\ date dt1 = days_from_civil 2024 1 8
      /\ date dt2 = days_from_civil 2024 1 9)
  /\ prepare two_day_batch "75minute"
     = Ok [[VStr "2024-01-08T15:29:00+05:30"; VNum 100; VNum 999; VNum 1;
            VNum 500; VNum (0 + 10 + 10); VNum 0]]
  /\ get_previous_day_high_low fromisoformat two_day_batch "75minute" today
     = {| pl3h := Some (round2 999); pl3l := Some (round2 1);
          pl3m := Some (round2 500) |}
  /\ levels_day_by_day fromisoformat two_day_batch "75minute" today
     = Ok {| pl3h := Some (round2 101); pl3l := Some (round2 99);
             pl3m := Some (round2 100) |}.
Proof.
  cbv zeta. split; [|split; [|split]].
  - do 4 eexists. split; [reflexivity|].
    split; [by vm_compute|]. split; [by vm_compute|]. split; by vm_compute.
  - by vm_compute.
  - by vm_compute.
  - by vm_compute.
Qed.

(** C3 at the UTC timestamp 2025-11-08T19:05:30+00:00: its minutes and
    seconds read [05:30], so the test for an IST string accepts it and
    the wall time 19:05:30 is used without the shift; the grouping key is
    8 November, while the precedence of the spec reads it as UTC and
    gives 00:35:30 on 9 November. *)
Theorem utc_timestamp_taken_as_ist :
  let timestamp := VStr "2025-11-08T19:05:30+00:00" in
  (exists dt, parse_timestamp fromisoformat timestamp = Ok dt
              /\ date dt = days_from_civil 2025 11 8)
  /\ (exists dt, parse_timestamp_by_spec fromisoformat timestamp = Ok dt
                 /\ date dt = days_from_civil 2025 11 9).
Proof.
  cbv zeta. split; eexists; (split; [by vm_compute | by vm_compute]).
Qed.

(** The grouping loop on [mixed_timestamps]: 20:00 UTC on 8 January
    and the epoch 1704771900000 (03:45 UTC on 9 January) land on
    9 January IST together with the IST string, the naive string stays
    on 8 January, the two timestamps that do not parse are reported and
    skipped, the empty candle is skipped, and the loop runs to its
    end. *)
Lemma grouping_of_mixed_timestamps :
  let g := group_by_date fromisoformat mixed_timestamps in
  candles_by_date g !! days_from_civil 2024 1 9
  = Some [[VStr "2024-01-08T20:00:00Z"]; [VNum 1704771900000];
          [VStr "2024-01-09T09:15:00+05:30"]]
  /\ candles_by_date g !! days_from_civil 2024 1 8
     = Some [[VStr "2024-01-08T23:00:00"]]
  /\ sorted_dates (candles_by_date g)
     = [days_from_civil 2024 1 9; days_from_civil 2024 1 8]
  /\ warnings g = [VStr "garbage"; VNone].
Proof. cbv zeta. repeat split; by vm_compute. Qed.

End LevelTheorems.

(** * Further properties *)

(** ** Sorting by timestamp *)

Section SortFacts.

Import Candles SortKinds.

Lemma py_lt_same_kind (k : bool) (a b : value) :
  key_kind a = Some k -> key_kind b = Some k -> exists r, py_lt a b = Ok r.
Proof.
  destruct a, b; cbn; intros Ha Hb; try discriminate; try congruence;
    by eexists.
Qed.

Lemma py_lt_other_kind (k : bool) (a b : value) :
  key_kind b = Some k -> key_kind a <> Some k -> py_lt a b = Raise TypeError.
Proof. destruct a, b; cbn; intros Hb Ha; try reflexivity; congruence. Qed.

Lemma py_lt_none_r (a : value) : py_lt a VNone = Raise TypeError.
Proof. by destruct a. Qed.

Lemma insert_by_key_same_kind (k : bool) (x : candle) (sorted : list candle) :
  of_kind k x -> Forall (of_kind k) sorted ->
  exists r, insert_by_key x sorted = Ok r /\ r ≡ₚ x :: sorted.
Proof.
  intros Hx Hs. induction Hs as [|y sorted Hy Hs IH]; cbn [insert_by_key].
  - by eexists.
  - destruct (py_lt_same_kind k _ _ Hx Hy) as [b ->]. cbn [bind].
    destruct b; [by eexists|].
    destruct IH as (r & -> & Hr). cbn [bind]. eexists. split; [done|].
    rewrite Hr. apply Permutation_swap.
Qed.

Lemma insert_by_key_other_kind (k : bool) (x y : candle) (sorted : list candle) :
  of_kind k y -> ~ of_kind k x ->
  insert_by_key x (y :: sorted) = Raise TypeError.
Proof.
  intros Hy Hx. cbn [insert_by_key].
  by rewrite (py_lt_other_kind k _ _ Hy Hx).
Qed.

Lemma sort_into_same_kind (k : bool) (acc pending : list candle) :
  Forall (of_kind k) acc -> Forall (of_kind k) pending ->
  exists r, sort_into acc pending = Ok r /\ r ≡ₚ acc ++ pending.
Proof.
  intros Ha Hp. revert acc Ha.
  induction Hp as [|x pending Hx Hp IH]; intros acc Ha; cbn [sort_into].
  - exists acc. by rewrite app_nil_r.
  - destruct (insert_by_key_same_kind k x acc Hx Ha) as (acc' & -> & Hacc).
    cbn [bind].
    destruct (IH acc') as (r & -> & Hr).
    { rewrite Hacc. by constructor. }
    exists r. split; [done|]. rewrite Hr, Hacc.
    simpl. apply Permutation_middle.
Qed.

Lemma sort_into_other_kind (k : bool) (acc pending : list candle) :
  acc <> [] -> Forall (of_kind k) acc -> ~ Forall (of_kind k) pending ->
  sort_into acc pending = Raise TypeError.
Proof.
  intros Hne Ha Hp. revert acc Hne Ha.
  induction pending as [|x pending IH]; intros acc Hne Ha.
  - exfalso. apply Hp. constructor.
  - cbn [sort_into]. destruct (decide (key_kind (sort_key x) = Some k)) as [Hx|Hx].
    + destruct (insert_by_key_same_kind k x acc Hx Ha) as (acc' & -> & Hacc).
      cbn [bind]. apply IH.
      * intros Hall. apply Hp. by constructor.
      * intros ->. by apply Permutation_nil_cons in Hacc.
      * rewrite Hacc. by constructor.
    + destruct acc as [|y acc]; [done|]. apply Forall_cons in Ha as [Hy _].
      by rewrite (insert_by_key_other_kind k x y acc Hy Hx).
Qed.

Lemma sort_into_null_key (x y : candle) (pending : list candle) :
  key_kind (sort_key x) = None ->
  sort_into [x] (y :: pending) = Raise TypeError.
Proof.
  intros Hx. cbn [sort_into insert_by_key].
  destruct (sort_key x); try discriminate. by rewrite py_lt_none_r.
Qed.

(** The sort succeeds on the keys of one family and returns a
    rearrangement of its input. *)
Lemma sorted_by_timestamp_same_kind (k : bool) (candles : list candle) :
  Forall (of_kind k) candles ->
  exists r, sorted_by_timestamp candles = Ok r /\ r ≡ₚ candles.
Proof. intros H. by apply (sort_into_same_kind k []). Qed.

(** With two candles or more, it raises as soon as the keys are not all
    of one family. *)
Lemma sorted_by_timestamp_mixed (candles : list candle) :
  (2 <= length candles)%nat ->
  (forall k, ~ Forall (of_kind k) candles) ->
  sorted_by_timestamp candles = Raise TypeError.
Proof.
  intros Hlen Hmix. destruct candles as [|x [|y rest]]; [simpl in Hlen; lia..|].
  change (sort_into [x] (y :: rest) = Raise TypeError).
  destruct (key_kind (sort_key x)) as [k|] eqn:Hx.
  - apply (sort_into_other_kind k); [done | by constructor |].
    intros Hall. apply (Hmix k). by constructor.
  - by apply sort_into_null_key.
Qed.

(** Whatever it returns is a rearrangement of the input. *)
Lemma sorted_by_timestamp_Permutation (candles r : list candle) :
  sorted_by_timestamp candles = Ok r -> r ≡ₚ candles.
Proof.
  intros H. destruct candles as [|x [|y rest]].
  - by injection H as <-.
  - by injection H as <-.
  - destruct (key_kind (sort_key x)) as [k|] eqn:Hx.
    + destruct (decide (Forall (of_kind k) (x :: y :: rest))) as [Hall|Hmix].
      * destruct (sorted_by_timestamp_same_kind k _ Hall) as (r' & E & Hr).
        rewrite E in H. by injection H as <-.
      * change (sort_into [x] (y :: rest) = Ok r) in H.
        rewrite (sort_into_other_kind k) in H; [done | done | by constructor |].
        intros Hall. apply Hmix. by constructor.
    + change (sort_into [x] (y :: rest) = Ok r) in H.
      by rewrite sort_into_null_key in H.
Qed.

End SortFacts.

(** ** The grouping loop as a filter *)

Section GroupingFacts.

Import Candles Datetime PL3 SortKinds GroupingRules.

Variable parse : string -> option datetime.

Lemma group_step_lookup (g : grouping) (c : candle) (d : Z) :
  candles_by_date (group_step parse g c) !! d
  = if decide (date_of_candle parse c = Some d)
    then Some (default [] (candles_by_date g !! d) ++ [c])
    else candles_by_date g !! d.
Proof.
  unfold group_step, date_of_candle. destruct c as [|timestamp rest].
  - by case_decide.
  - destruct (parse_timestamp parse timestamp) as [dt|e]; cbn [candles_by_date].
    + case_decide as E.
      * injection E as <-. by rewrite lookup_insert_eq.
      * rewrite lookup_insert_ne; [done | congruence].
    + by case_decide.
Qed.

Lemma foldl_group_step_lookup (candles : list candle) (g : grouping) (d : Z) :
  candles_by_date (foldl (group_step parse) g candles) !! d
  = match filter (fun c => date_of_candle parse c = Some d) candles with
    | [] => candles_by_date g !! d
    | day => Some (default [] (candles_by_date g !! d) ++ day)
    end.
Proof.
  revert g. induction candles as [|c candles IH]; intros g; [done|].
  cbn [foldl]. rewrite IH, group_step_lookup.
  destruct (decide (date_of_candle parse c = Some d)) as [E|E].
  - rewrite filter_cons_True by done.
    destruct (filter _ candles); [done|]. cbn [default from_option id].
    by rewrite <- app_assoc.
  - by rewrite filter_cons_False by done.
Qed.

Lemma foldl_group_step_warnings (candles : list candle) (g : grouping) :
  warnings (foldl (group_step parse) g candles)
  = warnings g ++ omap (reported parse) candles.
Proof.
  revert g. induction candles as [|c candles IH]; intros g.
  - by rewrite app_nil_r.
  - cbn [foldl omap list_omap]. rewrite IH. unfold group_step, reported.
    destruct c as [|timestamp rest]; [done|].
    destruct (parse_timestamp parse timestamp); cbn [warnings]; [done|].
    by rewrite <- app_assoc.
Qed.

Lemma group_by_date_lookup (candles : list candle) (d : Z) :
  candles_by_date (group_by_date parse candles) !! d
  = match filter (fun c => date_of_candle parse c = Some d) candles with
    | [] => None
    | day => Some day
    end.
Proof.
  unfold group_by_date. rewrite foldl_group_step_lookup.
  cbn [candles_by_date]. rewrite lookup_empty.
  by destruct (filter _ candles).
Qed.

(** X2.  The group of a date is exactly the candles of the input whose
    timestamp parses to that date, in their input order, and a date with
    no such candle is absent from the dictionary; the warnings are the
    timestamps that do not parse, in input order. *)
Theorem group_by_date_is_filter (candles : list candle) (d : Z) :
  let g := group_by_date parse candles in
  candles_by_date g !! d
  = match filter (fun c => date_of_candle parse c = Some d) candles with
    | [] => None
    | day => Some day
    end
  /\ warnings g = omap (reported parse) candles.
Proof.
  cbv zeta. split; [apply group_by_date_lookup|].
  unfold group_by_date. by rewrite foldl_group_step_warnings.
Qed.

Lemma candles_of_group (candles : list candle) (d : Z) :
  candles_of (candles_by_date (group_by_date parse candles)) d
  = filter (fun c => date_of_candle parse c = Some d) candles.
Proof.
  unfold candles_of. rewrite group_by_date_lookup.
  by destruct (filter _ candles).
Qed.

(** X3.  Group membership does not depend on the order of the input:
    two batches that hold the same candles give, date by date, the same
    candles, and the same set of dates. *)
Theorem grouping_ignores_input_order (candles candles' : list candle) :
  candles ≡ₚ candles' ->
  forall d,
    candles_of (candles_by_date (group_by_date parse candles)) d
    ≡ₚ candles_of (candles_by_date (group_by_date parse candles')) d
    /\ (is_Some (candles_by_date (group_by_date parse candles) !! d)
        <-> is_Some (candles_by_date (group_by_date parse candles') !! d)).
Proof.
  intros Hp d. rewrite !candles_of_group. split; [by rewrite Hp|].
  rewrite !group_by_date_lookup.
  assert (E : filter (fun c => date_of_candle parse c = Some d) candles
              ≡ₚ filter (fun c => date_of_candle parse c = Some d) candles')
    by (by rewrite Hp).
  destruct (filter _ candles) as [|a l], (filter _ candles') as [|a' l'];
    try done.
  - by apply Permutation_nil_cons in E.
  - symmetry in E. by apply Permutation_nil_cons in E.
Qed.

(** X1.  A batch of two candles or more whose sort keys are not all
    numbers or all strings cannot be sorted: the sort raises
    [TypeError] before the grouping loop starts, and the function
    returns the all-null dictionary.  An empty candle has the key 0, a
    number, so one empty candle among string timestamps is enough. *)
Theorem unordered_timestamps_give_no_levels (candles : list candle)
    (interval : string) (today : Z) :
  (2 <= length candles)%nat ->
  (forall k, ~ Forall (of_kind k) candles) ->
  prepare candles interval = Raise TypeError
  /\ get_previous_day_high_low parse candles interval today = no_levels.
Proof.
  intros Hlen Hmix.
  assert (Hp : prepare candles interval = Raise TypeError).
  { unfold prepare. by rewrite sorted_by_timestamp_mixed. }
  split; [exact Hp|].
  unfold get_previous_day_high_low, levels_of_response.
  destruct candles; [done|]. by rewrite Hp.
Qed.

End GroupingFacts.

Lemma grouping_ignores_input_order_witness :
  PL3.candles_of (PL3.candles_by_date
                (PL3.group_by_date Datetime.fromisoformat PL3Rules.three_day_batch))
             (Datetime.days_from_civil 2024 1 9)
  ≡ₚ PL3.candles_of (PL3.candles_by_date
                   (PL3.group_by_date Datetime.fromisoformat
                      (reverse PL3Rules.three_day_batch)))
                (Datetime.days_from_civil 2024 1 9).
Proof.
  apply (grouping_ignores_input_order Datetime.fromisoformat
           PL3Rules.three_day_batch (reverse PL3Rules.three_day_batch)).
  symmetry. apply reverse_Permutation.
Defined.

Lemma unordered_timestamps_give_no_levels_witness :
  ((2 <= length GroupingRules.batch_with_empty_candle)%nat
   /\ forall k, ~ Forall (SortKinds.of_kind k) GroupingRules.batch_with_empty_candle)
  /\ PL3.get_previous_day_high_low Datetime.fromisoformat
       GroupingRules.batch_with_empty_candle "75minute"
       (Datetime.days_from_civil 2024 1 9)
     = PL3.no_levels.
Proof.
  assert (H1 : (2 <= length GroupingRules.batch_with_empty_candle)%nat)
    by (simpl; lia).
  assert (H2 : forall k,
             ~ Forall (SortKinds.of_kind k) GroupingRules.batch_with_empty_candle).
  { intros k H. apply Forall_cons in H as [Ha H].
    apply Forall_cons in H as [Hb _].
    unfold SortKinds.of_kind in *. simpl in *. congruence. }
  split; [by split|].
  apply (unordered_timestamps_give_no_levels Datetime.fromisoformat
           GroupingRules.batch_with_empty_candle "75minute"
           (Datetime.days_from_civil 2024 1 9) H1 H2).
Defined.

(** ** Rounding is monotone *)

Lemma round_half_even_near (q : Q) :
  (inject_Z (round_half_even q) - (1 # 2) <= q
   /\ q <= inject_Z (round_half_even q) + (1 # 2))%Q.
Proof.
  unfold round_half_even.
  pose proof (Qfloor_le q) as Hlo. pose proof (Qlt_floor q) as Hhi.
  rewrite inject_Z_plus in Hhi. change (inject_Z 1) with 1%Q in Hhi.
  destruct (Qcompare_spec (q - inject_Z (Qfloor q)) (1 # 2)) as [E|E|E].
  - destruct (Z.even (Qfloor q)); rewrite ?inject_Z_plus;
      change (inject_Z 1) with 1%Q; split; lra.
  - split; lra.
  - rewrite inject_Z_plus. change (inject_Z 1) with 1%Q. split; lra.
Qed.

Lemma round_half_even_mono (x y : Q) :
  (x <= y)%Q -> round_half_even x <= round_half_even y.
Proof.
  intros Hxy. destruct (Z_le_gt_dec (round_half_even x) (round_half_even y))
    as [|Hgt]; [done|]. exfalso.
  destruct (round_half_even_near x) as [Hx _].
  destruct (round_half_even_near y) as [_ Hy].
  assert (Hz : (inject_Z (round_half_even y) + 1 <= inject_Z (round_half_even x))%Q).
  { change 1%Q with (inject_Z 1). rewrite <- inject_Z_plus.
    rewrite <- Zle_Qle. lia. }
  assert (E : (x == y)%Q) by lra.
  apply round_half_even_comp in E. lia.
Qed.

Lemma round2_mono (x y : Q) : (x <= y)%Q -> (round2 x <= round2 y)%Q.
Proof.
  intros Hxy. unfold round2, Qle. cbn [Qnum Qden].
  assert (H : round_half_even (x * 100) <= round_half_even (y * 100))
    by (apply round_half_even_mono; lra).
  lia.
Qed.

(** ** More on the condition evaluator *)

Section M75More.

Import M75 M75Rules M75More.
Local Open Scope Q_scope.

(** X4.  For every input, null and zero included: an alert on PL3H or
    PL3L is never raised together with a condition or a signal on that
    level; the PL3H signal is [B] exactly when its condition is
    [bullish], the PL3L signal is [BO-S] exactly when its condition is
    [bearish], and no other value is ever stored in them; a PL3M
    condition never comes without the signal [W]. *)
Theorem alerts_exclude_conditions (ltp pl3h pl3m pl3l previous_ltp : option Q) :
  let r := calculate_m75_conditions ltp pl3h pl3m pl3l previous_ltp in
  (pl3h_alert r = true -> pl3h_condition r = None /\ pl3h_signal r = None)
  /\ (pl3l_alert r = true -> pl3l_condition r = None /\ pl3l_signal r = None)
  /\ ((pl3h_condition r = None /\ pl3h_signal r = None)
      \/ (pl3h_condition r = Some "bullish" /\ pl3h_signal r = Some "B"))
  /\ ((pl3l_condition r = None /\ pl3l_signal r = None)
      \/ (pl3l_condition r = Some "bearish" /\ pl3l_signal r = Some "BO-S"))
  /\ (pl3m_condition r <> None -> pl3m_signal r = Some "W")
  /\ (pl3m_signal r = None \/ pl3m_signal r = Some "W").
Proof.
  cbv zeta. unfold calculate_m75_conditions.
  destruct (negb (truthy ltp) || negb (truthy pl3h) || negb (truthy pl3m)
            || negb (truthy pl3l));
    [cbn; repeat split; try done; by left|].
  unfold pl3h_part, pl3l_part, pl3m_part.
  destruct (Qlt_b (float_of pl3h) (float_of ltp)),
    (Qlt_b (float_of ltp) (float_of pl3l)); cbn [pl3h_condition pl3h_signal
      pl3h_alert pl3l_condition pl3l_signal pl3l_alert pl3m_condition
      pl3m_signal];
    (repeat split; try done; try (by left); try (by right));
    destruct (truthy previous_ltp);
    repeat match goal with
           | |- context [if ?b then _ else _] => destruct b
           end; cbn; try done; try (by left); by right.
Qed.

(** X5.  For non-zero inputs and a positive level, the nearing alert is
    a band of half a percent: on PL3H it is raised exactly for
    0.995 pl3h <= ltp <= pl3h, on PL3L exactly for
    pl3l <= ltp <= 1.005 pl3l, and on PL3M exactly for
    0.995 pl3m <= ltp <= 1.005 pl3m. *)
Theorem alert_bands (ltp pl3h pl3m pl3l : Q) (previous_ltp : option Q) :
  ~ ltp == 0 -> 0 < pl3h -> 0 < pl3m -> 0 < pl3l ->
  let r := calculate_m75_conditions (Some ltp) (Some pl3h) (Some pl3m)
                                    (Some pl3l) previous_ltp in
  (pl3h_alert r = true <-> 0.995 * pl3h <= ltp /\ ltp <= pl3h)
  /\ (pl3l_alert r = true <-> pl3l <= ltp /\ ltp <= 1.005 * pl3l)
  /\ (pl3m_alert r = true <-> 0.995 * pl3m <= ltp /\ ltp <= 1.005 * pl3m).
Proof.
  intros H1 H2 H3 H4. cbv zeta.
  rewrite (m75_available _ _ _ _ _ H1) by lra.
  cbn [pl3h_alert pl3l_alert pl3m_alert].
  assert (Hband : forall level, 0 < level ->
            (Qabs (ltp - level) / level <= 0.005
             <-> 0.995 * level <= ltp /\ ltp <= 1.005 * level)).
  { intros level Hl. rewrite <- (Qmult_le_r _ _ level) by done.
    replace (Qabs (ltp - level) / level * level) with (Qabs (ltp - level) / level * level) by done.
    assert (E : Qabs (ltp - level) / level * level == Qabs (ltp - level))
      by (field; lra).
    rewrite E. rewrite Qabs_Qle_condition. split; intros [? ?]; split; lra. }
  split; [|split].
  - destruct (Qlt_le_dec pl3h ltp) as [Hgt|Hle].
    + rewrite pl3h_part_above by done. cbn [snd]. split; [done|]. lra.
    + rewrite pl3h_part_not_above by lra. cbn [snd].
      rewrite near_iff, (Hband pl3h H2). split; [intros [? ?]; by split|].
      intros [? ?]. split; lra.
  - destruct (Qlt_le_dec ltp pl3l) as [Hlt|Hge].
    + rewrite pl3l_part_below by done. cbn [snd]. split; [done|]. lra.
    + rewrite pl3l_part_not_below by lra. cbn [snd].
      rewrite near_iff, (Hband pl3l H4). split; [intros [? ?]; by split|].
      intros [? ?]. split; lra.
  - rewrite near_iff. by apply Hband.
Qed.

Lemma alert_bands_witness :
  (~ 99.6 == 0 /\ 0 < 100 /\ 0 < 95 /\ 0 < 90)
  /\ pl3h_alert (calculate_m75_conditions (Some 99.6) (Some 100) (Some 95)
                   (Some 90) None) = true.
Proof.
  assert (N : ~ 99.6 == 0) by nonzero.
  split; [repeat split; (exact N || reflexivity)|].
  destruct (alert_bands 99.6 100 95 90 None N eq_refl eq_refl eq_refl)
    as [Hh _].
  apply Hh. split; by vm_compute.
Defined.

(** X6.  When the previous price is given and sits exactly on PL3M, no
    PL3M condition and no signal are produced, wherever the current
    price is. *)
Theorem previous_on_level_is_silent (ltp pl3h pl3m pl3l p : Q) :
  ~ ltp == 0 -> ~ pl3h == 0 -> ~ pl3m == 0 -> ~ pl3l == 0 -> p == pl3m ->
  let r := calculate_m75_conditions (Some ltp) (Some pl3h) (Some pl3m)
                                    (Some pl3l) (Some p) in
  pl3m_condition r = None /\ pl3m_signal r = None.
Proof.
  intros H1 H2 H3 H4 Hp. cbv zeta.
  rewrite (m75_available _ _ _ _ _ H1 H2 H3 H4).
  cbn [pl3m_condition pl3m_signal]. unfold pl3m_part.
  assert (Np : ~ p == 0) by (rewrite Hp; exact H3).
  rewrite (proj2 (truthy_Some p) Np). cbn [float_of].
  split; by_order.
Qed.

Lemma previous_on_level_is_silent_witness :
  (~ 96 == 0 /\ ~ 100 == 0 /\ ~ 95 == 0 /\ ~ 90 == 0 /\ 95 == 95)
  /\ pl3m_condition (calculate_m75_conditions (Some 96) (Some 100) (Some 95)
                       (Some 90) (Some 95)) = None.
Proof.
  assert (N1 : ~ 96 == 0) by nonzero. assert (N2 : ~ 100 == 0) by nonzero.
  assert (N3 : ~ 95 == 0) by nonzero. assert (N4 : ~ 90 == 0) by nonzero.
  split; [repeat split; done|].
  exact (proj1 (previous_on_level_is_silent 96 100 95 90 95 N1 N2 N3 N4
                  (Qeq_refl 95))).
Defined.

End M75More.

Section M75Scale.

Import M75 M75Rules M75More.
Local Open Scope Q_scope.

Variable k : Q.
Hypothesis k_pos : 0 < k.

Lemma Qlt_b_scaled (x y : Q) : Qlt_b (k * x) (k * y) = Qlt_b x y.
Proof.
  destruct (Qlt_b x y) eqn:E.
  - apply Qlt_b_true in E. apply Qlt_b_true. nra.
  - apply Qlt_b_false in E. apply Qlt_b_false. nra.
Qed.

Lemma Qle_bool_scaled (x y : Q) : Qle_bool (k * x) (k * y) = Qle_bool x y.
Proof.
  destruct (Qle_bool x y) eqn:E.
  - apply Qle_bool_iff in E. apply Qle_bool_iff. nra.
  - apply Qle_bool_false in E. apply Qle_bool_false. nra.
Qed.

Lemma truthy_scaled (v : option Q) : truthy (scaled k v) = truthy v.
Proof.
  destruct v as [q|]; [|reflexivity]. cbn.
  f_equal. destruct (Qeq_bool q 0) eqn:E.
  - apply Qeq_bool_iff in E. apply Qeq_bool_iff. rewrite E. ring.
  - apply Qeq_bool_neq in E. destruct (Qeq_bool (k * q) 0) eqn:E'; [|done].
    apply Qeq_bool_iff in E'. exfalso. apply E.
    apply (Qmult_integral k q) in E'. destruct E' as [E'|E']; [lra | done].
Qed.

Lemma near_scaled (x level : Q) :
  ~ level == 0 ->
  Qle_bool (distance_to (k * x) (k * level)) near_threshold
  = Qle_bool (distance_to x level) near_threshold.
Proof.
  intros Hl.
  assert (E : distance_to (k * x) (k * level) == distance_to x level).
  { unfold distance_to.
    assert (E1 : k * x - k * level == k * (x - level)) by ring.
    rewrite E1, Qabs_Qmult, (Qabs_pos k) by lra. field. split; lra. }
  destruct (Qle_bool (distance_to x level) near_threshold) eqn:B.
  - apply Qle_bool_iff in B. apply Qle_bool_iff. by rewrite E.
  - apply Qle_bool_false in B. apply Qle_bool_false. by rewrite E.
Qed.

(** X7.  The evaluation does not depend on the unit of the prices:
    multiplying the price, the three levels and the previous price by
    one positive factor leaves the nine fields unchanged. *)
Theorem conditions_are_scale_free (ltp pl3h pl3m pl3l previous_ltp : option Q) :
  calculate_m75_conditions (scaled k ltp) (scaled k pl3h) (scaled k pl3m)
                           (scaled k pl3l) (scaled k previous_ltp)
  = calculate_m75_conditions ltp pl3h pl3m pl3l previous_ltp.
Proof.
  unfold calculate_m75_conditions. rewrite !truthy_scaled.
  destruct (truthy ltp) eqn:T1; [|reflexivity].
  destruct (truthy pl3h) eqn:T2; [|reflexivity].
  destruct (truthy pl3m) eqn:T3; [|reflexivity].
  destruct (truthy pl3l) eqn:T4; [|reflexivity].
  cbn [negb orb].
  destruct ltp as [a|], pl3h as [b|], pl3m as [c|], pl3l as [d|];
    try discriminate.
  apply truthy_Some in T2, T3, T4.
  cbn [scaled fmap option_fmap option_map float_of].
  unfold pl3h_part, pl3l_part, pl3m_part.
  rewrite truthy_scaled, !Qlt_b_scaled, !near_scaled by done.
  destruct previous_ltp as [p|];
    cbn [scaled fmap option_fmap option_map float_of];
    rewrite ?Qlt_b_scaled, ?Qle_bool_scaled; reflexivity.
Qed.

End M75Scale.

Lemma conditions_are_scale_free_witness :
  (0 < 100)%Q
  /\ M75.calculate_m75_conditions (Some (100 * 245.5)%Q) (Some (100 * 246)%Q)
       (Some (100 * 245)%Q) (Some (100 * 244)%Q) (Some (100 * 244.5)%Q)
     = M75.calculate_m75_conditions (Some 245.5%Q) (Some 246%Q) (Some 245%Q)
         (Some 244%Q) (Some 244.5%Q).
Proof.
  split; [reflexivity|].
  exact (conditions_are_scale_free 100%Q eq_refl (Some 245.5%Q) (Some 246%Q)
           (Some 245%Q) (Some 244%Q) (Some 244.5%Q)).
Defined.

(** ** More on the box strategy *)

Section BoxMore.

Import Box.
Local Open Scope Q_scope.



End BoxMore.

(** ** More on [aggregate_candles] *)

Section AggregateMore.

Import Candles Windows CandleRules.

(** One turn of the [while] loop. *)
Lemma aggregate_loop_unfold (candles : list candle) (factor : positive)
    (i : nat) (aggregated : list candle) :
  aggregate_loop candles factor i aggregated
  = if decide (i < length candles)%nat then
      match take (Pos.to_nat factor) (drop i candles) with
      | [] => Ok aggregated
      | group =>
          match merge_group group with
          | Ok merged =>
              aggregate_loop candles factor (i + Pos.to_nat factor)
                             (aggregated ++ [merged])
          | Raise e => Raise e
          end
      end
    else Ok aggregated.
Proof.
  funelim (aggregate_loop candles factor i aggregated);
    repeat match goal with
           | E : decide _ = _ |- _ => rewrite E; clear E
           | E : take _ _ = _ |- _ => rewrite E; clear E
           | E : merge_group _ = _ |- _ => rewrite E; clear E
           end; reflexivity.
Qed.

Lemma merge_group_shape (group : list candle) (merged : candle) :
  merge_group group = Ok merged ->
  length merged = 7%nat
  /\ timestamp_of merged = head group ≫= timestamp_of.
Proof.
  unfold merge_group, timestamp_of.
  destruct (head group) as [first_candle|]; [|by destruct (last group)].
  destruct (last group) as [last_candle|]; [|discriminate].
  cbn [mbind option_bind].
  destruct (first_candle !! 0%nat) as [t|]; [|discriminate]. cbn [bind].
  destruct (py_max_default (present 2 group)); [|discriminate].
  destruct (py_min_default (present 3 group)); [|discriminate].
  destruct (py_sum (present 5 group)); [|discriminate].
  cbn [bind]. by intros [= <-].
Qed.

Lemma aggregate_loop_shape (candles : list candle) (factor : positive)
    (n i : nat) (aggregated out : list candle) :
  (length candles - i = n)%nat ->
  aggregate_loop candles factor i aggregated = Ok out ->
  exists rest,
    out = aggregated ++ rest
    /\ length rest = ceil_div (length candles - i) (Pos.to_nat factor)
    /\ forall j r, rest !! j = Some r ->
         length r = 7%nat
         /\ timestamp_of r
            = candles !! (i + j * Pos.to_nat factor)%nat ≫= timestamp_of.
Proof.
  pose proof (Pos2Nat.is_pos factor) as Hf.
  revert i aggregated. induction (lt_wf n) as [n _ IH].
  intros i aggregated Hn. rewrite aggregate_loop_unfold.
  case_decide as Hi.
  - destruct (take (Pos.to_nat factor) (drop i candles)) as [|c0 g] eqn:Eg.
    { apply (f_equal length) in Eg.
      rewrite length_take, length_drop in Eg. simpl in Eg. lia. }
    destruct (merge_group (c0 :: g)) as [merged|e] eqn:Em; [|discriminate].
    intros Hout.
    destruct (IH (length candles - (i + Pos.to_nat factor))%nat ltac:(lia)
                 (i + Pos.to_nat factor)%nat (aggregated ++ [merged]) eq_refl Hout)
      as (rest & -> & Hlen & Hrec).
    exists (merged :: rest). split; [by rewrite <- app_assoc|]. split.
    + cbn [length]. rewrite Hlen.
      rewrite (ceil_div_step (length candles - i)) by lia.
      do 2 f_equal. lia.
    + intros [|j] r Hr.
      * injection Hr as <-. destruct (merge_group_shape _ _ Em) as [H7 Ht].
        split; [done|]. rewrite Ht. cbn [head mbind option_bind].
        assert (E0 : candles !! (i + 0 * Pos.to_nat factor)%nat = Some c0).
        { rewrite Nat.mul_0_l, <- lookup_drop.
          rewrite <- (lookup_take_lt _ (Pos.to_nat factor)) by lia.
          by rewrite Eg. }
        by rewrite E0.
      * destruct (Hrec j r Hr) as [H7 Ht]. split; [done|].
        rewrite Ht. do 2 f_equal. cbn. lia.
  - intros [= <-]. exists []. split; [by rewrite app_nil_r|]. split.
    + replace (length candles - i)%nat with 0%nat by lia.
      by rewrite ceil_div_0.
    + intros j r Hr. by rewrite lookup_nil in Hr.
Qed.

(** X9.  Whatever the candles hold, when a supported aggregation
    returns, it returns ceil(n / f) records, each of exactly seven
    fields, and the record of rank j carries the timestamp of the input
    candle of rank j f. *)
Theorem aggregated_records_shape (candles out : list candle)
    (target_interval : string) (factor : positive) :
  factor_of target_interval = Some factor ->
  aggregate_candles candles target_interval = Ok out ->
  length out = ceil_div (length candles) (Pos.to_nat factor)
  /\ forall j r, out !! j = Some r ->
       length r = 7%nat
       /\ timestamp_of r
          = candles !! (j * Pos.to_nat factor)%nat ≫= timestamp_of.
Proof.
  intros Hfac. unfold aggregate_candles. rewrite Hfac.
  pose proof (Pos2Nat.is_pos factor) as Hf.
  destruct candles as [|c0 rest] eqn:E.
  - intros [= <-]. split; [by rewrite ceil_div_0|].
    intros j r Hr. by rewrite lookup_nil in Hr.
  - rewrite <- E. intros Hout.
    destruct (aggregate_loop_shape _ _ _ _ _ _ eq_refl Hout)
      as (out' & -> & Hlen & Hrec).
    rewrite Nat.sub_0_r in Hlen. by split.
Qed.

Lemma aggregated_records_shape_witness :
  exists out, aggregate_candles sample_minutes "5minute" = Ok out
              /\ length out = 2%nat.
Proof.
  destruct (aggregate_candles sample_minutes "5minute") as [out|e] eqn:E;
    [|by vm_compute in E].
  exists out. split; [reflexivity|].
  exact (proj1 (aggregated_records_shape sample_minutes out "5minute"
                  5%positive eq_refl E)).
Defined.

(** X10.  The timestamp of the first candle of a window is read
    without a length test: when the batch starts with an empty candle, a
    supported aggregation raises [IndexError]. *)
Theorem empty_first_candle_raises (rest : list candle)
    (target_interval : string) (factor : positive) :
  factor_of target_interval = Some factor ->
  aggregate_candles ([] :: rest) target_interval = Raise IndexError.
Proof.
  intros Hfac. unfold aggregate_candles. rewrite Hfac.
  rewrite aggregate_loop_unfold. cbn [length].
  case_decide; [|lia]. rewrite drop_0.
  destruct (Pos.to_nat factor) as [|f] eqn:Ef;
    [pose proof (Pos2Nat.is_pos factor); lia|].
  cbn [take]. unfold merge_group. cbn [head].
  by destruct (last ([] :: take f rest)).
Qed.

Lemma empty_first_candle_raises_witness :
  aggregate_candles [[]; [VStr "2024-01-09T09:16:00+05:30"; VNum 1]] "15minute"
  = Raise IndexError.
Proof.
  exact (empty_first_candle_raises
           [[VStr "2024-01-09T09:16:00+05:30"; VNum 1]] "15minute" 15%positive
           eq_refl).
Defined.

End AggregateMore.

Section ConsistencyFacts.

Import Candles Windows CandleRules.

Lemma numbers_elem (i : nat) (w : list candle) (c : candle) (q : Q) :
  c ∈ w -> c !! i = Some (VNum q) -> In q (numbers i w).
Proof.
  intros Hc Hq. apply list_elem_of_In. unfold numbers.
  apply list_elem_of_omap. exists c. split; [done|]. by rewrite Hq.
Qed.

Lemma windows_Forall {A} (P : A -> Prop) (f : nat) (l w : list A) :
  Forall P l -> w ∈ windows f l -> Forall P w.
Proof.
  intros Hl Hw. unfold windows in Hw.
  apply list_elem_of_fmap in Hw as (k & -> & _).
  by apply Forall_take, Forall_drop.
Qed.

Lemma window_record_well_formed (w : list candle) :
  w <> [] -> well_formed (window_record w) = true.
Proof.
  intros Hne. unfold window_record.
  destruct (head w) eqn:Eh; [|by destruct w].
  destruct (last w) eqn:El; [|by apply last_None in El].
  cbn. by destruct (highest (numbers 2 w)), (lowest (numbers 3 w)).
Qed.

Lemma window_record_consistent (w : list candle) :
  w <> [] -> Forall consistent w -> consistent (window_record w).
Proof.
  intros Hne Hw. unfold window_record.
  destruct (head w) as [first_candle|] eqn:Eh; [|by destruct w].
  destruct (last w) as [last_candle|] eqn:El; [|by apply last_None in El].
  pose proof (head_Some_elem_of _ _ Eh) as Hf.
  pose proof (last_Some_elem_of _ _ El) as Hl.
  rewrite Forall_forall in Hw.
  destruct (Hw _ Hf) as (o1 & h1 & l1 & c1 & Ho1 & Hh1 & Hl1 & _ & B1 & B2 & _).
  destruct (Hw _ Hl) as (o2 & h2 & l2 & c2 & _ & Hh2 & Hl2 & Hc2 & _ & _ & B3 & B4).
  pose proof (numbers_elem 2 w _ _ Hf Hh1) as Ih1.
  pose proof (numbers_elem 3 w _ _ Hf Hl1) as Il1.
  pose proof (numbers_elem 2 w _ _ Hl Hh2) as Ih2.
  pose proof (numbers_elem 3 w _ _ Hl Hl2) as Il2.
  destruct (highest (numbers 2 w)) as [H|] eqn:EH;
    [|by destruct (numbers 2 w)].
  destruct (lowest (numbers 3 w)) as [L|] eqn:EL;
    [|by destruct (numbers 3 w)].
  destruct (highest_spec _ _ EH) as [_ HH].
  destruct (lowest_spec _ _ EL) as [_ LL].
  rewrite List.Forall_forall in HH, LL.
  pose proof (HH _ Ih1). pose proof (HH _ Ih2).
  pose proof (LL _ Il1). pose proof (LL _ Il2).
  exists o1, H, L, c2. unfold field_or_none. rewrite Ho1, Hc2.
  repeat split; cbn; try done; lra.
Qed.

Lemma aggregate_candles_supported (candles : list candle)
    (target_interval : string) (factor : positive) :
  Forall (fun c => well_formed c = true) candles ->
  factor_of target_interval = Some factor ->
  aggregate_candles candles target_interval
  = Ok (window_record <$> windows (Pos.to_nat factor) candles).
Proof.
  intros Hwf Hfac. unfold aggregate_candles. rewrite Hfac.
  destruct candles as [|c0 rest] eqn:E.
  - rewrite windows_nil; [done | apply Pos2Nat.is_pos].
  - rewrite <- E in *. rewrite aggregate_loop_windows by done.
    by rewrite drop_0.
Qed.

(** X11.  Aggregation keeps candles consistent: when every candle of
    the batch has a timestamp, numeric prices with
    low <= open, close <= high, and a numeric or null volume, a
    supported aggregation returns, and every record again has
    low <= open, close <= high. *)
Theorem aggregation_keeps_consistency (candles : list candle)
    (target_interval : string) (factor : positive) :
  Forall (fun c => well_formed c = true /\ consistent c) candles ->
  factor_of target_interval = Some factor ->
  exists out,
    aggregate_candles candles target_interval = Ok out
    /\ Forall (fun r => well_formed r = true /\ consistent r) out.
Proof.
  intros Hall Hfac.
  assert (Hwf : Forall (fun c => well_formed c = true) candles)
    by (eapply Forall_impl; [exact Hall | by intros ? []]).
  assert (Hco : Forall consistent candles)
    by (eapply Forall_impl; [exact Hall | by intros ? []]).
  eexists. split; [by apply aggregate_candles_supported|].
  apply Forall_fmap, Forall_forall. intros w Hw. cbn.
  assert (Hne : w <> []).
  { eapply windows_nonempty; [|exact Hw]. apply Pos2Nat.is_pos. }
  split; [by apply window_record_well_formed|].
  apply window_record_consistent; [done|]. by eapply windows_Forall.
Qed.

Lemma aggregation_keeps_consistency_witness :
  exists out,
    aggregate_candles PL3Rules.three_day_batch "5minute" = Ok out
    /\ Forall (fun r => well_formed r = true /\ consistent r) out.
Proof.
  apply (aggregation_keeps_consistency PL3Rules.three_day_batch "5minute"
           5%positive); [|reflexivity].
  repeat constructor;
    do 4 eexists; (repeat split; try reflexivity); by vm_compute.
Defined.

End ConsistencyFacts.

(** ** More on the PL3 levels *)

Section LevelsMore.

Import Candles Windows CandleRules Datetime PL3 PL3Rules GroupingRules.
Local Open Scope Q_scope.

Variable parse : string -> option datetime.

Lemma max_from_number (best : value) (items : list value) (x : Q) :
  max_from best items = Ok (VNum x) ->
  exists b qs, best = VNum b /\ items = VNum <$> qs.
Proof.
  revert best. induction items as [|item items IH]; intros best.
  - intros [= ->]. by exists x, [].
  - cbn [max_from]. unfold py_gt.
    destruct (py_lt best item) as [lt|e] eqn:E; [|discriminate].
    cbn [bind]. intros H. apply IH in H as (b & qs & Hb & ->).
    destruct best as [|b0|s0], item as [|q0|t0]; try discriminate;
      try (destruct lt; discriminate).
    by exists b0, (q0 :: qs).
Qed.

Lemma min_from_number (best : value) (items : list value) (x : Q) :
  min_from best items = Ok (VNum x) ->
  exists b qs, best = VNum b /\ items = VNum <$> qs.
Proof.
  revert best. induction items as [|item items IH]; intros best.
  - intros [= ->]. by exists x, [].
  - cbn [min_from].
    destruct (py_lt item best) as [lt|e] eqn:E; [|discriminate].
    cbn [bind]. intros H. apply IH in H as (b & qs & Hb & ->).
    destruct best as [|b0|s0], item as [|q0|t0]; try discriminate;
      try (destruct lt; discriminate).
    by exists b0, (q0 :: qs).
Qed.

Lemma py_max_number (items : list value) (x : Q) :
  py_max items = Ok (VNum x) ->
  exists qs, items = VNum <$> qs /\ highest qs = Some x.
Proof.
  destruct items as [|v items]; [discriminate|]. cbn [py_max]. intros H.
  destruct (max_from_number _ _ _ H) as (b & qs & -> & ->).
  exists (b :: qs). split; [done|].
  rewrite max_from_numbers in H. injection H as <-. reflexivity.
Qed.

Lemma py_min_number (items : list value) (x : Q) :
  py_min items = Ok (VNum x) ->
  exists qs, items = VNum <$> qs /\ lowest qs = Some x.
Proof.
  destruct items as [|v items]; [discriminate|]. cbn [py_min]. intros H.
  destruct (min_from_number _ _ _ H) as (b & qs & -> & ->).
  exists (b :: qs). split; [done|].
  rewrite min_from_numbers in H. injection H as <-. reflexivity.
Qed.

Lemma midpoint_between (x y : Q) :
  (round2 y <= round2 ((x + y) / 2) /\ round2 ((x + y) / 2) <= round2 x)
  \/ (round2 x <= round2 ((x + y) / 2) /\ round2 ((x + y) / 2) <= round2 y).
Proof.
  assert (E : (x + y) / 2 == (x + y) * (1 # 2)) by (field; lra).
  destruct (Qlt_le_dec x y); [right | left]; split; apply round2_mono;
    rewrite E; lra.
Qed.

(** X12.  A non-null result means that every high and every low among
    the last three candles of the selected day is a number; the returned
    pl3h is at least the rounding of each of these highs, the returned
    pl3l at most the rounding of each of these lows, and the returned
    pl3m lies between pl3l and pl3h, whichever is the larger. *)
Theorem levels_bound_last_three (candles : list candle) (interval : string)
    (today : Z) (h l : Q) :
  let r := get_previous_day_high_low parse candles interval today in
  pl3h r = Some h -> pl3l r = Some l ->
  exists last_3_candles highs lows m,
    (exists prepared d day_candles sorted_day_candles,
        prepare candles interval = Ok prepared
        /\ select_previous_day
             (candles_by_date (group_by_date parse prepared)) today
           = Some (d, day_candles)
        /\ sorted_by_timestamp day_candles = Ok sorted_day_candles
        /\ last_3_candles = last_three sorted_day_candles)
    /\ column 2 last_3_candles = VNum <$> highs
    /\ column 3 last_3_candles = VNum <$> lows
    /\ Forall (fun x => round2 x <= h) highs
    /\ Forall (fun x => l <= round2 x) lows
    /\ pl3m r = Some m
    /\ ((l <= m /\ m <= h) \/ (h <= m /\ m <= l)).
Proof.
  cbv zeta. intros Hh Hl.
  destruct (response_inv parse candles interval today _ eq_refl)
    as [E | (prepared & d & day & Hp & Hs & Hd)];
    [rewrite E in Hh; discriminate|].
  destruct (levels_of_day_inv _ _ Hd)
    as [E | (sorted & x & y & Hsort & Hmax & Hmin & E)];
    [rewrite E in Hh; discriminate|].
  rewrite E in Hh, Hl |- *. cbn [pl3h pl3l pl3m] in *.
  injection Hh as <-. injection Hl as <-.
  destruct (py_max_number _ _ Hmax) as (highs & Ehighs & Hhi).
  destruct (py_min_number _ _ Hmin) as (lows & Elows & Hlo).
  exists (last_three sorted), highs, lows, (round2 ((x + y) / 2)).
  split; [by exists prepared, d, day, sorted|].
  split; [done|]. split; [done|].
  destruct (highest_spec _ _ Hhi) as [_ HH].
  destruct (lowest_spec _ _ Hlo) as [_ LL].
  split; [|split; [|split; [done|apply midpoint_between]]].
  - eapply Forall_impl; [exact HH|]. intros q Hq. by apply round2_mono.
  - eapply Forall_impl; [exact LL|]. intros q Hq. by apply round2_mono.
Qed.

Lemma select_is_group (by_date : gmap Z (list candle)) (today d : Z)
    (cs : list candle) :
  select_previous_day by_date today = Some (d, cs) ->
  cs = candles_of by_date d.
Proof.
  unfold select_previous_day.
  destruct (first_before today (sorted_dates by_date)) as [p|].
  - destruct (candles_of by_date p) as [|c0 rest] eqn:Ep.
    + destruct (sorted_dates by_date) as [|d0 [|d1 ?]];
        try destruct (d0 <? today); intros [= <- <-]; done.
    + by intros [= <- <-].
  - destruct (sorted_dates by_date) as [|d0 [|d1 ?]];
      try destruct (d0 <? today); try discriminate; by intros [= <- <-].
Qed.

Lemma last_three_Forall (P : candle -> Prop) (l : list candle) :
  Forall P l -> Forall P (last_three l).
Proof.
  intros H. unfold last_three.
  destruct (3 <=? length l)%nat; [by apply Forall_drop | done].
Qed.

Lemma prepare_consistent (candles prepared : list candle) (interval : string) :
  Forall (fun c => well_formed c = true /\ consistent c) candles ->
  prepare candles interval = Ok prepared ->
  Forall consistent prepared.
Proof.
  intros Hall. unfold prepare.
  destruct (sorted_by_timestamp candles) as [sorted|e] eqn:Es; [|discriminate].
  cbn [bind]. apply sorted_by_timestamp_Permutation in Es.
  assert (Hs : Forall (fun c => well_formed c = true /\ consistent c) sorted)
    by (by rewrite Es).
  destruct (String.eqb interval "75minute") eqn:Ei.
  - apply String.eqb_eq in Ei as ->.
    assert (Hwf : Forall (fun c => well_formed c = true) sorted)
      by (eapply Forall_impl; [exact Hs | by intros ? []]).
    rewrite (aggregate_candles_supported sorted "75minute" 75%positive Hwf eq_refl).
    intros [= <-]. apply Forall_fmap, Forall_forall. intros w Hw. cbn.
    apply window_record_consistent.
    + eapply windows_nonempty; [|exact Hw]. lia.
    + eapply windows_Forall; [|exact Hw].
      eapply Forall_impl; [exact Hs | by intros ? []].
  - intros [= <-]. eapply Forall_impl; [exact Hs | by intros ? []].
Qed.

(** X13.  From consistent candles (a timestamp, numeric prices with
    low <= open, close <= high, a numeric or null volume) a non-null
    result is ordered: pl3l <= pl3m <= pl3h. *)
Theorem levels_are_ordered (candles : list candle) (interval : string)
    (today : Z) (h l : Q) :
  Forall (fun c => well_formed c = true /\ consistent c) candles ->
  let r := get_previous_day_high_low parse candles interval today in
  pl3h r = Some h -> pl3l r = Some l ->
  exists m, pl3m r = Some m /\ l <= m /\ m <= h.
Proof.
  intros Hall. cbv zeta. intros Hh Hl.
  destruct (response_inv parse candles interval today _ eq_refl)
    as [E | (prepared & d & day & Hp & Hs & Hd)];
    [rewrite E in Hh; discriminate|].
  destruct (levels_of_day_inv _ _ Hd)
    as [E | (sorted & x & y & Hsort & Hmax & Hmin & E)];
    [rewrite E in Hh; discriminate|].
  rewrite E in Hh, Hl |- *. cbn [pl3h pl3l pl3m] in *.
  injection Hh as <-. injection Hl as <-.
  pose proof (prepare_consistent _ _ _ Hall Hp) as Hprep.
  apply select_is_group in Hs. rewrite candles_of_group in Hs.
  assert (Hday : Forall consistent day).
  { rewrite Hs. rewrite Forall_forall in Hprep |- *. intros c Hc.
    apply list_elem_of_filter in Hc as [_ Hc]. by apply Hprep. }
  apply sorted_by_timestamp_Permutation in Hsort.
  assert (Hlast : Forall consistent (last_three sorted)).
  { apply last_three_Forall. by rewrite Hsort. }
  destruct (py_max_number _ _ Hmax) as (highs & Ehighs & Hhi).
  destruct (py_min_number _ _ Hmin) as (lows & Elows & Hlo).
  destruct (highest_spec _ _ Hhi) as [_ HH].
  destruct (lowest_spec _ _ Hlo) as [_ LL].
  assert (Hxy : y <= x).
  { destruct (last_three sorted) as [|c0 rest]; [by destruct highs|].
    apply Forall_cons in Hlast as [(o0 & h0 & l0 & c0' & _ & Eh & El & _ & B1 & B2 & _) _].
    unfold column in Ehighs, Elows. cbn [omap list_omap] in Ehighs, Elows.
    rewrite Eh in Ehighs. rewrite El in Elows.
    destruct highs as [|hq highs]; [discriminate|].
    destruct lows as [|lq lows]; [discriminate|].
    injection Ehighs as <- _. injection Elows as <- _.
    apply List.Forall_inv in HH, LL. lra. }
  exists (round2 ((x + y) / 2)). split; [done|].
  assert (E2 : (x + y) / 2 == (x + y) * (1 # 2)) by (field; lra).
  split; apply round2_mono; rewrite E2; lra.
Qed.

End LevelsMore.

Lemma levels_bound_last_three_witness :
  let r := PL3.get_previous_day_high_low Datetime.fromisoformat
             PL3Rules.three_decimal_batch "75minute"
             (Datetime.days_from_civil 2024 1 9) in
  (PL3.pl3h r = Some 100.50%Q /\ PL3.pl3l r = Some 100.25%Q)
  /\ exists m, PL3.pl3m r = Some m.
Proof.
  cbv zeta.
  assert (Hh : PL3.pl3h (PL3.get_previous_day_high_low Datetime.fromisoformat
                           PL3Rules.three_decimal_batch "75minute"
                           (Datetime.days_from_civil 2024 1 9))
               = Some 100.50%Q) by (by vm_compute).
  assert (Hl : PL3.pl3l (PL3.get_previous_day_high_low Datetime.fromisoformat
                           PL3Rules.three_decimal_batch "75minute"
                           (Datetime.days_from_civil 2024 1 9))
               = Some 100.25%Q) by (by vm_compute).
  split; [by split|].
  destruct (levels_bound_last_three Datetime.fromisoformat
              PL3Rules.three_decimal_batch "75minute"
              (Datetime.days_from_civil 2024 1 9) _ _ Hh Hl)
    as (? & ? & ? & m & _ & _ & _ & _ & _ & Hm & _).
  by exists m.
Defined.

Lemma levels_are_ordered_witness :
  let r := PL3.get_previous_day_high_low Datetime.fromisoformat
             PL3Rules.three_day_batch "75minute"
             (Datetime.days_from_civil 2024 1 10) in
  exists m, PL3.pl3m r = Some m /\ (99.00 <= m)%Q /\ (m <= 303.00)%Q.
Proof.
  cbv zeta.
  apply (levels_are_ordered Datetime.fromisoformat PL3Rules.three_day_batch
           "75minute" (Datetime.days_from_civil 2024 1 10)).
  - repeat constructor;
      do 4 eexists; (repeat split; try reflexivity); by vm_compute.
  - by vm_compute.
  - by vm_compute.
Defined.

(** ** Strikes of the option chain *)

Section StrikeFacts.

Import Str OptionChain.

Lemma floor_div_bounds (x : Q) (s : Z) :
  0 < s ->
  (inject_Z (floor_div x s * s) <= x
   /\ x < inject_Z (floor_div x s * s) + inject_Z s)%Q.
Proof.
  intros Hs. unfold floor_div.
  assert (Hq : (0 < inject_Z s)%Q).
  { change 0%Q with (inject_Z 0). rewrite <- Zlt_Qlt. lia. }
  pose proof (Qfloor_le (x / inject_Z s)) as Hlo.
  pose proof (Qlt_floor (x / inject_Z s)) as Hhi.
  rewrite inject_Z_plus in Hhi. change (inject_Z 1) with 1%Q in Hhi.
  rewrite inject_Z_mult.
  set (f := inject_Z (Qfloor (x / inject_Z s))) in *.
  assert (E : (x == x / inject_Z s * inject_Z s)%Q) by (field; lra).
  split.
  - apply Qle_trans with (x / inject_Z s * inject_Z s)%Q;
      [apply Qmult_le_compat_r; lra|].
    apply Qle_lteq. right. symmetry. exact E.
  - apply Qle_lt_trans with (x / inject_Z s * inject_Z s)%Q;
      [apply Qle_lteq; right; exact E|].
    assert (E2 : (f * inject_Z s + inject_Z s == (f + 1) * inject_Z s)%Q)
      by ring.
    rewrite E2. by apply Qmult_lt_compat_r.
Qed.

Lemma atm_strike_multiple (ltp : Q) (strike_interval : Z) :
  exists k, atm_strike ltp strike_interval = k * strike_interval.
Proof. unfold atm_strike. destruct (Qle_bool _ _); eexists; reflexivity. Qed.

Lemma atm_strike_band (ltp : Q) (strike_interval : Z) :
  0 < strike_interval ->
  (inject_Z (atm_strike ltp strike_interval) - inject_Z strike_interval / 2
   <= ltp
   /\ ltp < inject_Z (atm_strike ltp strike_interval)
            + inject_Z strike_interval / 2)%Q.
Proof.
  intros Hs.
  assert (Hq : (0 < inject_Z strike_interval)%Q).
  { change 0%Q with (inject_Z 0). rewrite <- Zlt_Qlt. lia. }
  assert (Hhalf : (inject_Z strike_interval / 2
                   == inject_Z strike_interval * (1 # 2))%Q) by (field; lra).
  destruct (floor_div_bounds ltp strike_interval Hs) as [Hlo Hhi].
  unfold atm_strike, remainder_of.
  destruct (Qle_bool _ _) eqn:E.
  - apply Qle_bool_iff in E.
    rewrite Z.mul_add_distr_r, Z.mul_1_l, inject_Z_plus.
    rewrite Hhalf in *. split; lra.
  - apply Qle_bool_false in E. rewrite Hhalf in *. split; lra.
Qed.

(** X14.  For a positive strike interval the ATM strike is a multiple
    of the interval, it is the multiple nearest to the price, a price
    half-way between two strikes going to the upper one, and no other
    multiple qualifies. *)
Theorem atm_strike_is_nearest (ltp : Q) (strike_interval : Z) :
  0 < strike_interval ->
  let atm := atm_strike ltp strike_interval in
  (exists k, atm = k * strike_interval)
  /\ (inject_Z atm - inject_Z strike_interval / 2 <= ltp
      /\ ltp < inject_Z atm + inject_Z strike_interval / 2)%Q
  /\ forall k,
       (inject_Z (k * strike_interval) - inject_Z strike_interval / 2 <= ltp
        /\ ltp < inject_Z (k * strike_interval) + inject_Z strike_interval / 2)%Q ->
       k * strike_interval = atm.
Proof.
  intros Hs. cbv zeta.
  assert (Hq : (0 < inject_Z strike_interval)%Q).
  { change 0%Q with (inject_Z 0). rewrite <- Zlt_Qlt. lia. }
  assert (Hhalf : (inject_Z strike_interval / 2
                   == inject_Z strike_interval * (1 # 2))%Q) by (field; lra).
  pose proof (atm_strike_band ltp strike_interval Hs) as Hatm.
  split; [apply atm_strike_multiple|]. split; [exact Hatm|].
  intros k [Hk1 Hk2]. destruct Hatm as [Ha1 Ha2].
  destruct (atm_strike_multiple ltp strike_interval) as [a Ea].
  rewrite Ea in *.
  rewrite !inject_Z_mult in *. rewrite Hhalf in *.
  assert (H1 : (inject_Z k * inject_Z strike_interval
                < inject_Z a * inject_Z strike_interval
                  + inject_Z strike_interval)%Q) by lra.
  assert (H2 : (inject_Z a * inject_Z strike_interval
                < inject_Z k * inject_Z strike_interval
                  + inject_Z strike_interval)%Q) by lra.
  rewrite <- !inject_Z_mult, <- !inject_Z_plus, <- !Zlt_Qlt in H1, H2.
  assert (k = a); [|by subst].
  destruct (Z_lt_le_dec k a) as [Hlt|Hge].
  - assert ((k + 1) * strike_interval <= a * strike_interval)
      by (apply Z.mul_le_mono_nonneg_r; lia). lia.
  - destruct (Z_lt_le_dec a k) as [Hlt|Hle]; [|lia].
    assert ((a + 1) * strike_interval <= k * strike_interval)
      by (apply Z.mul_le_mono_nonneg_r; lia). lia.
Qed.

Lemma atm_strike_is_nearest_witness :
  (0 < 50) /\ atm_strike 24512.35%Q 50 = 24500 /\ atm_strike 24525%Q 50 = 24550.
Proof.
  assert (Hs : 0 < 50) by lia.
  split; [exact Hs|]. split.
  - destruct (atm_strike_is_nearest 24512.35%Q 50 Hs) as (_ & _ & Hu).
    symmetry. apply (Hu 490). split; by vm_compute.
  - destruct (atm_strike_is_nearest 24525%Q 50 Hs) as (_ & _ & Hu).
    symmetry. apply (Hu 491). split; by vm_compute.
Defined.

Lemma strike_settings_interval (upper_name : string) :
  fst (strike_settings upper_name) = 50 \/ fst (strike_settings upper_name) = 100.
Proof.
  unfold strike_settings.
  repeat match goal with |- context [if ?b then _ else _] => destruct b end;
    cbn; auto.
Qed.

(** X15.  For every price and name the chain has seven strikes, all
    multiples of the interval (50, or 100 for a name with BANK),
    ascending in steps of one interval, and the middle one is the ATM
    strike, so the price lies within half an interval of it. *)
Theorem chain_strikes_layout (ltp : Q) (upper_name : string) :
  let s := fst (strike_settings upper_name) in
  let strikes := chain_strikes ltp upper_name in
  (s = 50 \/ s = 100)
  /\ length strikes = 7%nat
  /\ strikes !! 3%nat = Some (atm_strike ltp s)
  /\ (forall i x, strikes !! i = Some x -> exists k, x = k * s)
  /\ (forall i x y, strikes !! i = Some x -> strikes !! S i = Some y ->
                    y = x + s)
  /\ (inject_Z (atm_strike ltp s) - inject_Z s / 2 <= ltp
      /\ ltp < inject_Z (atm_strike ltp s) + inject_Z s / 2)%Q.
Proof.
  cbv zeta. unfold chain_strikes.
  pose proof (strike_settings_interval upper_name) as Hs.
  set (s := fst (strike_settings upper_name)) in *.
  assert (Hpos : 0 < s) by lia.
  destruct (atm_strike_multiple ltp s) as [a Ea].
  pose proof (atm_strike_band ltp s Hpos) as Hnear.
  split; [exact Hs|]. split; [reflexivity|].
  split; [unfold strikes_around; cbn; f_equal; lia|].
  split; [|split; [|exact Hnear]].
  - intros i x Hx. rewrite Ea in Hx. unfold strikes_around in Hx.
    destruct i as [|[|[|[|[|[|[|i]]]]]]]; try discriminate;
      injection Hx as <-;
      [exists (a - 3) | exists (a - 2) | exists (a - 1) | exists a
       | exists (a + 1) | exists (a + 2) | exists (a + 3)]; ring.
  - intros i x y Hx Hy. unfold strikes_around in Hx, Hy.
    do 6 (destruct i as [|i];
          [injection Hx as <-; injection Hy as <-; ring|]).
    destruct i; discriminate.
Qed.

End StrikeFacts.

Section ChainMore.

Import Str OptionChain.
Local Open Scope Q_scope.

(** X16.  A name that contains NIFTY is served with the index code
    NIFTY, or BANKNIFTY when it also contains BANK; the code FINNIFTY is
    produced only for a name that contains FIN and not NIFTY, so the
    symbol FINNIFTY itself gets the code NIFTY; and the strike interval
    is 100 exactly for the names that contain BANK. *)
Theorem index_code_of_nifty_names (upper_name : string) :
  let interval := fst (strike_settings upper_name) in
  let code := snd (strike_settings upper_name) in
  (contains "NIFTY" upper_name = true ->
   code = "NIFTY" \/ code = "BANKNIFTY")
  /\ (code = "FINNIFTY" ->
      contains "NIFTY" upper_name = false /\ contains "FIN" upper_name = true)
  /\ (interval = 100%Z <-> contains "BANK" upper_name = true)
  /\ snd (strike_settings "FINNIFTY") = "NIFTY".
Proof.
  cbv zeta. unfold strike_settings.
  destruct (contains "NIFTY" upper_name) eqn:En,
    (contains "BANK" upper_name) eqn:Eb,
    (contains "FIN" upper_name) eqn:Ef; cbn;
    (split; [intros; try done; (by left) || (by right)|]);
    (split; [intros E; try done; subst upper_name; by vm_compute in En|]);
    (split; [split; intros; done|]); reflexivity.
Qed.

Lemma Qabs_ratio (a b : Q) : ~ b == 0 -> Qabs (a / b) == Qabs a / Qabs b.
Proof.
  intros Hb. unfold Qdiv. rewrite Qabs_Qmult. apply Qmult_comp; [reflexivity|].
  apply Qabs_Qinv.
Qed.

(** X17.  A proximity flag is false when the level is null or zero or
    the price is zero; otherwise it is true exactly when the price is
    strictly within 0.2 percent of the level,
    |ltp - level| < 0.002 |level|. *)
Theorem proximity_is_a_band (ltp : Q) :
  is_near ltp None = false
  /\ (forall level, level == 0 -> is_near ltp (Some level) = false)
  /\ (ltp == 0 -> forall level, is_near ltp level = false)
  /\ (forall level, ~ ltp == 0 -> ~ level == 0 ->
        (is_near ltp (Some level) = true
         <-> Qabs (ltp - level) < 0.002 * Qabs level)).
Proof.
  split; [|split; [|split]].
  - unfold is_near. by rewrite andb_false_r.
  - intros level Hl. unfold is_near.
    by rewrite (truthy_zero level Hl), andb_false_r.
  - intros Hz level. unfold is_near. by rewrite (truthy_zero ltp Hz).
  - intros level Hn Hl. unfold is_near.
    rewrite (proj2 (truthy_Some ltp) Hn), (proj2 (truthy_Some level) Hl).
    cbn [andb float_of]. rewrite Qlt_b_true, Qabs_ratio by done.
    assert (Hpos : 0 < Qabs level).
    { destruct (Qlt_le_dec 0 level) as [Hp|Hn'].
      - rewrite Qabs_pos; lra.
      - rewrite Qabs_neg by done.
        assert (level < 0) by (apply Qle_lteq in Hn' as [|]; [done|contradiction]).
        lra. }
    unfold proximity_pct.
    rewrite <- (Qmult_lt_r _ _ (Qabs level) Hpos).
    assert (E : Qabs (ltp - level) / Qabs level * 100 * Qabs level
                == Qabs (ltp - level) * 100) by (field; lra).
    rewrite E. split; intros H; lra.
Qed.

Lemma proximity_is_a_band_witness :
  (~ 100.1 == 0 /\ ~ 100 == 0)
  /\ is_near 100.1 (Some 100) = true.
Proof.
  assert (N1 : ~ 100.1 == 0) by nonzero. assert (N2 : ~ 100 == 0) by nonzero.
  split; [by split|].
  destruct (proximity_is_a_band 100.1) as (_ & _ & _ & Hb).
  apply (Hb 100 N1 N2). by vm_compute.
Defined.

End ChainMore.


(** ** First candle of the day and previous-day OHLC *)

Section DayFacts.

Import Candles Datetime Windows SortKinds DayCandles.

Variable parse : string -> option datetime.
Variable fromtimestamp : Q -> res datetime.

Local Abbreviation grouped := (group_by_date parse fromtimestamp).
Local Abbreviation day_of := (date_of_candle parse fromtimestamp).

Lemma day_group_step_lookup (by_date : gmap Z (list candle)) (row : candle)
    (d : Z) :
  group_step parse fromtimestamp by_date row !! d
  = if decide (day_of row = Some d)
    then Some (default [] (by_date !! d) ++ [row])
    else by_date !! d.
Proof.
  unfold group_step, date_of_candle. destruct row as [|timestamp rest].
  - by case_decide.
  - destruct (parse_timestamp parse fromtimestamp timestamp) as [dt|e].
    + cbv zeta. case_decide as E.
      * injection E as <-. by rewrite lookup_insert_eq.
      * rewrite lookup_insert_ne; [done | congruence].
    + by case_decide.
Qed.

Lemma day_foldl_lookup (candles : list candle)
    (by_date : gmap Z (list candle)) (d : Z) :
  foldl (group_step parse fromtimestamp) by_date candles !! d
  = match filter (fun row => day_of row = Some d) candles with
    | [] => by_date !! d
    | day => Some (default [] (by_date !! d) ++ day)
    end.
Proof.
  revert by_date. induction candles as [|row candles IH]; intros by_date;
    [done|].
  cbn [foldl]. rewrite IH, day_group_step_lookup.
  destruct (decide (day_of row = Some d)) as [E|E].
  - rewrite filter_cons_True by done.
    destruct (filter _ candles); [done|]. cbn [default from_option id].
    by rewrite <- app_assoc.
  - by rewrite filter_cons_False by done.
Qed.

Lemma day_group_lookup (candles : list candle) (d : Z) :
  grouped candles !! d
  = match filter (fun row => day_of row = Some d) candles with
    | [] => None
    | day => Some day
    end.
Proof.
  unfold group_by_date. rewrite day_foldl_lookup, lookup_empty.
  by destruct (filter _ candles).
Qed.

Lemma day_candles_of_group (candles : list candle) (d : Z) :
  PL3.candles_of (grouped candles) d
  = filter (fun row => day_of row = Some d) candles.
Proof.
  unfold PL3.candles_of. rewrite day_group_lookup.
  by destruct (filter _ candles).
Qed.

Lemma day_group_is_Some (candles : list candle) (d : Z) :
  is_Some (grouped candles !! d)
  <-> exists row, row ∈ candles /\ day_of row = Some d.
Proof.
  rewrite day_group_lookup.
  destruct (filter (fun row => day_of row = Some d) candles) as [|x day] eqn:E.
  - split; [by intros [? ?]|]. intros (row & Hin & Hd).
    assert (H : row ∈ filter (fun row => day_of row = Some d) candles)
      by (by apply list_elem_of_filter).
    rewrite E in H. by apply elem_of_nil in H.
  - split; [|by eexists]. intros _.
    assert (H : x ∈ filter (fun row => day_of row = Some d) candles)
      by (rewrite E; left).
    apply list_elem_of_filter in H as [Hd Hin]. by exists x.
Qed.

Lemma day_group_dates (candles : list candle) (d : Z) :
  d ∈ PL3.sorted_dates (grouped candles)
  <-> exists row, row ∈ candles /\ day_of row = Some d.
Proof. rewrite sorted_dates_elem. apply day_group_is_Some. Qed.

(** The loop over the dates stops at the first date before today. *)
Lemma previous_day_candle_scan (by_date : gmap Z (list candle)) (today : Z)
    (dates : list Z) :
  (forall d, d ∈ dates -> PL3.candles_of by_date d <> []) ->
  previous_day_candle by_date today dates
  = match PL3.first_before today dates with
    | Some d => head (PL3.candles_of by_date d)
    | None => None
    end.
Proof.
  induction dates as [|d dates IH]; intros Hne; [done|].
  cbn [previous_day_candle PL3.first_before].
  destruct (d <? today).
  - specialize (Hne d (list_elem_of_here _ _)).
    by destruct (PL3.candles_of by_date d).
  - apply IH. intros d' Hd'. apply Hne. by right.
Qed.

Lemma grouped_nonempty (candles : list candle) (d : Z) :
  d ∈ PL3.sorted_dates (grouped candles) ->
  PL3.candles_of (grouped candles) d <> [].
Proof.
  intros Hd. apply day_group_dates in Hd as (row & Hin & Hrow).
  rewrite day_candles_of_group. intros E.
  assert (H : row ∈ filter (fun row => day_of row = Some d) candles)
    by (by apply list_elem_of_filter).
  rewrite E in H. by apply elem_of_nil in H.
Qed.

Lemma day_of_nonempty (row : candle) (d : Z) : day_of row = Some d -> row <> [].
Proof. by destruct row. Qed.

(** X18.  [get_previous_trading_day_ohlc] reads one candle: among the
    dates of the response that lie before today it takes the latest, and
    of that date the first candle in sorted order.  It returns the open,
    high, low and close of that candle when the candle has at least five
    fields, and the empty dictionary otherwise; it does not look at an
    older date then. *)
Theorem previous_day_is_latest_before_today (candles sorted : list candle)
    (today d : Z) (row : candle) :
  sorted_by_timestamp candles = Ok sorted ->
  d < today ->
  (forall x d', x ∈ candles -> day_of x = Some d' -> d' < today -> d' <= d) ->
  head (filter (fun x => day_of x = Some d) sorted) = Some row ->
  get_previous_trading_day_ohlc parse fromtimestamp candles today
  = if (5 <=? length row)%nat then Some (ohlc_of row) else None.
Proof.
  intros Hsort Hlt Hmax Hrow.
  pose proof (sorted_by_timestamp_Permutation _ _ Hsort) as Hperm.
  apply head_Some_elem_of in Hrow as Hin.
  apply list_elem_of_filter in Hin as [Hd Hin].
  assert (Hdates : d ∈ PL3.sorted_dates (grouped sorted))
    by (apply day_group_dates; by exists row).
  destruct (first_before_is_Some today _ d Hdates Hlt) as [p Hp].
  destruct (first_before_Some _ _ _ (sorted_dates_descending _) Hp)
    as (Hpin & Hpt & Hpmax).
  assert (p = d) as ->.
  { apply day_group_dates in Hpin as (x & Hx & Hxd).
    rewrite Hperm in Hx. specialize (Hmax x p Hx Hxd Hpt).
    specialize (Hpmax d Hdates Hlt). lia. }
  unfold get_previous_trading_day_ohlc, previous_day_ohlc_of_response.
  destruct candles as [|c0 rest].
  { apply Permutation_nil_r in Hperm. subst sorted. by apply elem_of_nil in Hin. }
  rewrite Hsort. cbn [bind].
  rewrite previous_day_candle_scan by apply grouped_nonempty.
  rewrite Hp, day_candles_of_group, Hrow.
  apply day_of_nonempty in Hd. destruct row as [|t fields]; [done|].
  by destruct (5 <=? length (t :: fields))%nat.
Qed.

(** X19.  There is no fallback to today: when no candle of the response
    is dated before today, [get_previous_trading_day_ohlc] returns the
    empty dictionary. *)
Theorem nothing_before_today_gives_nothing (candles : list candle)
    (today : Z) :
  (forall x d, x ∈ candles -> day_of x = Some d -> today <= d) ->
  get_previous_trading_day_ohlc parse fromtimestamp candles today = None.
Proof.
  intros Hall.
  unfold get_previous_trading_day_ohlc, previous_day_ohlc_of_response.
  destruct candles as [|c0 rest]; [done|].
  destruct (sorted_by_timestamp (c0 :: rest)) as [sorted|e] eqn:Hsort;
    [|done].
  cbn [bind].
  pose proof (sorted_by_timestamp_Permutation _ _ Hsort) as Hperm.
  rewrite previous_day_candle_scan by apply grouped_nonempty.
  assert (E : PL3.first_before today (PL3.sorted_dates (grouped sorted)) = None).
  { apply first_before_None. intros d Hd.
    apply day_group_dates in Hd as (x & Hx & Hxd).
    rewrite Hperm in Hx. by apply (Hall x). }
  by rewrite E.
Qed.

Lemma foldl_max_spec (k : Z) (ks : list Z) :
  foldl Z.max k ks ∈ k :: ks /\ forall d, d ∈ k :: ks -> d <= foldl Z.max k ks.
Proof.
  revert k. induction ks as [|x ks IH]; intros k; cbn [foldl].
  - split; [left|]. intros d Hd. apply list_elem_of_singleton in Hd. lia.
  - destruct (IH (Z.max k x)) as [Hin Hmax]. split.
    + apply elem_of_cons in Hin as [E | Hin].
      * rewrite E. destruct (Z.max_spec k x) as [[_ ->] | [_ ->]];
          [right; left | left].
      * right. by right.
    + intros d Hd. apply elem_of_cons in Hd as [-> | Hd].
      * specialize (Hmax (Z.max k x) (list_elem_of_here _ _)). lia.
      * apply elem_of_cons in Hd as [-> | Hd].
        -- specialize (Hmax (Z.max k x) (list_elem_of_here _ _)). lia.
        -- apply Hmax. by right.
Qed.

(** With a date in the dictionary, the candles kept are those of the
    greatest date, sorted again. *)
Lemma day_candles_of_most_recent (sorted : list candle) (D : Z) :
  (exists x, x ∈ sorted /\ day_of x = Some D) ->
  (forall x d, x ∈ sorted -> day_of x = Some d -> d <= D) ->
  day_candles_of parse fromtimestamp sorted
  = sorted_by_timestamp (filter (fun x => day_of x = Some D) sorted).
Proof.
  intros HD Hmax. unfold day_candles_of.
  apply day_group_is_Some, elem_of_dom, elem_of_elements in HD.
  destruct (elements (dom (grouped sorted))) as [|k ks] eqn:E.
  { by apply elem_of_nil in HD. }
  destruct (foldl_max_spec k ks) as [Hin Hge].
  assert (foldl Z.max k ks = D) as ->.
  { specialize (Hge D HD). rewrite <- E in Hin.
    apply elem_of_elements, elem_of_dom, day_group_is_Some in Hin
      as (x & Hx & Hxd).
    specialize (Hmax x _ Hx Hxd). lia. }
  by rewrite day_candles_of_group.
Qed.

(** Without any date, the whole sorted batch is kept. *)
Lemma day_candles_of_ungrouped (sorted : list candle) :
  (forall x, x ∈ sorted -> day_of x = None) ->
  day_candles_of parse fromtimestamp sorted = Ok sorted.
Proof.
  intros Hnone. unfold day_candles_of.
  destruct (elements (dom (grouped sorted))) as [|k ks] eqn:E; [done|].
  assert (Hk : k ∈ elements (dom (grouped sorted))) by (rewrite E; left).
  apply elem_of_elements, elem_of_dom, day_group_is_Some in Hk
    as (x & Hx & Hxd).
  rewrite (Hnone x Hx) in Hxd. discriminate.
Qed.

(** A batch that could be sorted has keys of one family, so that any
    part of it can be sorted too. *)
Lemma sorted_by_timestamp_filter (P : candle -> Prop)
    `{!forall x, Decision (P x)} (candles sorted : list candle) :
  sorted_by_timestamp candles = Ok sorted ->
  exists day,
    sorted_by_timestamp (filter P sorted) = Ok day /\ day ≡ₚ filter P sorted.
Proof.
  intros Hsort. destruct candles as [|x [|y rest]].
  - injection Hsort as <-. by exists [].
  - injection Hsort as <-. destruct (decide (P x)).
    + rewrite filter_cons_True by done. by exists [x].
    + rewrite filter_cons_False by done. by exists [].
  - pose proof (sorted_by_timestamp_Permutation _ _ Hsort) as Hperm.
    destruct (key_kind (sort_key x)) as [k|] eqn:Hx.
    + destruct (decide (Forall (of_kind k) (x :: y :: rest))) as [Hall|Hmix].
      * apply (sorted_by_timestamp_same_kind k).
        rewrite <- Hperm in Hall. rewrite Forall_forall in Hall.
        apply Forall_forall. intros z Hz.
        apply list_elem_of_filter in Hz as [_ Hz]. by apply Hall.
      * change (sort_into [x] (y :: rest) = Ok sorted) in Hsort.
        rewrite (sort_into_other_kind k) in Hsort;
          [done | done | by constructor |].
        intros Hall. apply Hmix. by constructor.
    + change (sort_into [x] (y :: rest) = Ok sorted) in Hsort.
      by rewrite sort_into_null_key in Hsort.
Qed.

Lemma needs_aggregation_factor (interval : string) :
  needs_aggregation interval = true ->
  exists factor, factor_of interval = Some factor.
Proof.
  unfold needs_aggregation. intros H.
  repeat (apply orb_true_iff in H as [H | H]);
    apply String.eqb_eq in H; subst interval; by eexists.
Qed.

(** The candles kept by the first-candle functions when the response
    has a dated candle. *)
Lemma latest_day_candles (candles sorted : list candle) (D : Z) :
  sorted_by_timestamp candles = Ok sorted ->
  (exists x, x ∈ candles /\ day_of x = Some D) ->
  (forall x d, x ∈ candles -> day_of x = Some d -> d <= D) ->
  exists day first,
    day_candles_of parse fromtimestamp sorted = Ok day
    /\ sorted_by_timestamp (filter (fun x => day_of x = Some D) sorted) = Ok day
    /\ head day = Some first
    /\ Forall (fun x => x ∈ candles /\ day_of x = Some D) day.
Proof.
  intros Hsort (x & Hx & HxD) Hmax.
  pose proof (sorted_by_timestamp_Permutation _ _ Hsort) as Hperm.
  destruct (sorted_by_timestamp_filter (fun x => day_of x = Some D) _ _ Hsort)
    as (day & Hday & Hdp).
  assert (Hxd : x ∈ day).
  { rewrite Hdp. apply list_elem_of_filter. by rewrite Hperm. }
  destruct day as [|first day]; [by apply elem_of_nil in Hxd|].
  exists (first :: day), first. split; [|split; [done|split; [done|]]].
  - rewrite (day_candles_of_most_recent sorted D); [done | |].
    + exists x. by rewrite Hperm.
    + intros z d Hz. rewrite Hperm in Hz. by apply Hmax.
  - apply Forall_forall. intros z Hz. rewrite Hdp in Hz.
    apply list_elem_of_filter in Hz as [Hzd Hz]. by rewrite Hperm in Hz.
Qed.

(** X20.  For an interval that is not aggregated,
    [get_underlying_ohlc_from_candles] and
    [get_option_ohlc_from_candles] use the most recent date of the
    response only: they sort the candles of that date and return the
    open, high, low and close of the first one. *)
Theorem first_candle_of_latest_day (candles sorted : list candle) (D : Z)
    (interval : string) :
  sorted_by_timestamp candles = Ok sorted ->
  (exists x, x ∈ candles /\ day_of x = Some D) ->
  (forall x d, x ∈ candles -> day_of x = Some d -> d <= D) ->
  needs_aggregation interval = false ->
  exists day first,
    sorted_by_timestamp (filter (fun x => day_of x = Some D) sorted) = Ok day
    /\ head day = Some first
    /\ day_of first = Some D
    /\ get_ohlc_from_candles parse fromtimestamp candles interval
       = Some (ohlc_of first).
Proof.
  intros Hsort HD Hmax Hagg.
  destruct (latest_day_candles _ _ _ Hsort HD Hmax)
    as (day & first & Hday & Hfil & Hhead & Hall).
  exists day, first. split; [done|]. split; [done|].
  destruct day as [|f day]; [done|]. injection Hhead as ->.
  apply Forall_cons in Hall as [[_ Hfd] _]. split; [done|].
  unfold get_ohlc_from_candles, first_candle_of_response.
  destruct HD as (x & Hx & _).
  destruct candles as [|c0 rest]; [by apply elem_of_nil in Hx|].
  rewrite Hsort. cbn [bind]. rewrite Hday. cbn [bind]. by rewrite Hagg.
Qed.

(** X21.  For 5, 15, 30 and 60 minutes the functions aggregate after the
    grouping: the result is read from the merge of the first [factor]
    candles of the most recent date, all of which carry that date, so
    that the first candle of the day never mixes two days. *)
Theorem first_window_of_latest_day (candles sorted : list candle) (D : Z)
    (interval : string) :
  Forall (fun x => well_formed x = true) candles ->
  sorted_by_timestamp candles = Ok sorted ->
  (exists x, x ∈ candles /\ day_of x = Some D) ->
  (forall x d, x ∈ candles -> day_of x = Some d -> d <= D) ->
  needs_aggregation interval = true ->
  exists day factor,
    sorted_by_timestamp (filter (fun x => day_of x = Some D) sorted) = Ok day
    /\ factor_of interval = Some factor
    /\ Forall (fun x => day_of x = Some D) (take (Pos.to_nat factor) day)
    /\ get_ohlc_from_candles parse fromtimestamp candles interval
       = Some (ohlc_of (window_record (take (Pos.to_nat factor) day))).
Proof.
  intros Hwf Hsort HD Hmax Hagg.
  destruct (latest_day_candles _ _ _ Hsort HD Hmax)
    as (day & first & Hday & Hfil & Hhead & Hall).
  destruct (needs_aggregation_factor _ Hagg) as [factor Hfac].
  exists day, factor. split; [done|]. split; [done|]. split.
  { apply Forall_take. eapply Forall_impl; [exact Hall | by intros ? []]. }
  assert (Hwd : Forall (fun x => well_formed x = true) day).
  { rewrite Forall_forall in Hwf. apply Forall_forall. intros z Hz.
    rewrite Forall_forall in Hall. apply Hwf. by apply Hall. }
  unfold get_ohlc_from_candles, first_candle_of_response.
  destruct HD as (x & Hx & _).
  destruct candles as [|c0 rest]; [by apply elem_of_nil in Hx|].
  rewrite Hsort. cbn [bind]. rewrite Hday. cbn [bind]. rewrite Hagg.
  rewrite (aggregate_candles_supported _ _ _ Hwd Hfac). cbn [bind].
  rewrite windows_cons; [done | apply Pos2Nat.is_pos | by destruct day].
Qed.

(** X22.  When no timestamp of a sortable response can be read, the
    functions still answer for an interval that is not aggregated: the
    whole sorted batch is taken as one day and its first candle is
    returned. *)
Theorem undated_batch_is_one_day (candles sorted : list candle)
    (first : candle) (interval : string) :
  sorted_by_timestamp candles = Ok sorted ->
  (forall x, x ∈ candles -> day_of x = None) ->
  head sorted = Some first ->
  needs_aggregation interval = false ->
  get_ohlc_from_candles parse fromtimestamp candles interval
  = Some (ohlc_of first).
Proof.
  intros Hsort Hnone Hhead Hagg.
  pose proof (sorted_by_timestamp_Permutation _ _ Hsort) as Hperm.
  unfold get_ohlc_from_candles, first_candle_of_response.
  destruct candles as [|c0 rest].
  { apply Permutation_nil_r in Hperm. by subst sorted. }
  rewrite Hsort. cbn [bind]. rewrite day_candles_of_ungrouped.
  - cbn [bind]. rewrite Hagg. by destruct sorted; [|injection Hhead as ->].
  - intros x Hx. apply Hnone. by rewrite <- Hperm.
Qed.

End DayFacts.


Ltac each_candle H :=
  repeat (apply elem_of_cons in H as [-> | H]);
  [.. | by apply elem_of_nil in H].

Lemma previous_day_is_latest_before_today_witness :
  DayCandles.get_previous_trading_day_ohlc Datetime.fromisoformat
    DayCandles.fromtimestamp_ist PL3Rules.three_day_batch
    (Datetime.days_from_civil 2024 1 10)
  = Some {| DayCandles.o := VNum 200%Q; DayCandles.h := VNum 202%Q;
            DayCandles.l := VNum 198%Q; DayCandles.c := VNum 200%Q |}.
Proof.
  apply (previous_day_is_latest_before_today Datetime.fromisoformat
           DayCandles.fromtimestamp_ist
           PL3Rules.three_day_batch PL3Rules.three_day_batch
           (Datetime.days_from_civil 2024 1 10)
           (Datetime.days_from_civil 2024 1 9)
           [VStr "2024-01-09T09:15:00+05:30"; VNum 200%Q; VNum 202%Q;
            VNum 198%Q; VNum 200%Q; VNum 10%Q; VNum 0%Q]).
  - reflexivity.
  - reflexivity.
  - intros x d' Hx Hd Hlt. unfold PL3Rules.three_day_batch in Hx.
    each_candle Hx; vm_compute in Hd; injection Hd as <-;
      vm_compute in Hlt; vm_compute; congruence.
  - by vm_compute.
Defined.

Lemma nothing_before_today_gives_nothing_witness :
  DayCandles.get_previous_trading_day_ohlc Datetime.fromisoformat
    DayCandles.fromtimestamp_ist PL3Rules.three_day_batch
    (Datetime.days_from_civil 2024 1 8)
  = None.
Proof.
  apply (nothing_before_today_gives_nothing Datetime.fromisoformat
           DayCandles.fromtimestamp_ist PL3Rules.three_day_batch
           (Datetime.days_from_civil 2024 1 8)).
  intros x d Hx Hd. unfold PL3Rules.three_day_batch in Hx.
  each_candle Hx; vm_compute in Hd; injection Hd as <-; by vm_compute.
Defined.

Lemma first_candle_of_latest_day_witness :
  exists day first,
    Candles.sorted_by_timestamp
      (filter (fun x => DayCandles.date_of_candle Datetime.fromisoformat
                          DayCandles.fromtimestamp_ist x
                        = Some (Datetime.days_from_civil 2024 1 10))
         PL3Rules.three_day_batch) = Ok day
    /\ head day = Some first
    /\ DayCandles.date_of_candle Datetime.fromisoformat
         DayCandles.fromtimestamp_ist first
       = Some (Datetime.days_from_civil 2024 1 10)
    /\ DayCandles.get_ohlc_from_candles Datetime.fromisoformat
         DayCandles.fromtimestamp_ist PL3Rules.three_day_batch "day"
       = Some (DayCandles.ohlc_of first).
Proof.
  apply (first_candle_of_latest_day Datetime.fromisoformat
           DayCandles.fromtimestamp_ist
           PL3Rules.three_day_batch PL3Rules.three_day_batch
           (Datetime.days_from_civil 2024 1 10) "day").
  - reflexivity.
  - eexists. split; [do 2 right; left | by vm_compute].
  - intros x d Hx Hd. unfold PL3Rules.three_day_batch in Hx.
    each_candle Hx; vm_compute in Hd; injection Hd as <-; by vm_compute.
  - reflexivity.
Defined.

Lemma first_window_of_latest_day_witness :
  exists day factor,
    Candles.sorted_by_timestamp
      (filter (fun x => DayCandles.date_of_candle Datetime.fromisoformat
                          DayCandles.fromtimestamp_ist x
                        = Some (Datetime.days_from_civil 2024 1 9))
         PL3Rules.two_day_batch) = Ok day
    /\ Candles.factor_of "5minute" = Some factor
    /\ Forall (fun x => DayCandles.date_of_candle Datetime.fromisoformat
                          DayCandles.fromtimestamp_ist x
                        = Some (Datetime.days_from_civil 2024 1 9))
         (take (Pos.to_nat factor) day)
    /\ DayCandles.get_ohlc_from_candles Datetime.fromisoformat
         DayCandles.fromtimestamp_ist PL3Rules.two_day_batch "5minute"
       = Some (DayCandles.ohlc_of
                 (Windows.window_record (take (Pos.to_nat factor) day))).
Proof.
  apply (first_window_of_latest_day Datetime.fromisoformat
           DayCandles.fromtimestamp_ist
           PL3Rules.two_day_batch PL3Rules.two_day_batch
           (Datetime.days_from_civil 2024 1 9) "5minute").
  - by repeat constructor.
  - reflexivity.
  - eexists. split; [right; left | by vm_compute].
  - intros x d Hx Hd. unfold PL3Rules.two_day_batch in Hx.
    each_candle Hx; vm_compute in Hd; injection Hd as <-; by vm_compute.
  - reflexivity.
Defined.

Lemma undated_batch_is_one_day_witness :
  DayCandles.get_ohlc_from_candles Datetime.fromisoformat
    DayCandles.fromtimestamp_ist
    [[VStr "second"; VNum 5%Q; VNum 6%Q; VNum 4%Q; VNum 5%Q];
     [VStr "first"; VNum 1%Q; VNum 2%Q; VNum 0%Q; VNum 1%Q]] "1minute"
  = Some (DayCandles.ohlc_of
            [VStr "first"; VNum 1%Q; VNum 2%Q; VNum 0%Q; VNum 1%Q]).
Proof.
  apply (undated_batch_is_one_day Datetime.fromisoformat
           DayCandles.fromtimestamp_ist
           [[VStr "second"; VNum 5%Q; VNum 6%Q; VNum 4%Q; VNum 5%Q];
            [VStr "first"; VNum 1%Q; VNum 2%Q; VNum 0%Q; VNum 1%Q]]
           [[VStr "first"; VNum 1%Q; VNum 2%Q; VNum 0%Q; VNum 1%Q];
            [VStr "second"; VNum 5%Q; VNum 6%Q; VNum 4%Q; VNum 5%Q]]).
  - reflexivity.
  - intros x Hx. each_candle Hx; reflexivity.
  - reflexivity.
  - reflexivity.
Defined.


(** ** Token handling *)

Section TokenFacts.

Import Token.

Variable post_refresh : value -> option (gmap string value).

Lemma is_truthy_num (q : Q) : is_truthy (VNum q) = true <-> ~ (q == 0)%Q.
Proof. apply (truthy_Some q). Qed.

Lemma is_truthy_get (d : gmap string value) (k : string) :
  is_truthy (get_or d k VNone) = true ->
  exists v, d !! k = Some v /\ get_or d k VNone = v /\ is_truthy v = true.
Proof.
  unfold get_or. destruct (d !! k) as [v|]; [|done]. intros H. by exists v.
Qed.

(** A stored token whose expiry lies ahead is returned as it is. *)
Lemma stored_token_valid (post : value -> option (gmap string value))
    (s : state) (data : gmap string value) (tok : value) (e now later : Q) :
  token_file s = Some data ->
  data !! "access_token" = Some tok ->
  data !! "expires_at" = Some (VNum e) ->
  ~ (e == 0)%Q -> (now < e)%Q ->
  get_valid_token post s now later
  = Ok ({| token_file := Some data; access_token := tok |}, tok).
Proof.
  intros Hf Ht He Hnz Hlt. unfold get_valid_token, get_or.
  rewrite Hf, Ht, He. cbn [default from_option id].
  apply is_truthy_num in Hnz. rewrite Hnz. cbn [py_lt bind].
  apply Qlt_b_true in Hlt. by rewrite Hlt.
Qed.

Lemma with_expiry_inv (new_data stamped : gmap string value) (now : Q) :
  with_expiry new_data now = Ok stamped ->
  exists n,
    get_or new_data "expires_in" (VNum 86400) = VNum n
    /\ stamped = <["expires_at" := VNum (now + n - 60)]> new_data.
Proof.
  unfold with_expiry.
  destruct (get_or new_data "expires_in" (VNum 86400)) as [|n|]; try done.
  cbn [num_add bind]. intros [= <-]. by exists n.
Qed.

Lemma refresh_inv (data saved : gmap string value) (later : Q) (tok : value) :
  refresh post_refresh data later = Some (saved, tok) ->
  exists rt new_data n,
    data !! "refresh_token" = Some rt /\ is_truthy rt = true
    /\ post_refresh rt = Some new_data
    /\ new_data !! "access_token" = Some tok
    /\ get_or new_data "expires_in" (VNum 86400) = VNum n
    /\ saved !! "access_token" = Some tok
    /\ saved !! "expires_at" = Some (VNum (later + n - 60))
    /\ saved !! "refresh_token"
       = match new_data !! "refresh_token" with
         | Some v => Some v
         | None => Some rt
         end.
Proof.
  unfold refresh.
  destruct (is_truthy (get_or data "refresh_token" VNone)) eqn:Hrt; [|done].
  destruct (is_truthy_get _ _ Hrt) as (rt & Hd & -> & Hrt').
  destruct (post_refresh rt) as [new_data|] eqn:Hpost; [|done].
  destruct (new_data !! "access_token") as [token|] eqn:Htok; [|done].
  destruct (with_expiry new_data later) as [stamped|] eqn:Hexp; [|done].
  apply with_expiry_inv in Hexp as (n & Hn & ->).
  rewrite lookup_insert_ne by done.
  destruct (new_data !! "refresh_token") as [v|] eqn:Hnew.
  - rewrite bool_decide_eq_false_2 by done. cbn [andb]. intros [= <- <-].
    exists rt, new_data, n. do 5 (split; [done|]).
    rewrite lookup_insert_eq, !lookup_insert_ne by done.
    by rewrite Htok, Hnew.
  - rewrite bool_decide_eq_true_2 by done. cbn [andb]. intros [= <- <-].
    exists rt, new_data, n. do 5 (split; [done|]).
    rewrite lookup_insert_eq, !lookup_insert_ne by done.
    by rewrite lookup_insert_eq, Htok, Hnew.
Qed.

(** X23.  [get_valid_token] never hands out an expired stored token: a
    token it returns is either the stored one, with a numeric expiry
    strictly after the current time and the file untouched, or the one
    of a refresh response obtained with the stored refresh token, and
    then that token and its expiry are in the file.  In both cases the
    global variable holds the token returned. *)
Theorem returned_token_is_current (s s' : state) (now later : Q)
    (tok : value) :
  get_valid_token post_refresh s now later = Ok (s', tok) ->
  tok <> VNone ->
  access_token s' = tok
  /\ exists data,
       token_file s = Some data
       /\ ((exists e, data !! "access_token" = Some tok
                      /\ data !! "expires_at" = Some (VNum e)
                      /\ (now < e)%Q
                      /\ token_file s' = token_file s)
           \/ (exists rt new_data saved,
                 data !! "refresh_token" = Some rt
                 /\ post_refresh rt = Some new_data
                 /\ new_data !! "access_token" = Some tok
                 /\ token_file s' = Some saved
                 /\ saved !! "access_token" = Some tok)).
Proof.
  unfold get_valid_token. intros H Hne.
  destruct (token_file s) as [data|] eqn:Hf; [|by injection H as <- <-].
  destruct (data !! "access_token") as [token|] eqn:Ht;
    [|by injection H as <- <-].
  unfold get_or in H.
  destruct (data !! "expires_at") as [expires_at|] eqn:He;
    cbn [default from_option id] in H.
  - destruct (is_truthy expires_at) eqn:Htr.
    + destruct expires_at as [|e|str]; try done.
      cbn [py_lt bind] in H. destruct (Qlt_b now e) eqn:Hlt.
      * injection H as <- <-. split; [done|]. exists data. split; [done|].
        left. exists e. by rewrite Qlt_b_true in Hlt.
      * destruct (refresh post_refresh data later) as [[saved new]|] eqn:Hr;
          [|by injection H as <- <-].
        injection H as <- <-. split; [done|]. exists data. split; [done|].
        right. apply refresh_inv in Hr
          as (rt & new_data & n & ? & ? & ? & ? & ? & ? & ? & ?).
        by exists rt, new_data, saved.
    + cbn [bind] in H.
      destruct (refresh post_refresh data later) as [[saved new]|] eqn:Hr;
        [|by injection H as <- <-].
      injection H as <- <-. split; [done|]. exists data. split; [done|].
      right. apply refresh_inv in Hr
        as (rt & new_data & n & ? & ? & ? & ? & ? & ? & ? & ?).
      by exists rt, new_data, saved.
  - cbn [is_truthy Qeq_bool] in H. cbn in H.
    destruct (refresh post_refresh data later) as [[saved new]|] eqn:Hr;
      [|by injection H as <- <-].
    injection H as <- <-. split; [done|]. exists data. split; [done|].
    right. apply refresh_inv in Hr
      as (rt & new_data & n & ? & ? & ? & ? & ? & ? & ? & ?).
    by exists rt, new_data, saved.
Qed.

(** X24.  A refresh is a round trip.  When [get_valid_token] rewrites
    the file, the file holds the new token, the expiry
    [refresh_time + expires_in - 60] with [expires_in] read from the
    response (86400 when absent), and a refresh token: the one of the
    response, or the old one when the response has none.  Every later
    call made before that expiry returns the same token without a
    request and leaves the file as it is. *)
Theorem refreshed_token_is_served (s s' : state) (now later : Q)
    (tok : value) :
  get_valid_token post_refresh s now later = Ok (s', tok) ->
  token_file s' <> token_file s ->
  exists data rt new_data saved n,
    token_file s = Some data
    /\ data !! "refresh_token" = Some rt
    /\ post_refresh rt = Some new_data
    /\ get_or new_data "expires_in" (VNum 86400) = VNum n
    /\ s' = {| token_file := Some saved; access_token := tok |}
    /\ saved !! "expires_at" = Some (VNum (later + n - 60))
    /\ saved !! "refresh_token"
       = match new_data !! "refresh_token" with
         | Some v => Some v
         | None => Some rt
         end
    /\ forall (post : value -> option (gmap string value)) (t t' : Q),
         (t < later + n - 60)%Q -> ~ (later + n - 60 == 0)%Q ->
         get_valid_token post s' t t' = Ok (s', tok).
Proof.
  unfold get_valid_token. intros H Hne.
  destruct (token_file s) as [data|] eqn:Hf;
    [|injection H as <- <-; by rewrite Hf in Hne].
  destruct (data !! "access_token") as [token|] eqn:Ht;
    [|injection H as <- <-; by rewrite Hf in Hne].
  destruct (if is_truthy (get_or data "expires_at" (VNum 0))
            then py_lt (VNum now) (get_or data "expires_at" (VNum 0))
            else Ok false) as [valid|]; [|done].
  cbn [bind] in H. destruct valid; [by injection H as <- <-|].
  destruct (refresh post_refresh data later) as [[saved new]|] eqn:Hr;
    [|by injection H as <- <-].
  injection H as <- <-.
  apply refresh_inv in Hr
    as (rt & new_data & n & Hrt & _ & Hpost & _ & Hn & Hst & Hse & Hsr).
  exists data, rt, new_data, saved, n. do 7 (split; [done|]).
  intros post t t' Hlt Hnz.
  by apply (stored_token_valid post _ saved _ (later + n - 60)%Q).
Qed.

End TokenFacts.


Lemma returned_token_is_current_witness :
  Token.access_token
    {| Token.token_file :=
         Some {[ "access_token" := VStr "stored"; "expires_at" := VNum 2000%Q ]};
       Token.access_token := VStr "stored" |}
  = VStr "stored".
Proof.
  apply (returned_token_is_current (fun _ => None)
           {| Token.token_file :=
                Some {[ "access_token" := VStr "stored";
                        "expires_at" := VNum 2000%Q ]};
              Token.access_token := VNone |}
           {| Token.token_file :=
                Some {[ "access_token" := VStr "stored";
                        "expires_at" := VNum 2000%Q ]};
              Token.access_token := VStr "stored" |}
           1000%Q 1001%Q (VStr "stored")).
  - by vm_compute.
  - discriminate.
Defined.

Lemma refreshed_token_is_served_witness :
  let s' :=
    {| Token.token_file :=
         Some (<["refresh_token" := VStr "again"]>
                 (<["expires_at" := VNum (5001 + 3600 - 60)%Q]>
                    {[ "access_token" := VStr "fresh";
                       "expires_in" := VNum 3600%Q ]}));
       Token.access_token := VStr "fresh" |} in
  Token.get_valid_token
    (fun _ => Some {[ "access_token" := VStr "fresh";
                      "expires_in" := VNum 3600%Q ]})
    {| Token.token_file :=
         Some {[ "access_token" := VStr "stale";
                 "expires_at" := VNum 2000%Q;
                 "refresh_token" := VStr "again" ]};
       Token.access_token := VNone |}
    5000%Q 5001%Q
  = Ok (s', VStr "fresh")
  /\ Token.get_valid_token (fun _ => None) s' 8000%Q 8001%Q
     = Ok (s', VStr "fresh").
Proof.
  intros s'.
  assert (H1 : Token.get_valid_token
                 (fun _ => Some {[ "access_token" := VStr "fresh";
                                   "expires_in" := VNum 3600%Q ]})
                 {| Token.token_file :=
                      Some {[ "access_token" := VStr "stale";
                              "expires_at" := VNum 2000%Q;
                              "refresh_token" := VStr "again" ]};
                    Token.access_token := VNone |}
                 5000%Q 5001%Q
               = Ok (s', VStr "fresh")) by (by vm_compute).
  split; [exact H1|].
  assert (H2 : Token.token_file s'
               <> Some {[ "access_token" := VStr "stale";
                          "expires_at" := VNum 2000%Q;
                          "refresh_token" := VStr "again" ]}).
  { intros H. vm_compute in H. discriminate. }
  destruct (refreshed_token_is_served _ _ _ _ _ _ H1 H2)
    as (data & rt & new_data & saved & n & Hf & Hrt & Hpost & Hn & Hs & _ & _
        & Hlater).
  injection Hpost as <-. vm_compute in Hn. injection Hn as <-.
  apply Hlater; by vm_compute.
Defined.

(** ** The authorization callback *)

Section CallbackFacts.

Import Token Callback.

Lemma unseen_spec (l : list string) (seen : gset string) :
  NoDup (unseen seen l)
  /\ forall x, x ∈ unseen seen l <-> x ∈ l /\ x ∉ seen.
Proof.
  revert seen. induction l as [|y l IH]; intros seen; cbn [unseen].
  - split; [constructor|]. intros x.
    split; [intros H | intros [H _]]; by apply elem_of_nil in H.
  - destruct (decide (y ∈ seen)) as [Hy|Hy].
    + destruct (IH seen) as [Hn Hx]. split; [done|].
      intros x. rewrite Hx. split; intros [Hin Hs]; (split; [|done]).
      * by right.
      * apply elem_of_cons in Hin as [-> | Hin]; done.
    + destruct (IH ({[y]} ∪ seen)) as [Hn Hx]. split.
      * constructor; [|done]. rewrite Hx. intros [_ Hs]. apply Hs.
        by apply elem_of_union_l, elem_of_singleton.
      * intros x. rewrite elem_of_cons, Hx. split.
        -- intros [-> | [Hin Hs]]; [split; [left | done]|].
           split; [by right|]. intros H. apply Hs. by apply elem_of_union_r.
        -- intros [Hin Hs]. destruct (decide (x = y)) as [|Hxy]; [by left|].
           right. apply elem_of_cons in Hin as [-> | Hin]; [done|].
           split; [done|]. intros H. apply elem_of_union in H as [H|H]; [|done].
           by apply elem_of_singleton in H.
Qed.

Lemma unseen_length (l : list string) (seen : gset string) :
  (length (unseen seen l) <= length l)%nat.
Proof.
  revert seen. induction l as [|y l IH]; intros seen; cbn [unseen]; [done|].
  destruct (decide (y ∈ seen)).
  - specialize (IH seen). simpl. lia.
  - specialize (IH ({[y]} ∪ seen)). simpl. lia.
Qed.

Lemma append_slash_ne (s : string) : s <> s +:+ "/".
Proof. induction s as [|ch s IH]; [done|]. simpl. intros [= H]. by apply IH. Qed.

(** X25.  The redirect URIs tried by [callback] are the five candidates
    without repetition: each candidate occurs exactly once, the URL of
    the request without its query and final slash comes first, and there
    are between two and five attempts. *)
Theorem attempts_are_distinct (url REDIRECT_URI : string) :
  let attempts := redirect_uris_to_try url REDIRECT_URI in
  NoDup attempts
  /\ head attempts = Some (actual_redirect_uri url)
  /\ (forall x, x ∈ attempts <-> x ∈ candidates url REDIRECT_URI)
  /\ (2 <= length attempts <= 5)%nat.
Proof.
  cbv zeta. unfold redirect_uris_to_try.
  destruct (unseen_spec (candidates url REDIRECT_URI) ∅) as [Hn Hx].
  assert (Hall : forall x, x ∈ unseen ∅ (candidates url REDIRECT_URI)
                           <-> x ∈ candidates url REDIRECT_URI).
  { intros x. rewrite Hx. split; [by intros [? _]|].
    intros H. split; [done | apply not_elem_of_empty]. }
  assert (Hhead : head (unseen ∅ (candidates url REDIRECT_URI))
                  = Some (actual_redirect_uri url)).
  { unfold candidates. cbn [unseen].
    by rewrite decide_False by apply not_elem_of_empty. }
  split; [done|]. split; [done|]. split; [done|]. split.
  - assert (Hs : actual_redirect_uri url +:+ "/"
                 ∈ unseen ∅ (candidates url REDIRECT_URI)).
    { apply Hall. unfold candidates. do 3 right. left. }
    destruct (unseen ∅ (candidates url REDIRECT_URI)) as [|a [|b rest]];
      [done | | simpl; lia].
    injection Hhead as ->. apply list_elem_of_singleton in Hs.
    symmetry in Hs. by apply append_slash_ne in Hs.
  - pose proof (unseen_length (candidates url REDIRECT_URI) ∅) as H.
    by unfold candidates in H at 2.
Qed.

Variable post_code : string -> option (gmap string value).

Lemma exchange_first (before after : list string) (uri : string)
    (data : gmap string value) (tok : value) (now : Q) :
  (forall u d, u ∈ before -> post_code u = Some d ->
               d !! "access_token" = None) ->
  post_code uri = Some data ->
  data !! "access_token" = Some tok ->
  exchange post_code (before ++ uri :: after) now
  = let! stamped := with_expiry data now in Ok (Some (stamped, tok)).
Proof.
  intros Hb Hpost Htok. induction before as [|u before IH];
    cbn [app exchange].
  - by rewrite Hpost, Htok.
  - destruct (post_code u) as [d|] eqn:Hu.
    + rewrite (Hb u d (list_elem_of_here _ _) Hu). apply IH.
      intros u' d' Hu'. apply Hb. by right.
    + apply IH. intros u' d' Hu'. apply Hb. by right.
Qed.

Lemma exchange_inv (attempts : list string) (now : Q)
    (stamped : gmap string value) (tok : value) :
  exchange post_code attempts now = Ok (Some (stamped, tok)) ->
  exists before uri after data,
    attempts = before ++ uri :: after
    /\ (forall u d, u ∈ before -> post_code u = Some d ->
                    d !! "access_token" = None)
    /\ post_code uri = Some data
    /\ data !! "access_token" = Some tok
    /\ with_expiry data now = Ok stamped.
Proof.
  induction attempts as [|u attempts IH]; cbn [exchange]; [done|].
  destruct (post_code u) as [d|] eqn:Hu.
  - destruct (d !! "access_token") as [token|] eqn:Ht.
    + destruct (with_expiry d now) as [st|] eqn:Hexp; [|done].
      cbn [bind]. intros [= <- <-].
      exists [], u, attempts, d. repeat split; try done.
      intros u' d' Hu'. by apply elem_of_nil in Hu'.
    + intros H. destruct (IH H) as (before & uri & after & data & -> & Hb & ?).
      exists (u :: before), uri, after, data. split; [done|]. split; [|done].
      intros u' d' Hu' Hp. apply elem_of_cons in Hu' as [-> | Hu'].
      * congruence.
      * by apply (Hb u').
  - intros H. destruct (IH H) as (before & uri & after & data & -> & Hb & ?).
    exists (u :: before), uri, after, data. split; [done|]. split; [|done].
    intros u' d' Hu' Hp. apply elem_of_cons in Hu' as [-> | Hu'].
    + congruence.
    + by apply (Hb u').
Qed.

(** X26.  A successful [callback] leaves a token that [get_valid_token]
    serves.  The token comes from the first attempt, in the order of the
    list, whose response carries one; the file holds that response with
    the expiry [now + expires_in - 60] added; and every call of
    [get_valid_token] made before that expiry returns the same token
    without a request and leaves the state as it is. *)
Theorem callback_then_valid (code : option string)
    (url REDIRECT_URI : string) (s s' : state) (now : Q) :
  callback post_code code url REDIRECT_URI s now = Ok (s', 200) ->
  exists before uri after data tok n,
    redirect_uris_to_try url REDIRECT_URI = before ++ uri :: after
    /\ (forall u d, u ∈ before -> post_code u = Some d ->
                    d !! "access_token" = None)
    /\ post_code uri = Some data
    /\ data !! "access_token" = Some tok
    /\ get_or data "expires_in" (VNum 86400) = VNum n
    /\ s' = {| token_file :=
                 Some (<["expires_at" := VNum (now + n - 60)]> data);
               access_token := tok |}
    /\ forall (post : value -> option (gmap string value)) (t t' : Q),
         (t < now + n - 60)%Q -> ~ (now + n - 60 == 0)%Q ->
         get_valid_token post s' t t' = Ok (s', tok).
Proof.
  unfold callback. intros H.
  destruct code as [[|ch code]|]; [done| |done].
  destruct (exchange post_code (redirect_uris_to_try url REDIRECT_URI) now)
    as [[[stamped tok]|]|] eqn:Hex; [|done..].
  cbn [bind] in H. injection H as <-.
  apply exchange_inv in Hex
    as (before & uri & after & data & Hsplit & Hb & Hpost & Htok & Hexp).
  apply with_expiry_inv in Hexp as (n & Hn & ->).
  exists before, uri, after, data, tok, n. do 6 (split; [done|]).
  intros post t t' Hlt Hnz.
  apply (stored_token_valid post _ _ _ (now + n - 60)%Q);
    [done | | | done | done].
  - by rewrite lookup_insert_ne.
  - by rewrite lookup_insert_eq.
Qed.

(** X27.  [callback] does not guard the expiry arithmetic: when the
    first response that carries a token has an [expires_in] that is not
    a number, the request ends in a [TypeError] and nothing is saved,
    whatever the later attempts would have returned. *)
Theorem callback_rejects_bad_expiry (code : string)
    (url REDIRECT_URI : string) (s : state) (now : Q)
    (before after : list string) (uri : string)
    (data : gmap string value) (bad : value) :
  code <> EmptyString ->
  redirect_uris_to_try url REDIRECT_URI = before ++ uri :: after ->
  (forall u d, u ∈ before -> post_code u = Some d ->
               d !! "access_token" = None) ->
  post_code uri = Some data ->
  is_Some (data !! "access_token") ->
  data !! "expires_in" = Some bad ->
  (forall n, bad <> VNum n) ->
  callback post_code (Some code) url REDIRECT_URI s now = Raise TypeError.
Proof.
  intros Hcode Hsplit Hb Hpost [tok Htok] Hin Hbad. unfold callback.
  destruct code as [|ch code]; [done|].
  rewrite Hsplit, (exchange_first _ _ _ _ _ _ Hb Hpost Htok).
  unfold with_expiry, get_or. rewrite Hin. cbn [default from_option id].
  destruct bad as [|n|str]; [done | by destruct (Hbad n) | done].
Qed.

End CallbackFacts.


Lemma callback_then_valid_witness :
  let post_code := fun uri : string =>
    if String.eqb uri "https://127.0.0.1:5000/callback/"
    then Some ({[ "access_token" := VStr "granted";
                  "expires_in" := VNum 3600%Q ]} : gmap string value)
    else None in
  let s' :=
    {| Token.token_file :=
         Some (<["expires_at" := VNum (1000 + 3600 - 60)%Q]>
                 {[ "access_token" := VStr "granted";
                    "expires_in" := VNum 3600%Q ]});
       Token.access_token := VStr "granted" |} in
  Callback.callback post_code (Some "abc")
    "https://127.0.0.1:5000/callback?code=abc"
    "https://127.0.0.1:5000/callback/"
    {| Token.token_file := None; Token.access_token := VNone |} 1000%Q
  = Ok (s', 200)
  /\ Token.get_valid_token (fun _ => None) s' 2000%Q 2001%Q
     = Ok (s', VStr "granted").
Proof.
  intros post_code s'.
  assert (H1 : Callback.callback post_code (Some "abc")
                 "https://127.0.0.1:5000/callback?code=abc"
                 "https://127.0.0.1:5000/callback/"
                 {| Token.token_file := None; Token.access_token := VNone |}
                 1000%Q
               = Ok (s', 200)) by (by vm_compute).
  split; [exact H1|].
  destruct (callback_then_valid _ _ _ _ _ _ _ H1)
    as (before & uri & after & data & tok & n & _ & _ & Hpost & _ & Hn & Hs
        & Hlater).
  assert (Etok : tok = VStr "granted")
    by (apply (f_equal Token.access_token) in Hs; symmetry; exact Hs).
  subst tok. unfold post_code in Hpost.
  destruct (String.eqb uri _); [|discriminate]. injection Hpost as <-.
  vm_compute in Hn. injection Hn as <-.
  apply Hlater; by vm_compute.
Defined.

Lemma callback_rejects_bad_expiry_witness :
  Callback.callback
    (fun _ => Some {[ "access_token" := VStr "granted";
                      "expires_in" := VStr "3600" ]})
    (Some "abc")
    "https://127.0.0.1:5000/callback?code=abc"
    "https://127.0.0.1:5000/callback/"
    {| Token.token_file := None; Token.access_token := VNone |} 1000%Q
  = Raise TypeError.
Proof.
  apply (callback_rejects_bad_expiry
           (fun _ => Some {[ "access_token" := VStr "granted";
                             "expires_in" := VStr "3600" ]})
           "abc" "https://127.0.0.1:5000/callback?code=abc"
           "https://127.0.0.1:5000/callback/"
           {| Token.token_file := None; Token.access_token := VNone |} 1000%Q
           [] ["https://127.0.0.1:5000/callback/"]
           "https://127.0.0.1:5000/callback"
           {[ "access_token" := VStr "granted"; "expires_in" := VStr "3600" ]}
           (VStr "3600")).
  - discriminate.
  - by vm_compute.
  - intros u d Hu. by apply elem_of_nil in Hu.
  - reflexivity.
  - exists (VStr "granted"). by vm_compute.
  - by vm_compute.
  - discriminate.
Defined.


(** ** OHLC of a batch of options *)

Section OptionOhlcFacts.

Import Token DayCandles OptionOhlc.

Variable data : gmap string quote.
Variable key_to_tradingsymbol : gmap string string.
Variable candles_ohlc : string -> option day_ohlc.

Lemma take_quote_inv (t t' : tables) (key test_key : string) :
  take_quote data t key test_key = Some t' ->
  exists q,
    data !! test_key = Some q
    /\ is_truthy (quote_price q) = true
    /\ results t' = <[key := {[ "ltp" := quote_price q ]}]> (results t).
Proof.
  unfold take_quote. destruct (data !! test_key) as [q|]; [|done].
  destruct (is_truthy (quote_price q)) eqn:E; [|done].
  intros [= <-]. by exists q.
Qed.

Lemma quotes_step_cases (t : tables) (key : string) :
  results (quotes_step data key_to_tradingsymbol t key) = results t
  \/ exists test_key q,
       data !! test_key = Some q
       /\ is_truthy (quote_price q) = true
       /\ results (quotes_step data key_to_tradingsymbol t key)
          = <[key := {[ "ltp" := quote_price q ]}]> (results t).
Proof.
  unfold quotes_step.
  destruct (match key_to_tradingsymbol !! key with
            | Some tradingsymbol =>
                take_quote data t key ("NSE_FO:" +:+ tradingsymbol)
            | None => None
            end) as [t'|] eqn:E1.
  { destruct (key_to_tradingsymbol !! key); [|done].
    apply take_quote_inv in E1 as (q & ? & ? & ?). right. by eexists _, q. }
  destruct (take_quote data t key key) as [t'|] eqn:E2.
  { apply take_quote_inv in E2 as (q & ? & ? & ?). right. by eexists _, q. }
  destruct (take_quote data t key (Str.replace "|" ":" key)) as [t'|] eqn:E3.
  { apply take_quote_inv in E3 as (q & ? & ? & ?). right. by eexists _, q. }
  by left.
Qed.

(** After the first loop every entry belongs to a processed key and
    holds exactly one true price read from the response. *)
Lemma quotes_fold_inv (keys : list string) (t0 : tables)
    (K : string -> Prop) :
  (forall k e, results t0 !! k = Some e ->
     K k /\ exists test_key q,
              data !! test_key = Some q
              /\ is_truthy (quote_price q) = true
              /\ e = {[ "ltp" := quote_price q ]}) ->
  forall k e,
    results (foldl (quotes_step data key_to_tradingsymbol) t0 keys) !! k
    = Some e ->
    (K k \/ k ∈ keys)
    /\ exists test_key q,
         data !! test_key = Some q
         /\ is_truthy (quote_price q) = true
         /\ e = {[ "ltp" := quote_price q ]}.
Proof.
  revert t0 K. induction keys as [|x keys IH]; intros t0 K H0 k e Hk.
  - cbn [foldl] in Hk. destruct (H0 k e Hk) as [HK ?]. split; [by left|done].
  - cbn [foldl] in Hk.
    assert (H1 : forall k e,
               results (quotes_step data key_to_tradingsymbol t0 x) !! k
               = Some e ->
               (K k \/ k = x)
               /\ exists test_key q,
                    data !! test_key = Some q
                    /\ is_truthy (quote_price q) = true
                    /\ e = {[ "ltp" := quote_price q ]}).
    { intros k' e' Hk'.
      destruct (quotes_step_cases t0 x) as [E | (tk & q & Hq & Htr & E)];
        rewrite E in Hk'.
      - destruct (H0 k' e' Hk') as [HK ?]. split; [by left|done].
      - destruct (decide (k' = x)) as [->|Hne].
        + rewrite lookup_insert_eq in Hk'. injection Hk' as <-.
          split; [by right|]. by exists tk, q.
        + rewrite lookup_insert_ne in Hk' by done.
          destruct (H0 k' e' Hk') as [HK ?]. split; [by left|done]. }
    destruct (IH _ _ H1 k e Hk) as [[[HK | ->] | Hin] Hgood];
      (split; [|exact Hgood]).
    + by left.
    + right. left.
    + right. by right.
Qed.

Lemma candles_step_lookup_ne (quotes : gmap string quote)
    (r : gmap string (gmap string value)) (key k : string) :
  k <> key -> candles_step candles_ohlc quotes r key !! k = r !! k.
Proof.
  intros Hne. unfold candles_step.
  destruct (match candles_ohlc key with
            | Some d => if any_value d then Some (ohlc_entries d) else None
            | None => None
            end).
  - by rewrite lookup_insert_ne.
  - destruct (quotes !! key) as [q|]; [|by rewrite lookup_insert_ne].
    destruct (decide (ohlc q = ∅)); by rewrite lookup_insert_ne.
Qed.

Lemma ohlc_entries_lookup (d : day_ohlc) :
  ohlc_entries d !! "o" = Some (o d) /\ ohlc_entries d !! "h" = Some (h d)
  /\ ohlc_entries d !! "l" = Some (l d) /\ ohlc_entries d !! "c" = Some (c d)
  /\ ohlc_entries d !! "ltp" = None.
Proof.
  unfold ohlc_entries. repeat split.
Qed.

Lemma quote_entries_ltp (q : quote) (entry : gmap string value) :
  quote_entries q entry !! "ltp" = None.
Proof.
  unfold quote_entries. rewrite !lookup_insert_ne by done.
  by rewrite lookup_singleton_ne.
Qed.

(** The second loop gives its key an entry, keeps the stored price, and
    writes the candle values when the candles gave any. *)
Lemma candles_step_lookup (quotes : gmap string quote)
    (r : gmap string (gmap string value)) (key : string) :
  exists e,
    candles_step candles_ohlc quotes r key !! key = Some e
    /\ e !! "ltp" = default ∅ (r !! key) !! "ltp"
    /\ forall d, candles_ohlc key = Some d -> any_value d = true ->
         e !! "o" = Some (o d) /\ e !! "h" = Some (h d)
         /\ e !! "l" = Some (l d) /\ e !! "c" = Some (c d).
Proof.
  unfold candles_step. destruct (candles_ohlc key) as [d|].
  - destruct (any_value d) eqn:Hany.
    + destruct (ohlc_entries_lookup d) as (Ho & Hh & Hl & Hc & Hltp).
      eexists. split; [by rewrite lookup_insert_eq|]. split.
      * by rewrite lookup_union_r.
      * intros d' [= <-] _.
        by rewrite !(lookup_union_Some_l _ _ _ _ Ho),
          !(lookup_union_Some_l _ _ _ _ Hh),
          !(lookup_union_Some_l _ _ _ _ Hl),
          !(lookup_union_Some_l _ _ _ _ Hc).
    + destruct (quotes !! key) as [q|].
      * destruct (decide (ohlc q = ∅)).
        -- eexists. split; [by rewrite lookup_insert_eq|]. split; [done|].
           intros d' [= <-]. congruence.
        -- eexists. split; [by rewrite lookup_insert_eq|]. split.
           ++ by rewrite lookup_union_r by apply quote_entries_ltp.
           ++ intros d' [= <-]. congruence.
      * eexists. split; [by rewrite lookup_insert_eq|]. split; [done|].
        intros d' [= <-]. congruence.
  - destruct (quotes !! key) as [q|].
    + destruct (decide (ohlc q = ∅)).
      * eexists. split; [by rewrite lookup_insert_eq|]. by split.
      * eexists. split; [by rewrite lookup_insert_eq|]. split; [|done].
        by rewrite lookup_union_r by apply quote_entries_ltp.
    + eexists. split; [by rewrite lookup_insert_eq|]. by split.
Qed.

Lemma candles_fold_is_Some (quotes : gmap string quote) (keys : list string)
    (r : gmap string (gmap string value)) (k : string) :
  is_Some (foldl (candles_step candles_ohlc quotes) r keys !! k)
  <-> is_Some (r !! k) \/ k ∈ keys.
Proof.
  revert r. induction keys as [|x keys IH]; intros r; cbn [foldl].
  - split; [by left|]. intros [H|H]; [done | by apply elem_of_nil in H].
  - rewrite IH, elem_of_cons. destruct (decide (k = x)) as [->|Hne].
    + destruct (candles_step_lookup quotes r x) as (e & -> & _).
      split; [intros _; right; by left | intros _; left; by eexists].
    + rewrite candles_step_lookup_ne by done.
      split; [intros [H|H]; [by left | by right; right]|].
      intros [H|[H|H]]; [by left | done | by right].
Qed.

Lemma candles_fold_ltp (quotes : gmap string quote) (keys : list string)
    (r : gmap string (gmap string value)) (k : string) :
  default ∅ (foldl (candles_step candles_ohlc quotes) r keys !! k) !! "ltp"
  = default ∅ (r !! k) !! "ltp".
Proof.
  revert r. induction keys as [|x keys IH]; intros r; cbn [foldl]; [done|].
  rewrite IH. destruct (decide (k = x)) as [->|Hne].
  - destruct (candles_step_lookup quotes r x) as (e & He & Hl & _).
    by rewrite He.
  - by rewrite candles_step_lookup_ne.
Qed.

Lemma candles_fold_priority (quotes : gmap string quote) (keys : list string)
    (r : gmap string (gmap string value)) (k : string) (d : day_ohlc) :
  k ∈ keys -> candles_ohlc k = Some d -> any_value d = true ->
  exists e,
    foldl (candles_step candles_ohlc quotes) r keys !! k = Some e
    /\ e !! "o" = Some (o d) /\ e !! "h" = Some (h d)
    /\ e !! "l" = Some (l d) /\ e !! "c" = Some (c d).
Proof.
  intros Hin Hd Hany. revert r Hin.
  induction keys as [|x keys IH] using rev_ind; intros r Hin.
  { by apply elem_of_nil in Hin. }
  rewrite foldl_snoc. destruct (decide (k = x)) as [->|Hne].
  - destruct (candles_step_lookup quotes
                (foldl (candles_step candles_ohlc quotes) r keys) x)
      as (e & He & _ & Hf).
    exists e. split; [done|]. by apply Hf.
  - rewrite candles_step_lookup_ne by done. apply IH.
    apply elem_of_app in Hin as [Hin|Hin]; [done|].
    by apply list_elem_of_singleton in Hin.
Qed.

(** X28.  [get_option_ohlc_batch] answers for exactly the keys it was
    asked: every requested key has an entry, possibly empty, whether or
    not a quote or a candle was found, and no other key has one. *)
Theorem batch_covers_requested_keys (instrument_keys : list string)
    (k : string) :
  is_Some (get_option_ohlc_batch data key_to_tradingsymbol candles_ohlc
             instrument_keys !! k)
  <-> k ∈ instrument_keys.
Proof.
  unfold get_option_ohlc_batch.
  destruct instrument_keys as [|k0 keys] eqn:E.
  { rewrite lookup_empty. split; [by intros [? ?]|].
    intros H. by apply elem_of_nil in H. }
  rewrite <- E. rewrite candles_fold_is_Some. split; [|by right].
  intros [[e He] | H]; [|done].
  eapply (quotes_fold_inv _ _ (fun _ => False)) in He as [[[] | Hin] _];
    [done|].
  intros k' e'. cbn [results]. by rewrite lookup_empty.
Qed.

(** X29.  The candles take priority: when the candle lookup of a
    requested key gives an OHLC with some true value, the entry of the
    key carries exactly these four values, whatever the quotes hold. *)
Theorem candles_take_priority (instrument_keys : list string) (k : string)
    (d : day_ohlc) :
  k ∈ instrument_keys -> candles_ohlc k = Some d -> any_value d = true ->
  exists e,
    get_option_ohlc_batch data key_to_tradingsymbol candles_ohlc
      instrument_keys !! k = Some e
    /\ e !! "o" = Some (o d) /\ e !! "h" = Some (h d)
    /\ e !! "l" = Some (l d) /\ e !! "c" = Some (c d).
Proof.
  intros Hin Hd Hany. unfold get_option_ohlc_batch.
  destruct instrument_keys as [|k0 keys] eqn:E;
    [by apply elem_of_nil in Hin|].
  rewrite <- E. apply candles_fold_priority; by rewrite ?E.
Qed.

(** X30.  A price reported by the batch is a live one: the ["ltp"] of an
    entry is true (not null, not zero) and is the [last_price], or else
    the [ltp], of a quote of the response; the second loop never
    changes it. *)
Theorem stored_price_is_live (instrument_keys : list string) (k : string)
    (e : gmap string value) (v : value) :
  get_option_ohlc_batch data key_to_tradingsymbol candles_ohlc
    instrument_keys !! k = Some e ->
  e !! "ltp" = Some v ->
  is_truthy v = true
  /\ exists test_key q, data !! test_key = Some q /\ quote_price q = v.
Proof.
  unfold get_option_ohlc_batch.
  destruct instrument_keys as [|k0 keys] eqn:E;
    [by rewrite lookup_empty|].
  rewrite <- E. intros He Hv.
  pose proof (candles_fold_ltp
                (quotes_data (foldl (quotes_step data key_to_tradingsymbol)
                                {| results := ∅; quotes_data := ∅ |}
                                instrument_keys))
                instrument_keys
                (results (foldl (quotes_step data key_to_tradingsymbol)
                            {| results := ∅; quotes_data := ∅ |}
                            instrument_keys)) k) as Hltp.
  rewrite He in Hltp. cbn [default from_option id] in Hltp.
  rewrite Hv in Hltp. symmetry in Hltp.
  destruct (results (foldl (quotes_step data key_to_tradingsymbol)
                       {| results := ∅; quotes_data := ∅ |}
                       instrument_keys) !! k) as [e0|] eqn:He0;
    cbn [default from_option id] in Hltp;
    [|by rewrite lookup_empty in Hltp].
  eapply (quotes_fold_inv _ _ (fun _ => False)) in He0
    as [_ (tk & q & Hq & Htr & ->)].
  - rewrite lookup_singleton_eq in Hltp. injection Hltp as <-.
    split; [done|]. by exists tk, q.
  - intros k' e'. cbn [results]. by rewrite lookup_empty.
Qed.

End OptionOhlcFacts.


Lemma candles_take_priority_witness :
  let data : gmap string OptionOhlc.quote :=
    {[ "NSE_FO|1" := {| OptionOhlc.last_price := VNum 12%Q;
                        OptionOhlc.ltp := VNone;
                        OptionOhlc.ohlc := {[ "open" := VNum 10%Q ]} |} ]} in
  let d := {| DayCandles.o := VNum 1%Q; DayCandles.h := VNum 2%Q;
              DayCandles.l := VNum 0%Q; DayCandles.c := VNum 1%Q |} in
  exists e,
    OptionOhlc.get_option_ohlc_batch data ∅ (fun _ => Some d) ["NSE_FO|1"]
    !! "NSE_FO|1" = Some e
    /\ e !! "o" = Some (VNum 1%Q) /\ e !! "h" = Some (VNum 2%Q)
    /\ e !! "l" = Some (VNum 0%Q) /\ e !! "c" = Some (VNum 1%Q).
Proof.
  intros data d.
  apply (candles_take_priority data ∅ (fun _ => Some d) ["NSE_FO|1"]
           "NSE_FO|1" d).
  - left.
  - reflexivity.
  - reflexivity.
Defined.

Lemma stored_price_is_live_witness :
  let data : gmap string OptionOhlc.quote :=
    {[ "NSE_FO|1" := {| OptionOhlc.last_price := VNum 12%Q;
                        OptionOhlc.ltp := VNone;
                        OptionOhlc.ohlc := {[ "open" := VNum 10%Q ]} |} ]} in
  Token.is_truthy (VNum 12%Q) = true
  /\ exists test_key q,
       data !! test_key = Some q /\ OptionOhlc.quote_price q = VNum 12%Q.
Proof.
  intros data.
  apply (stored_price_is_live data ∅ (fun _ => None) ["NSE_FO|1"] "NSE_FO|1"
           ({[ "o" := VNum 10%Q; "h" := VNone; "l" := VNone;
               "c" := VNum 12%Q ]} ∪ {[ "ltp" := VNum 12%Q ]})).
  - by vm_compute.
  - by vm_compute.
Defined.
